(** * NBA backend: the event-driven recommendation lifecycle engine

    A shallow embedding of [nba_backend] (domain models, the in-memory
    repositories and the application services) together with the properties
    its specification states about idempotency, scope exclusivity, action
    transitions, listing and the processed-event ledger.

    Python objects are modelled as follows.
    - [str] is [string]; [str | None] is [option string].
    - A [dict] is an insertion-ordered association list with unique keys
      ([dict_get], [dict_set]): assigning to an existing key keeps its
      position, assigning to a new key appends.
    - [set[str]] is [gset string].
    - The in-memory repositories, which the services share and mutate, are
      the fields of one [State]; every method is a computation in the monad
      [M], which threads the state and may raise.
    - [utc_now()] and [uuid4()] read the outside world.  The world is an
      environment [Env] giving the n-th clock reading and the n-th uuid;
      the state counts how many of each were consumed. *)

From Stdlib Require Import ZArith String List Sorted Permutation Lia.
From stdpp Require Import base decidable option list gmap strings.

Local Open Scope Z_scope.

(** ** Python values *)

(** Truthiness of a [str | None]: [None] and the empty string are falsy. *)
Definition truthy (o : option string) : bool :=
  match o with
  | None => false
  | Some s => negb (String.eqb s EmptyString)
  end.

(** *** Insertion-ordered dictionaries with string keys *)

Definition dict (V : Type) : Type := list (string * V).

Fixpoint dict_get {V} (d : dict V) (k : string) : option V :=
  match d with
  | [] => None
  | (k', v) :: d' => if decide (k' = k) then Some v else dict_get d' k
  end.

(** [d[k] = v]. *)
Fixpoint dict_set {V} (d : dict V) (k : string) (v : V) : dict V :=
  match d with
  | [] => [(k, v)]
  | (k', v') :: d' =>
      if decide (k' = k) then (k, v) :: d' else (k', v') :: dict_set d' k v
  end.

Definition dict_keys {V} (d : dict V) : list string := map fst d.
Definition dict_values {V} (d : dict V) : list V := map snd d.
Definition dict_items {V} (d : dict V) : list (string * V) := d.

(** [dict.fromkeys(ks)]: every key inserted in turn with value [None]. *)
Definition dict_fromkeys (ks : list string) : dict unit :=
  fold_left (fun d k => dict_set d k tt) ks [].

(** *** Slices *)

(** How a slice bound [i] is clamped for a list of length [n]. *)
Definition slice_bound (n i : Z) : Z :=
  if i <? 0 then Z.max (i + n) 0 else Z.min i n.

(** [l[start:stop]]. *)
Definition py_slice {A} (l : list A) (start stop : Z) : list A :=
  let n := Z.of_nat (length l) in
  let lo := slice_bound n start in
  let hi := slice_bound n stop in
  take (Z.to_nat (hi - lo)) (drop (Z.to_nat lo) l).

(** *** [list.sort(key=..., reverse=True)]

    Python's sort is stable, also with [reverse=True]: elements with equal
    keys keep their original order.  Insertion from the right, placing an
    element before the first one whose key is not larger, builds exactly
    that list. *)
Section Sort.
Context {A : Type} (key : A -> Z).

Fixpoint insert_desc (x : A) (l : list A) : list A :=
  match l with
  | [] => [x]
  | y :: l' => if key y <=? key x then x :: y :: l' else y :: insert_desc x l'
  end.

Definition sort_desc (l : list A) : list A := foldr insert_desc [] l.
End Sort.

(** ** domain/models.py *)

Definition NBA_STATUS_NEW : string := "new".
Definition NBA_STATUS_ACCEPTED : string := "accepted".
Definition NBA_STATUS_REJECTED : string := "rejected".
Definition ACTION_STATUSES : gset string :=
  {[ NBA_STATUS_ACCEPTED; NBA_STATUS_REJECTED ]}.
Definition NBA_STATUSES : gset string :=
  {[ NBA_STATUS_NEW; NBA_STATUS_ACCEPTED; NBA_STATUS_REJECTED ]}.

(** A [datetime]: its wall-clock reading in microseconds and its [tzinfo],
    [None] for a naive value, otherwise the offset from UTC in minutes. *)
Module datetime.
Record t : Type := mk { wall : Z; tzinfo : option Z }.
Definition utc : Z := 0.
(** [d.replace(tzinfo=tz)]: same wall clock, new [tzinfo]. *)
Definition replace_tzinfo (d : t) (tz : Z) : t := mk (wall d) (Some tz).
Definition aware (d : t) : Prop := tzinfo d <> None.
Definition is_utc (d : t) : Prop := tzinfo d = Some utc.
End datetime.

(** Opaque key-value payloads ([dict[str, Any]]); the values the engine
    itself writes are strings or [None]. *)
Definition Context : Type := dict (option string).

(** One recommendation.  [created_at] and [updated_at] are only ever
    written from [utc_now()], an aware UTC datetime; they are kept as that
    UTC instant. *)
Module NbaRecord.
Record t : Type := mk {
  id : string;
  nba_definition_id : string;
  enterprise_number : option string;
  account_id : option string;
  contact_id : option string;
  active : bool;
  status : string;
  priority : Z;
  context : Context;
  created_at : Z;
  updated_at : Z
}.

(** [replace(r, active=a, updated_at=now)] *)
Definition replace_active (r : t) (a : bool) (now : Z) : t :=
  mk (id r) (nba_definition_id r) (enterprise_number r) (account_id r)
     (contact_id r) a (status r) (priority r) (context r) (created_at r) now.

(** [replace(r, status=st, updated_at=now)] *)
Definition replace_status (r : t) (st : string) (now : Z) : t :=
  mk (id r) (nba_definition_id r) (enterprise_number r) (account_id r)
     (contact_id r) (active r) st (priority r) (context r) (created_at r) now.
End NbaRecord.

Module NbaEventLogRecord.
Record t : Type := mk {
  id : string;
  nba_id : string;
  status : string;
  context : Context;
  acted_by : option string;
  action_at : datetime.t
}.
End NbaEventLogRecord.

Module UserContext.
Record t : Type := mk {
  username : string;
  allowed_accounts : gset string;
  allowed_clients : gset string
}.
End UserContext.

(** ** The calculation event payload

    The worker hands [process] the dictionary produced from a validated
    [CalculationEventRequest].  [event_id] and [nba_definition_id] are read
    with [payload[...]] and are always there; the other keys are read with
    [payload.get], so a missing key is [None]. *)
Module Payload.
Record t : Type := mk {
  event_id : string;
  occurred_at : option string;
  source : option string;
  nba_definition_id : string;
  enterprise_number : option string;
  account_id : option string;
  contact_id : option string;
  create_nba : option bool;
  deactivate_nba_ids : option (list string);
  context : option Context
}.
End Payload.

(** The dictionary [process] returns. *)
Module ProcessResult.
Record t : Type := mk { action : string; nba_id : string }.
End ProcessResult.

(** ** The world and the shared state *)

Record Env : Type := {
  (** the n-th reading of the UTC clock, in microseconds *)
  clock : nat -> Z;
  (** the hexadecimal form of the n-th uuid4 *)
  uuid4_hex : nat -> string;
  (** the optional reference-data collaborator of [CalculationEventService]:
      its [enrich_target_identifiers(account_id, enterprise_number)] *)
  reference_data :
    option (option string -> option string -> option string * option string)
}.

Record State : Type := mkState {
  (** InMemoryNbaRepository *)
  _nbas : dict NbaRecord.t;
  _event_to_nba_id : dict string;
  (** InMemoryNbaEventLogRepository *)
  _events : list NbaEventLogRecord.t;
  (** InMemoryProcessedEventRepository *)
  _processed : gset string;
  (** readings of the clock and uuids consumed so far *)
  clock_reads : nat;
  uuid_draws : nat
}.

(** The repositories as [lifespan] builds them. *)
Definition initial_state : State := mkState [] [] [] ∅ 0 0.

(** ** Computations: state passing with exceptions *)

Inductive exn : Type :=
| HTTPException (status_code : Z) (detail : string)
| KeyError (key : string).

Definition HTTP_400_BAD_REQUEST : Z := 400.
Definition HTTP_404_NOT_FOUND : Z := 404.
Definition HTTP_409_CONFLICT : Z := 409.

Inductive outcome (A : Type) : Type :=
| Return (a : A)
| Raise (e : exn).
Arguments Return {A} a.
Arguments Raise {A} e.

Definition M (A : Type) : Type := State -> outcome A * State.

Definition ret {A} (a : A) : M A := fun s => (Return a, s).
Definition bind {A B} (m : M A) (k : A -> M B) : M B :=
  fun s =>
    match m s with
    | (Return a, s') => k a s'
    | (Raise e, s') => (Raise e, s')
    end.
Definition raise {A} (e : exn) : M A := fun s => (Raise e, s).
Definition gets {A} (f : State -> A) : M A := fun s => (Return (f s), s).
Definition modify (f : State -> State) : M unit := fun s => (Return tt, f s).

Declare Scope m_scope.
Delimit Scope m_scope with M.
Notation "x <- m ;; k" := (bind m (fun x => k))
  (at level 100, m at next level, right associativity) : m_scope.
Notation "m ;;; k" := (bind m (fun _ => k))
  (at level 100, right associativity) : m_scope.
Local Open Scope m_scope.

(** A [for] loop that updates a local accumulator. *)
Fixpoint for_fold {A B} (xs : list A) (acc : B) (body : B -> A -> M B) : M B :=
  match xs with
  | [] => ret acc
  | x :: xs' => acc' <- body acc x ;; for_fold xs' acc' body
  end.

Definition set_nbas (d : dict NbaRecord.t) (s : State) : State :=
  mkState d (_event_to_nba_id s) (_events s) (_processed s)
          (clock_reads s) (uuid_draws s).
Definition set_event_to_nba_id (d : dict string) (s : State) : State :=
  mkState (_nbas s) d (_events s) (_processed s) (clock_reads s) (uuid_draws s).
Definition set_events (l : list NbaEventLogRecord.t) (s : State) : State :=
  mkState (_nbas s) (_event_to_nba_id s) l (_processed s)
          (clock_reads s) (uuid_draws s).
Definition set_processed (p : gset string) (s : State) : State :=
  mkState (_nbas s) (_event_to_nba_id s) (_events s) p
          (clock_reads s) (uuid_draws s).

Section Engine.
Context (env : Env).

(** ** Reading the world *)

(** [utc_now()]: the UTC instant the clock shows. *)
Definition utc_now : M Z :=
  fun s =>
    (Return (clock env (clock_reads s)),
     mkState (_nbas s) (_event_to_nba_id s) (_events s) (_processed s)
             (S (clock_reads s)) (uuid_draws s)).

(** [uuid4().hex[:10]] *)
Definition uuid4_hex10 : M string :=
  fun s =>
    (Return (String.substring 0 10 (uuid4_hex env (uuid_draws s))),
     mkState (_nbas s) (_event_to_nba_id s) (_events s) (_processed s)
             (clock_reads s) (S (uuid_draws s))).

(** ** adapters/inmemory/repositories.py *)

Definition _match_identifiers (nba : NbaRecord.t)
    (account_id enterprise_number : option string) : bool :=
  (bool_decide (account_id = None)
     || bool_decide (NbaRecord.account_id nba = account_id))
  && (bool_decide (enterprise_number = None)
     || bool_decide (NbaRecord.enterprise_number nba = enterprise_number)).

(** *** InMemoryNbaRepository *)

(** The comprehension of [list_nbas]. *)
Definition list_nbas_keep (account_id enterprise_number status : option string)
    (nba : NbaRecord.t) : bool :=
  NbaRecord.active nba
  && _match_identifiers nba account_id enterprise_number
  && (bool_decide (status = None)
      || bool_decide (Some (NbaRecord.status nba) = status)).

Definition list_nbas (account_id enterprise_number status : option string)
    (limit offset : Z) : M (list NbaRecord.t * Z) :=
  nbas <- gets _nbas ;;
  let filtered :=
    List.filter (list_nbas_keep account_id enterprise_number status)
                (dict_values nbas) in
  let filtered := sort_desc NbaRecord.created_at filtered in
  let total := Z.of_nat (length filtered) in
  ret (py_slice filtered offset (offset + limit), total).

Definition get_nba (nba_id : string) : M (option NbaRecord.t) :=
  gets (fun s => dict_get (_nbas s) nba_id).

Definition upsert_from_calculation_event (event_id nba_definition_id : string)
    (enterprise_number account_id contact_id : option string)
    (context : Context) : M (option NbaRecord.t) :=
  known <- gets (fun s => dict_get (_event_to_nba_id s) event_id) ;;
  match known with
  | Some nba_id => gets (fun s => dict_get (_nbas s) nba_id)
  | None =>
      hex <- uuid4_hex10 ;;
      created_at <- utc_now ;;
      updated_at <- utc_now ;;
      let nba :=
        NbaRecord.mk ("nba_" +:+ hex) nba_definition_id enterprise_number
          account_id contact_id true NBA_STATUS_NEW 0 context
          created_at updated_at in
      modify (fun s => set_nbas (dict_set (_nbas s) (NbaRecord.id nba) nba) s) ;;;
      modify (fun s =>
        set_event_to_nba_id
          (dict_set (_event_to_nba_id s) event_id (NbaRecord.id nba)) s) ;;;
      ret (Some nba)
  end.

Definition update_status (nba_id status : string) : M NbaRecord.t :=
  found <- gets (fun s => dict_get (_nbas s) nba_id) ;;
  match found with
  | None => raise (KeyError nba_id)
  | Some existing =>
      now <- utc_now ;;
      let updated := NbaRecord.replace_status existing status now in
      modify (fun s => set_nbas (dict_set (_nbas s) nba_id updated) s) ;;;
      ret updated
  end.

(** One turn of the loop of [deactivate_other_active_new_for_scope]. *)
Definition deactivate_other_step (keep_nba_id nba_definition_id : string)
    (enterprise_number account_id contact_id : option string)
    (deactivated : Z) (item : string * NbaRecord.t) : M Z :=
  let '(nba_id, existing) := item in
  if bool_decide (nba_id = keep_nba_id) then ret deactivated
  else if negb (NbaRecord.active existing)
          || bool_decide (NbaRecord.status existing <> NBA_STATUS_NEW)
  then ret deactivated
  else if bool_decide (NbaRecord.nba_definition_id existing <> nba_definition_id)
  then ret deactivated
  else if bool_decide (NbaRecord.enterprise_number existing <> enterprise_number)
  then ret deactivated
  else if bool_decide (NbaRecord.account_id existing <> account_id)
  then ret deactivated
  else if bool_decide (NbaRecord.contact_id existing <> contact_id)
  then ret deactivated
  else
    now <- utc_now ;;
    modify (fun s =>
      set_nbas (dict_set (_nbas s) nba_id
                  (NbaRecord.replace_active existing false now)) s) ;;;
    ret (deactivated + 1).

Definition deactivate_other_active_new_for_scope
    (keep_nba_id nba_definition_id : string)
    (enterprise_number account_id contact_id : option string) : M Z :=
  snapshot <- gets (fun s => dict_items (_nbas s)) ;;
  for_fold snapshot 0
    (deactivate_other_step keep_nba_id nba_definition_id
       enterprise_number account_id contact_id).

(** One turn of the loop of [deactivate_nbas_by_ids]. *)
Definition deactivate_by_id_step (deactivated : Z) (nba_id : string) : M Z :=
  found <- gets (fun s => dict_get (_nbas s) nba_id) ;;
  match found with
  | None => ret deactivated
  | Some existing =>
      if negb (NbaRecord.active existing) then ret deactivated
      else
        now <- utc_now ;;
        modify (fun s =>
          set_nbas (dict_set (_nbas s) nba_id
                      (NbaRecord.replace_active existing false now)) s) ;;;
        ret (deactivated + 1)
  end.

Definition deactivate_nbas_by_ids (nba_ids : list string) : M Z :=
  for_fold (dict_keys (dict_fromkeys nba_ids)) 0 deactivate_by_id_step.

(** *** InMemoryNbaEventLogRepository *)

Definition add (event : NbaEventLogRecord.t) : M NbaEventLogRecord.t :=
  modify (fun s => set_events (_events s ++ [event]) s) ;;;
  ret event.

Definition list_for_nba (nba_id : string) : M (list NbaEventLogRecord.t) :=
  gets (fun s =>
    List.filter (fun event => bool_decide (NbaEventLogRecord.nba_id event = nba_id))
                (_events s)).

(** The test of the loop of [find_action_event]. *)
Definition is_action_event (nba_id status : string)
    (event : NbaEventLogRecord.t) : bool :=
  bool_decide (NbaEventLogRecord.nba_id event = nba_id)
  && bool_decide (NbaEventLogRecord.status event = status)
  && truthy (NbaEventLogRecord.acted_by event).

Definition find_action_event (nba_id status : string)
    : M (option NbaEventLogRecord.t) :=
  gets (fun s => List.find (is_action_event nba_id status) (_events s)).

(** *** InMemoryProcessedEventRepository *)

Definition is_processed (event_id : string) : M bool :=
  gets (fun s => bool_decide (event_id ∈ _processed s)).

Definition mark_processed (event_id : string) : M unit :=
  modify (fun s => set_processed (_processed s ∪ {[ event_id ]}) s).

(** ** application/services.py *)

(** *** AccessPolicyService: both checks are disabled *)

Definition assert_query_access (user : UserContext.t)
    (account_id enterprise_number : option string) : M unit := ret tt.

Definition assert_nba_access (user : UserContext.t)
    (account_id enterprise_number : option string) : M unit := ret tt.

(** *** NbaQueryService *)

Definition list_for_user (user : UserContext.t)
    (account_id enterprise_number status_filter : option string)
    (limit offset : Z) : M (list NbaRecord.t * Z) :=
  assert_query_access user account_id enterprise_number ;;;
  page <- list_nbas account_id enterprise_number status_filter limit offset ;;
  let '(items, total) := page in
  ret (items, total).

(** *** NbaActionService *)

Definition register_action (nba_id status_value : string)
    (action_at : option datetime.t) (comment : option string)
    (user : UserContext.t) : M NbaEventLogRecord.t :=
  if negb (bool_decide (status_value ∈ ACTION_STATUSES)) then
    raise (HTTPException HTTP_400_BAD_REQUEST
                         "status must be accepted or rejected")
  else
    found <- get_nba nba_id ;;
    match found with
    | None => raise (HTTPException HTTP_404_NOT_FOUND "nba not found")
    | Some nba =>
        assert_nba_access user (NbaRecord.account_id nba)
                          (NbaRecord.enterprise_number nba) ;;;
        if bool_decide (NbaRecord.status nba ∈ ACTION_STATUSES) then
          existing <-
            (if bool_decide (NbaRecord.status nba = status_value)
             then find_action_event nba_id status_value
             else ret None) ;;
          match existing with
          | Some event => ret event
          | None =>
              raise (HTTPException HTTP_409_CONFLICT
                                   "state transition is not allowed")
          end
        else
          final_action_at <-
            match action_at with
            | Some d => ret d
            | None =>
                now <- utc_now ;; ret (datetime.mk now (Some datetime.utc))
            end ;;
          let final_action_at :=
            match datetime.tzinfo final_action_at with
            | None => datetime.replace_tzinfo final_action_at datetime.utc
            | Some _ => final_action_at
            end in
          update_status nba_id status_value ;;;
          hex <- uuid4_hex10 ;;
          let event :=
            NbaEventLogRecord.mk ("evt_" +:+ hex) nba_id status_value
              (if truthy comment then [("comment"%string, comment)] else [])
              (Some (UserContext.username user)) final_action_at in
          add event
    end.

(** *** CalculationEventService *)

Definition duplicate_skipped : ProcessResult.t :=
  ProcessResult.mk "duplicate_skipped" "n/a".
Definition deactivated_only : ProcessResult.t :=
  ProcessResult.mk "deactivated_only" "n/a".
Definition created (nba : option NbaRecord.t) : ProcessResult.t :=
  ProcessResult.mk "created"
    (match nba with Some n => NbaRecord.id n | None => "n/a"%string end).

Definition process (payload : Payload.t) : M ProcessResult.t :=
  let event_id := Payload.event_id payload in
  seen <- is_processed event_id ;;
  if seen then ret duplicate_skipped
  else
    let account_id := Payload.account_id payload in
    let enterprise_number := Payload.enterprise_number payload in
    let create_nba := default true (Payload.create_nba payload) in
    let deactivate_nba_ids := default [] (Payload.deactivate_nba_ids payload) in
    let '(account_id, enterprise_number) :=
      match reference_data env with
      | Some enrich_target_identifiers =>
          enrich_target_identifiers account_id enterprise_number
      | None => (account_id, enterprise_number)
      end in
    (match deactivate_nba_ids with
     | [] => ret tt
     | _ :: _ => deactivate_nbas_by_ids deactivate_nba_ids ;;; ret tt
     end) ;;;
    if negb create_nba then
      mark_processed event_id ;;;
      ret deactivated_only
    else
      nba <- upsert_from_calculation_event event_id
               (Payload.nba_definition_id payload)
               enterprise_number account_id (Payload.contact_id payload)
               (default [] (Payload.context payload)) ;;
      (match nba with
       | Some n =>
           deactivate_other_active_new_for_scope (NbaRecord.id n)
             (NbaRecord.nba_definition_id n) (NbaRecord.enterprise_number n)
             (NbaRecord.account_id n) (NbaRecord.contact_id n) ;;;
           hex <- uuid4_hex10 ;;
           action_at <- utc_now ;;
           add (NbaEventLogRecord.mk ("evt_" +:+ hex) (NbaRecord.id n)
                  NBA_STATUS_NEW
                  [("source"%string, Payload.source payload);
                   ("occurred_at"%string, Payload.occurred_at payload)]
                  None (datetime.mk action_at (Some datetime.utc))) ;;;
           ret tt
       | None => ret tt
       end) ;;;
      mark_processed event_id ;;;
      ret (created nba).

(** The queue worker: events are processed one at a time, in order. *)
Fixpoint process_all (payloads : list Payload.t) (s : State) : State :=
  match payloads with
  | [] => s
  | p :: rest => process_all rest (snd (process p s))
  end.
End Engine.


(** ** Notions the properties are stated with *)

(** The scope tuple (nba_definition_id, enterprise_number, account_id,
    contact_id); [None] equals only [None]. *)
Definition scope : Type :=
  (string * option string * option string * option string)%type.

Definition scope_of (r : NbaRecord.t) : scope :=
  (NbaRecord.nba_definition_id r, NbaRecord.enterprise_number r,
   NbaRecord.account_id r, NbaRecord.contact_id r).

Definition active_new (r : NbaRecord.t) : bool :=
  NbaRecord.active r && bool_decide (NbaRecord.status r = NBA_STATUS_NEW).

Definition active_new_in (sc : scope) (r : NbaRecord.t) : bool :=
  active_new r && bool_decide (scope_of r = sc).

(** The records of the store that are active, new and in scope [sc]. *)
Definition active_new_records (sc : scope) (s : State) : list NbaRecord.t :=
  List.filter (active_new_in sc) (dict_values (_nbas s)).

(** [r'] is [r], or [r] switched off by [replace(r, active=False, ...)]. *)
Definition deactivated_from (r r' : NbaRecord.t) : Prop :=
  r' = r \/
  (NbaRecord.active r = true /\
   exists now, r' = NbaRecord.replace_active r false now).

(** Two dictionaries with the same keys in the same order whose values are
    related key by key. *)
Definition dict_rel {V} (Q : string -> V -> V -> Prop) (d d' : dict V) : Prop :=
  Forall2 (fun x y => fst x = fst y /\ Q (fst x) (snd x) (snd y)) d d'.

(** A step that creates no record, logs nothing and marks nothing: all it
    may do is switch records off. *)
Definition only_deactivates (s s' : State) : Prop :=
  dict_rel (fun _ => deactivated_from) (_nbas s) (_nbas s')
  /\ _event_to_nba_id s' = _event_to_nba_id s
  /\ _events s' = _events s
  /\ _processed s' = _processed s
  /\ uuid_draws s' = uuid_draws s.

(** The ids of a list, each kept at its first occurrence. *)
Fixpoint first_occurrences (l : list string) : list string :=
  match l with
  | [] => []
  | x :: l' =>
      x :: List.filter (fun y => negb (bool_decide (y = x))) (first_occurrences l')
  end.

(** What the repositories built by the services always satisfy: record ids
    are the keys they are stored under, a key occurs once, an event that
    has a record was marked processed, and a scope has at most one active
    new record. *)
Record consistent (s : State) : Prop := {
  keys_unique : NoDup (dict_keys (_nbas s));
  keys_are_ids : Forall (fun kv => NbaRecord.id (snd kv) = fst kv) (_nbas s);
  created_are_processed :
    forall e k, dict_get (_event_to_nba_id s) e = Some k -> e ∈ _processed s;
  scope_exclusive :
    forall sc, (length (active_new_records sc s) <= 1)%nat
}.

(** What happened to the record stored under [k] when a deactivate-only
    event listing [ids] was handled. *)
Definition deactivated_by_ids (ids : list string) (s s' : State) (k : string)
    : Prop :=
  match dict_get (_nbas s) k with
  | None => dict_get (_nbas s') k = None
  | Some r =>
      if bool_decide (k ∈ ids) && NbaRecord.active r
      then exists now,
             dict_get (_nbas s') k = Some (NbaRecord.replace_active r false now)
      else dict_get (_nbas s') k = Some r
  end.

(** Every call the API and the worker can make on the repositories and the
    services. *)
Inductive Call : Type :=
| CallListNbas (account_id enterprise_number status : option string)
               (limit offset : Z)
| CallGetNba (nba_id : string)
| CallUpsert (event_id nba_definition_id : string)
             (enterprise_number account_id contact_id : option string)
             (context : Context)
| CallUpdateStatus (nba_id status : string)
| CallDeactivateOther (keep_nba_id nba_definition_id : string)
                      (enterprise_number account_id contact_id : option string)
| CallDeactivateByIds (nba_ids : list string)
| CallAdd (event : NbaEventLogRecord.t)
| CallListForNba (nba_id : string)
| CallFindActionEvent (nba_id status : string)
| CallIsProcessed (event_id : string)
| CallMarkProcessed (event_id : string)
| CallListForUser (user : UserContext.t)
                  (account_id enterprise_number status_filter : option string)
                  (limit offset : Z)
| CallRegisterAction (nba_id status_value : string)
                     (action_at : option datetime.t) (comment : option string)
                     (user : UserContext.t)
| CallProcess (payload : Payload.t).

(** The state a call leaves, whether it returns or raises. *)
Definition run_call (env : Env) (c : Call) (s : State) : State :=
  match c with
  | CallListNbas a e st l o => snd (list_nbas a e st l o s)
  | CallGetNba k => snd (get_nba k s)
  | CallUpsert ev d e a c ctx =>
      snd (upsert_from_calculation_event env ev d e a c ctx s)
  | CallUpdateStatus k st => snd (update_status env k st s)
  | CallDeactivateOther k d e a c =>
      snd (deactivate_other_active_new_for_scope env k d e a c s)
  | CallDeactivateByIds ids => snd (deactivate_nbas_by_ids env ids s)
  | CallAdd ev => snd (add ev s)
  | CallListForNba k => snd (list_for_nba k s)
  | CallFindActionEvent k st => snd (find_action_event k st s)
  | CallIsProcessed ev => snd (is_processed ev s)
  | CallMarkProcessed ev => snd (mark_processed ev s)
  | CallListForUser u a e st l o => snd (list_for_user u a e st l o s)
  | CallRegisterAction k st at_ c u => snd (register_action env k st at_ c u s)
  | CallProcess p => snd (process env p s)
  end.

Definition run_calls (env : Env) (cs : list Call) (s : State) : State :=
  fold_left (fun s c => run_call env c s) cs s.

(** A record passes the filters of a listing: it is active and equals every
    filter that was supplied. *)
Definition matches_filters (account_id enterprise_number status : option string)
    (r : NbaRecord.t) : Prop :=
  NbaRecord.active r = true
  /\ (forall a, account_id = Some a -> NbaRecord.account_id r = Some a)
  /\ (forall e, enterprise_number = Some e ->
                NbaRecord.enterprise_number r = Some e)
  /\ (forall st, status = Some st -> NbaRecord.status r = st).

(** Newest first. *)
Definition newer_or_equal (a b : NbaRecord.t) : Prop :=
  NbaRecord.created_at b <= NbaRecord.created_at a.

(** The errors of the specification's taxonomy, as the action service
    raises them. *)
Definition ValidationError : exn :=
  HTTPException HTTP_400_BAD_REQUEST "status must be accepted or rejected".
Definition NotFoundError : exn :=
  HTTPException HTTP_404_NOT_FOUND "nba not found".
Definition ConflictError : exn :=
  HTTPException HTTP_409_CONFLICT "state transition is not allowed".

(** The timestamp a first action is logged with: the clock when none was
    supplied, the supplied one otherwise, given [tzinfo] UTC if it had
    none. *)
Definition logged_action_at (env : Env) (action_at : option datetime.t)
    (s : State) : datetime.t :=
  match action_at with
  | None => datetime.mk (clock env (clock_reads s)) (Some datetime.utc)
  | Some d =>
      match datetime.tzinfo d with
      | None => datetime.mk (datetime.wall d) (Some datetime.utc)
      | Some _ => d
      end
  end.

(** The log entry a first action appends. *)
Definition logged_action (env : Env) (nba_id status_value : string)
    (action_at : option datetime.t) (comment : option string)
    (user : UserContext.t) (s : State) : NbaEventLogRecord.t :=
  NbaEventLogRecord.mk
    ("evt_" +:+ String.substring 0 10 (uuid4_hex env (uuid_draws s)))
    nba_id status_value
    (if truthy comment then [("comment"%string, comment)] else [])
    (Some (UserContext.username user))
    (logged_action_at env action_at s).

(** ** Reasoning about computations *)

(** [m] never raises. *)
Definition returns {A} (m : M A) : Prop :=
  forall s, exists a, fst (m s) = Return a.

(** Whatever [m] does, returning or raising, the state it leaves is
    related to the one it started in. *)
Definition preserves {A} (R : State -> State -> Prop) (m : M A) : Prop :=
  forall s, R s (snd (m s)).

(** The ledger only grows. *)
Definition ledger_grows (s s' : State) : Prop := _processed s ⊆ _processed s'.

(** ** The phases of [process] on an event that is not a duplicate *)

(** The target identifiers after enrichment: (account_id, enterprise_number). *)
Definition enriched (env : Env) (p : Payload.t) : option string * option string :=
  match reference_data env with
  | Some enrich_target_identifiers =>
      enrich_target_identifiers (Payload.account_id p) (Payload.enterprise_number p)
  | None => (Payload.account_id p, Payload.enterprise_number p)
  end.

(** The scope an event asks a record for. *)
Definition scope_of_event (env : Env) (p : Payload.t) : scope :=
  (Payload.nba_definition_id p, snd (enriched env p), fst (enriched env p),
   Payload.contact_id p).

(** After the ids the event lists were deactivated. *)
Definition after_deactivation (env : Env) (p : Payload.t) (s : State) : State :=
  match default [] (Payload.deactivate_nba_ids p) with
  | [] => s
  | ids => snd (deactivate_nbas_by_ids env ids s)
  end.

(** The record [upsert_from_calculation_event] builds for a new event. *)
Definition new_nba (env : Env) (p : Payload.t) (s : State) : NbaRecord.t :=
  NbaRecord.mk
    ("nba_" +:+ String.substring 0 10 (uuid4_hex env (uuid_draws s)))
    (Payload.nba_definition_id p) (snd (enriched env p)) (fst (enriched env p))
    (Payload.contact_id p) true NBA_STATUS_NEW 0
    (default [] (Payload.context p))
    (clock env (clock_reads s)) (clock env (S (clock_reads s))).

(** After that record was stored and tied to the event. *)
Definition after_insert (env : Env) (p : Payload.t) (s : State) : State :=
  mkState
    (dict_set (_nbas s) (NbaRecord.id (new_nba env p s)) (new_nba env p s))
    (dict_set (_event_to_nba_id s) (Payload.event_id p)
              (NbaRecord.id (new_nba env p s)))
    (_events s) (_processed s) (S (S (clock_reads s))) (S (uuid_draws s)).

(** After the other active new records of the scope of [n] were switched
    off. *)
Definition after_supersession (env : Env) (n : NbaRecord.t) (s : State) : State :=
  snd (deactivate_other_active_new_for_scope env (NbaRecord.id n)
         (NbaRecord.nba_definition_id n) (NbaRecord.enterprise_number n)
         (NbaRecord.account_id n) (NbaRecord.contact_id n) s).

(** The system-generated log entry of a creation. *)
Definition creation_entry (env : Env) (p : Payload.t) (n : NbaRecord.t)
    (s : State) : NbaEventLogRecord.t :=
  NbaEventLogRecord.mk
    ("evt_" +:+ String.substring 0 10 (uuid4_hex env (uuid_draws s)))
    (NbaRecord.id n) NBA_STATUS_NEW
    [("source"%string, Payload.source p);
     ("occurred_at"%string, Payload.occurred_at p)]
    None (datetime.mk (clock env (clock_reads s)) (Some datetime.utc)).

(** After that entry was appended and the event marked processed. *)
Definition after_log_and_mark (env : Env) (p : Payload.t) (n : NbaRecord.t)
    (s : State) : State :=
  mkState (_nbas s) (_event_to_nba_id s)
    (_events s ++ [creation_entry env p n s])
    (_processed s ∪ {[ Payload.event_id p ]})
    (S (clock_reads s)) (S (uuid_draws s)).

(** [process] as the composition of its phases. *)
Definition process_phases (env : Env) (p : Payload.t) (s : State)
    : outcome ProcessResult.t * State :=
  if bool_decide (Payload.event_id p ∈ _processed s) then
    (Return duplicate_skipped, s)
  else
    let sa := after_deactivation env p s in
    if negb (default true (Payload.create_nba p)) then
      (Return deactivated_only,
       set_processed (_processed sa ∪ {[ Payload.event_id p ]}) sa)
    else
      let '(nba, sb) :=
        match dict_get (_event_to_nba_id sa) (Payload.event_id p) with
        | Some k => (dict_get (_nbas sa) k, sa)
        | None => (Some (new_nba env p sa), after_insert env p sa)
        end in
      match nba with
      | Some n =>
          (Return (created (Some n)),
           after_log_and_mark env p n (after_supersession env n sb))
      | None =>
          (Return (created None),
           set_processed (_processed sb ∪ {[ Payload.event_id p ]}) sb)
      end.

(** ** States the services build *)

(** The calls the API routes and the queue worker make: they go through
    the services, never to a repository directly. *)
Definition is_service_call (c : Call) : Prop :=
  match c with
  | CallProcess _ | CallRegisterAction _ _ _ _ _
  | CallListForUser _ _ _ _ _ _ => True
  | _ => False
  end.

(** The first [n] uuids differ in their first ten hexadecimal digits: no
    generated id has collided so far. *)
Definition fresh_until (env : Env) (n : nat) : Prop :=
  forall i j, (i < n)%nat -> (j < n)%nat ->
    String.substring 0 10 (uuid4_hex env i)
    = String.substring 0 10 (uuid4_hex env j) -> i = j.

(** Uuids are only ever drawn. *)
Definition draws_grow (s s' : State) : Prop :=
  (uuid_draws s <= uuid_draws s')%nat.

(** Every key of the store was made from a uuid drawn earlier. *)
Definition ids_were_drawn (env : Env) (s : State) : Prop :=
  Forall (fun k => exists i, (i < uuid_draws s)%nat
                    /\ k = "nba_" +:+ String.substring 0 10 (uuid4_hex env i))
         (dict_keys (_nbas s)).

(** Every logged action of a user is for a record that is there and has
    the status the action gave it. *)
Definition actions_match_status (s : State) : Prop :=
  forall ev, ev ∈ _events s ->
    truthy (NbaEventLogRecord.acted_by ev) = true ->
    exists r, dict_get (_nbas s) (NbaEventLogRecord.nba_id ev) = Some r
              /\ NbaRecord.status r = NbaEventLogRecord.status ev
              /\ NbaEventLogRecord.status ev ∈ ACTION_STATUSES.

(** ** What no call undoes *)

(** The log is only appended to. *)
Definition log_grows (s s' : State) : Prop := _events s `prefix_of` _events s'.

(** Records are never removed, and keep their place. *)
Definition keys_grow (s s' : State) : Prop :=
  dict_keys (_nbas s) `prefix_of` dict_keys (_nbas s').

(** An event that is tied to a record stays tied to that record. *)
Definition ties_stay (s s' : State) : Prop :=
  forall e k, dict_get (_event_to_nba_id s) e = Some k ->
              dict_get (_event_to_nba_id s') e = Some k.

(** A step that touches nothing but the records and the clock. *)
Definition only_records_change (s s' : State) : Prop :=
  _event_to_nba_id s' = _event_to_nba_id s
  /\ _events s' = _events s
  /\ _processed s' = _processed s
  /\ uuid_draws s' = uuid_draws s.

(** Every record has one of the three statuses. *)
Definition statuses_known (s : State) : Prop :=
  Forall (fun kv => NbaRecord.status (snd kv) ∈ NBA_STATUSES) (_nbas s).

(** How a record may differ from an earlier version of itself: it is the
    same recommendation, it was not switched back on, and its status is the
    same or went from new to accepted or rejected. *)
Definition lifecycle_step (r r' : NbaRecord.t) : Prop :=
  NbaRecord.id r' = NbaRecord.id r
  /\ scope_of r' = scope_of r
  /\ NbaRecord.priority r' = NbaRecord.priority r
  /\ NbaRecord.context r' = NbaRecord.context r
  /\ NbaRecord.created_at r' = NbaRecord.created_at r
  /\ (NbaRecord.active r' = true -> NbaRecord.active r = true)
  /\ (NbaRecord.status r' = NbaRecord.status r
      \/ (NbaRecord.status r = NBA_STATUS_NEW
          /\ NbaRecord.status r' ∈ ACTION_STATUSES)).

(** What the services keep true of the stores as long as no generated id
    collides. *)
Definition services_invariants (env : Env) (s : State) : Prop :=
  consistent s /\ ids_were_drawn env s /\ actions_match_status s
  /\ statuses_known s.

(** Every record of [s] is still there in [s'], one or more lifecycle steps
    later. *)
Definition records_move_forward (s s' : State) : Prop :=
  forall k r, dict_get (_nbas s) k = Some r ->
    exists r', dict_get (_nbas s') k = Some r' /\ lifecycle_step r r'.

(** The record under id [k] is there and active. *)
Definition is_active_in (s : State) (k : string) : bool :=
  match dict_get (_nbas s) k with
  | Some r => NbaRecord.active r
  | None => false
  end.

(** An entry of the store that [deactivate_other_active_new_for_scope]
    switches off: not the kept id, active, new and in the scope. *)
Definition is_superseded (keep_nba_id : string) (sc : scope)
    (item : string * NbaRecord.t) : bool :=
  negb (bool_decide (fst item = keep_nba_id)) && active_new_in sc (snd item).

(** The whole listing a page of [list_nbas] is cut from. *)
Definition listing (account_id enterprise_number status : option string)
    (s : State) : list NbaRecord.t :=
  sort_desc NbaRecord.created_at
    (List.filter (list_nbas_keep account_id enterprise_number status)
                 (dict_values (_nbas s))).

(** * The HTTP layer *)

(** ** application/schemas.py: the request and response models

    Building a pydantic model validates it; [validated] is [None] where
    pydantic raises its ValidationError. *)

Module NbaItemResponse.
Record t : Type := mk {
  id : string;
  nba_definition_id : string;
  enterprise_number : option string;
  account_id : option string;
  contact_id : option string;
  active : bool;
  status : string;
  priority : Z;
  context : Context
}.
(** [status: Literal["new", "accepted", "rejected"]] *)
Definition status_literal : list string := ["new"; "accepted"; "rejected"]%string.
Definition validated (r : t) : option t :=
  if bool_decide (status r ∈ status_literal) then Some r else None.
End NbaItemResponse.

Module NbaListResponse.
Record t : Type := mk {
  items : list NbaItemResponse.t;
  total : Z;
  limit : Z;
  offset : Z
}.
(** [total >= 0], [1 <= limit <= 200], [offset >= 0] *)
Definition validated (r : t) : option t :=
  if (0 <=? total r) && (1 <=? limit r) && (limit r <=? 200) && (0 <=? offset r)
  then Some r else None.
End NbaListResponse.

Module NbaActionRequest.
Record t : Type := mk {
  status : string;
  action_at : option datetime.t;
  comment : option string
}.
End NbaActionRequest.

Module NbaActionResponse.
Record t : Type := mk {
  event_id : string;
  nba_id : string;
  status : string;
  acted_by : string;
  action_at : datetime.t
}.
(** [status: Literal["accepted", "rejected"]] *)
Definition status_literal : list string := ["accepted"; "rejected"]%string.
Definition validated (r : t) : option t :=
  if bool_decide (status r ∈ status_literal) then Some r else None.
End NbaActionResponse.

(** The JSON answer to an error: a status code and an [ErrorResponse]. *)
Module JSONResponse.
Record t : Type := mk {
  status_code : Z;
  code : string;
  message : string
}.
End JSONResponse.

(** ** api/dependencies.py *)

Definition DEFAULT_USER : string := "system".

Definition get_user_context : UserContext.t :=
  UserContext.mk DEFAULT_USER ∅ ∅.

(** ** main.py: the handler of [HTTPException] *)

Definition code_map : list (Z * string) :=
  [ (400, "bad_request"); (401, "unauthorized"); (403, "forbidden");
    (404, "not_found"); (409, "conflict") ]%string.

(** [code_map.get(status_code, "error")] *)
Definition code_map_get (status_code : Z) : string :=
  match List.find (fun kv => fst kv =? status_code) code_map with
  | Some kv => snd kv
  | None => "error"%string
  end.

Definition http_exception_handler (status_code : Z) (detail : string)
    : JSONResponse.t :=
  JSONResponse.mk status_code (code_map_get status_code) detail.

(** ** api/routes.py *)

(** What ends a route other than its response: an exception of the
    services, or pydantic's ValidationError on the response model. *)
Inductive route_exn : Type :=
| ServiceError (e : exn)
| ResponseValidationError.

(** [a or b] on a [str | None] and a [str]. *)
Definition or_else (a : option string) (b : string) : string :=
  match a with
  | Some a' => if String.eqb a' EmptyString then b else a'
  | None => b
  end.

(** [status_filter not in NBA_STATUSES] *)
Definition not_in_statuses (status_filter : option string) : bool :=
  match status_filter with
  | Some st => negb (bool_decide (st ∈ NBA_STATUSES))
  | None => true
  end.

(** The item of the response built from a record. *)
Definition item_response (item : NbaRecord.t) : NbaItemResponse.t :=
  NbaItemResponse.mk (NbaRecord.id item) (NbaRecord.nba_definition_id item)
    (NbaRecord.enterprise_number item) (NbaRecord.account_id item)
    (NbaRecord.contact_id item) (NbaRecord.active item)
    (NbaRecord.status item) (NbaRecord.priority item) (NbaRecord.context item).

Module routes.

(** GET /api/v1/nba.  FastAPI has checked [1 <= limit <= 200] and
    [0 <= offset] before the body runs. *)
Definition list_nbas (account_id enterprise_number status_filter : option string)
    (limit offset : Z) (user : UserContext.t) (s : State)
    : (NbaListResponse.t + route_exn) * State :=
  if truthy status_filter && not_in_statuses status_filter then
    (inr (ServiceError (HTTPException HTTP_400_BAD_REQUEST
                                      "invalid status filter")), s)
  else
    match list_for_user user account_id enterprise_number status_filter
                        limit offset s with
    | (Raise e, s') => (inr (ServiceError e), s')
    | (Return (items, total), s') =>
        match mapM (fun item => NbaItemResponse.validated (item_response item))
                   items with
        | None => (inr ResponseValidationError, s')
        | Some items' =>
            match NbaListResponse.validated
                    (NbaListResponse.mk items' total limit offset) with
            | None => (inr ResponseValidationError, s')
            | Some response => (inl response, s')
            end
        end
    end.

(** POST /api/v1/nba/{nba_id}/actions *)
Definition submit_action (env : Env) (nba_id : string)
    (payload : NbaActionRequest.t) (user : UserContext.t) (s : State)
    : (NbaActionResponse.t + route_exn) * State :=
  match register_action env nba_id (NbaActionRequest.status payload)
          (NbaActionRequest.action_at payload)
          (NbaActionRequest.comment payload) user s with
  | (Raise e, s') => (inr (ServiceError e), s')
  | (Return event, s') =>
      match NbaActionResponse.validated
              (NbaActionResponse.mk
                 (NbaEventLogRecord.id event)
                 (NbaEventLogRecord.nba_id event)
                 (NbaEventLogRecord.status event)
                 (or_else (NbaEventLogRecord.acted_by event)
                          (UserContext.username user))
                 (NbaEventLogRecord.action_at event)) with
      | None => (inr ResponseValidationError, s')
      | Some response => (inl response, s')
      end
  end.

End routes.

(** What the client of a route receives: the response, the handler's JSON
    for an [HTTPException], or a bare 500 for anything else. *)
Inductive http_answer (A : Type) : Type :=
| Answer (a : A)
| ErrorAnswer (r : JSONResponse.t)
| InternalServerError.
Arguments Answer {A} a.
Arguments ErrorAnswer {A} r.
Arguments InternalServerError {A}.

Definition answer {A} (result : A + route_exn) : http_answer A :=
  match result with
  | inl a => Answer a
  | inr (ServiceError (HTTPException status_code detail)) =>
      ErrorAnswer (http_exception_handler status_code detail)
  | inr (ServiceError (KeyError _)) => InternalServerError
  | inr ResponseValidationError => InternalServerError
  end.

(** ** application/schemas.py: the calculation event request *)

Module CalculationEventRequest.
Record t : Type := mk {
  event_id : string;
  occurred_at : datetime.t;
  source : string;
  nba_definition_id : string;
  enterprise_number : option string;
  account_id : option string;
  contact_id : option string;
  create_nba : bool;
  deactivate_nba_ids : list string;
  context : Context
}.

(** [self.occurred_at = value] *)
Definition set_occurred_at (r : t) (value : datetime.t) : t :=
  mk (event_id r) value (source r) (nba_definition_id r) (enterprise_number r)
     (account_id r) (contact_id r) (create_nba r) (deactivate_nba_ids r)
     (context r).

(** The validator that runs after the fields were parsed; [None] where it
    raises [ValueError]. *)
Definition validate_targets (r : t) : option t :=
  if negb (truthy (enterprise_number r) || truthy (account_id r)
           || truthy (contact_id r))
  then None
  else
    match datetime.tzinfo (occurred_at r) with
    | None =>
        Some (set_occurred_at r
                (datetime.replace_tzinfo (occurred_at r) datetime.utc))
    | Some _ => Some r
    end.
End CalculationEventRequest.

(** * nba_calculator/utils.py *)

(** What a GET of the list endpoint gives for the query parameters
    account_id, enterprise_number, status, limit and offset: the [items]
    and the [total] of the JSON body, or [None] where [urlopen] raises. *)
Definition list_endpoint : Type :=
  option string -> option string -> string -> Z -> Z ->
  option (list NbaItemResponse.t * Z).

(** How [fetch_active_nbas_for_definition] ends: with its list, with the
    error of [urlopen], or still asking for pages when the fuel is spent. *)
Inductive fetched : Type :=
| Fetched (matched_items : list NbaItemResponse.t)
| URLError
| OutOfFuel.

(** The test of the comprehension that extends [matched_items]. *)
Definition is_wanted (nba_definition_id : string) (item : NbaItemResponse.t)
    : bool :=
  bool_decide (NbaItemResponse.status item = "new"%string)
  && bool_decide (NbaItemResponse.nba_definition_id item = nba_definition_id).

(** A parameter that is put in the query only when it is truthy. *)
Definition if_truthy (o : option string) : option string :=
  if truthy o then o else None.

(** The [while True] loop, one page per turn. *)
Fixpoint fetch_pages (get : list_endpoint) (nba_definition_id : string)
    (account_id enterprise_number : option string) (page_limit : Z)
    (fuel : nat) (offset : Z) (matched_items : list NbaItemResponse.t)
    : fetched :=
  match fuel with
  | O => OutOfFuel
  | S fuel' =>
      match get (if_truthy account_id) (if_truthy enterprise_number)
                "new"%string page_limit offset with
      | None => URLError
      | Some (items, total) =>
          let matched_items :=
            matched_items ++ List.filter (is_wanted nba_definition_id) items in
          let offset := offset + Z.of_nat (length items) in
          if (total <=? offset) || bool_decide (items = []) then
            Fetched matched_items
          else
            fetch_pages get nba_definition_id account_id enterprise_number
                        page_limit fuel' offset matched_items
      end
  end.

Definition fetch_active_nbas_for_definition (get : list_endpoint)
    (nba_definition_id : string) (account_id enterprise_number : option string)
    (limit : Z) (fuel : nat) : fetched :=
  let page_limit := Z.max 1 (Z.min limit 200) in
  fetch_pages get nba_definition_id account_id enterprise_number page_limit
              fuel 0 [].

(** The list endpoint of a backend whose stores are [s].  FastAPI answers
    422 to a limit outside 1..200 or a negative offset, and every error
    status makes [urlopen] raise. *)
Definition backend (s : State) : list_endpoint :=
  fun account_id enterprise_number status limit offset =>
    if (1 <=? limit) && (limit <=? 200) && (0 <=? offset) then
      match fst (routes.list_nbas account_id enterprise_number (Some status)
                   limit offset get_user_context s) with
      | inl response =>
          Some (NbaListResponse.items response, NbaListResponse.total response)
      | inr _ => None
      end
    else None.

(** The log entries of a record, oldest first: what [list_for_nba] returns. *)
Definition log_of (s : State) (nba_id : string) : list NbaEventLogRecord.t :=
  List.filter (fun event => bool_decide (NbaEventLogRecord.nba_id event = nba_id))
              (_events s).

(** The trail of a record of status [st]: the entry of its creation,
    followed, when the status is accepted or rejected, by the one action
    that gave it that status. *)
Definition trail_matches (st : string) (trail : list NbaEventLogRecord.t)
    : Prop :=
  exists creation,
    NbaEventLogRecord.status creation = NBA_STATUS_NEW
    /\ NbaEventLogRecord.acted_by creation = None
    /\ ((st = NBA_STATUS_NEW /\ trail = [creation])
        \/ (exists action who,
              st ∈ ACTION_STATUSES
              /\ trail = [creation; action]
              /\ NbaEventLogRecord.status action = st
              /\ NbaEventLogRecord.acted_by action = Some who)).

(** Every record has its trail, and every log entry its record. *)
Definition audited (s : State) : Prop :=
  (forall k r, dict_get (_nbas s) k = Some r ->
     trail_matches (NbaRecord.status r) (log_of s k))
  /\ (forall event, event ∈ _events s ->
        NbaEventLogRecord.nba_id event ∈ dict_keys (_nbas s)).

(** Everything the list route has for a query of the pager, as items. *)
Definition listed_items (account_id enterprise_number : option string)
    (s : State) : list NbaItemResponse.t :=
  map item_response
    (listing (if_truthy account_id) (if_truthy enterprise_number)
             (Some "new"%string) s).

(** ** Sample data

    A world, some payloads and the states they lead to, used to run the
    engine on concrete inputs. *)

Definition sample_env : Env := {|
  clock := fun n => 1700000000000000 + Z.of_nat n * 1000;
  uuid4_hex := fun n =>
    match n with
    | O => "0a1b2c3d4e5f60718293a4b5c6d7e8f9"
    | 1%nat => "1b2c3d4e5f60718293a4b5c6d7e8f90a"
    | 2%nat => "2c3d4e5f60718293a4b5c6d7e8f90a1b"
    | 3%nat => "3d4e5f60718293a4b5c6d7e8f90a1b2c"
    | 4%nat => "4e5f60718293a4b5c6d7e8f90a1b2c3d"
    | _ => "5f60718293a4b5c6d7e8f90a1b2c3d4e"
    end%string;
  reference_data := None
|}.

Definition sample_user : UserContext.t := UserContext.mk "system" ∅ ∅.

(** An event asking for an NBA of definition "upsell" for enterprise
    "BE0123". *)
Definition sample_event_1 : Payload.t :=
  Payload.mk "11111111-1111-4111-8111-111111111111" (Some "2024-01-01T00:00:00Z")
    (Some "calc") "upsell" (Some "BE0123") None None (Some true) None None.

(** A second event for the same scope. *)
Definition sample_event_2 : Payload.t :=
  Payload.mk "22222222-2222-4222-8222-222222222222" (Some "2024-01-02T00:00:00Z")
    (Some "calc") "upsell" (Some "BE0123") None None (Some true) None None.

(** The store after the first event: one active new NBA, "nba_0a1b2c3d4e". *)
Definition sample_state_1 : State :=
  snd (process sample_env sample_event_1 initial_state).

(** The record the first event created. *)
Definition sample_nba_1 : NbaRecord.t :=
  NbaRecord.mk "nba_0a1b2c3d4e" "upsell" (Some "BE0123") None None true "new" 0
    [] 1700000000000000 1700000000001000.

(** A user whose name is the empty string. *)
Definition nameless_user : UserContext.t := UserContext.mk "" ∅ ∅.

(** A store whose log already holds an accepted action by "bob" for the
    record of [sample_state_1], although that record's status is still
    new. *)
Definition sample_state_stale : State :=
  set_events
    (_events sample_state_1
     ++ [NbaEventLogRecord.mk "evt_feedfacade" "nba_0a1b2c3d4e" "accepted" []
           (Some "bob") (datetime.mk 1600000000000000 (Some datetime.utc))])
    sample_state_1.

(** An aware timestamp two hours east of UTC. *)
Definition sample_local_time : datetime.t :=
  datetime.mk 1700000007200000 (Some 120).

(** The store after [update_status] was called on that record directly:
    its status is accepted but the log has no action for it. *)
Definition sample_state_out_of_band : State :=
  snd (update_status sample_env "nba_0a1b2c3d4e" "accepted" sample_state_1).

(** The log entry of accepting in [sample_state_1] without timestamp or
    comment. *)
Definition sample_accept_entry : NbaEventLogRecord.t :=
  NbaEventLogRecord.mk "evt_2c3d4e5f60" "nba_0a1b2c3d4e" "accepted" []
    (Some "system") (datetime.mk 1700000000003000 (Some datetime.utc)).

(** A deactivate-only event listing the record of [sample_state_1] twice
    and an id the store does not hold. *)
Definition sample_deactivate_event : Payload.t :=
  Payload.mk "33333333-3333-4333-8333-333333333333" (Some "2024-01-03T00:00:00Z")
    (Some "calc") "upsell" (Some "BE0123") None None (Some false)
    (Some ["nba_0a1b2c3d4e"; "nba_ffffffffff"; "nba_0a1b2c3d4e"]%string) None.

(** The store after that event. *)
Definition sample_state_deactivated : State :=
  snd (process sample_env sample_deactivate_event sample_state_1).

(** A deactivate-only payload that bears the id of [sample_event_1], which
    [sample_state_1] has processed, and lists the record that event
    created. *)
Definition sample_reused_id_event : Payload.t :=
  Payload.mk "11111111-1111-4111-8111-111111111111" (Some "2024-01-04T00:00:00Z")
    (Some "calc") "upsell" (Some "BE0123") None None (Some false)
    (Some ["nba_0a1b2c3d4e"]%string) None.

(** Some calls, on repositories and services alike. *)
Definition sample_calls : list Call :=
  [ CallProcess sample_event_2;
    CallUpsert "11111111-1111-4111-8111-111111111111" "cross-sell" None
               (Some "ACC-7") None [];
    CallRegisterAction "nba_0a1b2c3d4e" "accepted" None None sample_user;
    CallUpdateStatus "nba_0a1b2c3d4e" "new";
    CallProcess sample_event_1 ]%string.

(** Calls that go through the services only. *)
Definition sample_service_calls : list Call :=
  [ CallProcess sample_event_1;
    CallRegisterAction "nba_0a1b2c3d4e" "accepted" None (Some "ok") sample_user;
    CallProcess sample_event_2;
    CallListForUser sample_user None (Some "BE0123") None 50 0;
    CallProcess sample_deactivate_event ]%string.

(** The first two of the sample service calls, and the rest. *)
Definition sample_calls_before : list Call := take 2 sample_service_calls.
Definition sample_calls_after : list Call := drop 2 sample_service_calls.

(** The first sample record once it was accepted. *)
Definition sample_accepted_nba : NbaRecord.t :=
  default sample_nba_1
    (dict_get (_nbas (run_calls sample_env sample_calls_before initial_state))
              "nba_0a1b2c3d4e").

(** The stores after the sample service calls. *)
Definition sample_state_served : State :=
  run_calls sample_env sample_service_calls initial_state.

(** The second sample event sent again with another definition, and the
    first sent again as it was. *)
Definition sample_resent_events : list Payload.t :=
  [ Payload.mk "22222222-2222-4222-8222-222222222222"
      (Some "2024-01-03T00:00:00Z") (Some "calc") "cross-sell" (Some "BE0123")
      None None (Some true) None None;
    sample_event_1 ]%string.

(** * Properties *)

(** ** Dictionaries *)

Section DictFacts.
Context {V : Type}.
Implicit Types (d : dict V) (k : string) (v : V).

Lemma dict_get_set_eq d k v : dict_get (dict_set d k v) k = Some v.
Proof.
  induction d as [|[k' v'] d IH]; simpl.
  - by rewrite decide_True.
  - destruct (decide (k' = k)); simpl.
    + by rewrite decide_True.
    + by rewrite decide_False.
Qed.

Lemma dict_get_set_ne d k k' v :
  k <> k' -> dict_get (dict_set d k v) k' = dict_get d k'.
Proof.
  intros Hne. induction d as [|[k0 v0] d IH]; simpl.
  - by rewrite decide_False.
  - destruct (decide (k0 = k)) as [->|]; simpl.
    + by rewrite !decide_False.
    + destruct (decide (k0 = k')); auto.
Qed.

Lemma dict_get_elem_of d k v : dict_get d k = Some v -> (k, v) ∈ d.
Proof.
  induction d as [|[k' v'] d IH]; simpl; [done|].
  destruct (decide (k' = k)) as [->|]; intros H.
  - injection H as ->. left.
  - right. auto.
Qed.

Lemma dict_get_None d k : dict_get d k = None <-> k ∉ dict_keys d.
Proof.
  induction d as [|[k' v'] d IH]; simpl.
  - split; [intros _; apply not_elem_of_nil | done].
  - rewrite not_elem_of_cons.
    destruct (decide (k' = k)) as [->|]; split; intros H.
    + discriminate.
    + tauto.
    + split; [done|]. tauto.
    + tauto.
Qed.

Lemma dict_get_is_Some d k : is_Some (dict_get d k) <-> k ∈ dict_keys d.
Proof.
  rewrite <- not_eq_None_Some, dict_get_None.
  destruct (decide (k ∈ dict_keys d)); tauto.
Qed.

Lemma dict_elem_of_get d k v :
  NoDup (dict_keys d) -> (k, v) ∈ d -> dict_get d k = Some v.
Proof.
  induction d as [|[k' v'] d IH]; simpl.
  - intros _ H. by apply elem_of_nil in H.
  - rewrite NoDup_cons, elem_of_cons. intros [Hk Hd] [Heq|Hin].
    + inversion Heq; subst. by rewrite decide_True.
    + destruct (decide (k' = k)) as [->|]; [|auto].
      exfalso. apply Hk. unfold dict_keys.
      apply list_elem_of_fmap. exists (k, v). auto.
Qed.

(** Assigning to a key that is present changes neither the keys nor their
    order. *)
Lemma dict_keys_set_present d k v :
  k ∈ dict_keys d -> dict_keys (dict_set d k v) = dict_keys d.
Proof.
  induction d as [|[k' v'] d IH]; simpl.
  - intros H. by apply elem_of_nil in H.
  - destruct (decide (k' = k)) as [->|]; simpl; [done|].
    rewrite elem_of_cons. intros [?|Hin]; [done|]. by rewrite IH.
Qed.

(** Assigning to a new key appends it. *)
Lemma dict_set_absent d k v :
  k ∉ dict_keys d -> dict_set d k v = d ++ [(k, v)].
Proof.
  induction d as [|[k' v'] d IH]; simpl; [done|].
  rewrite not_elem_of_cons. intros [Hn Hd].
  rewrite decide_False by done. by rewrite IH.
Qed.

Lemma dict_keys_set d k v :
  dict_keys (dict_set d k v)
  = if decide (k ∈ dict_keys d) then dict_keys d else dict_keys d ++ [k].
Proof.
  destruct (decide (k ∈ dict_keys d)).
  - by apply dict_keys_set_present.
  - rewrite dict_set_absent by done. unfold dict_keys. by rewrite map_app.
Qed.

Lemma dict_set_NoDup d k v :
  NoDup (dict_keys d) -> NoDup (dict_keys (dict_set d k v)).
Proof.
  intros Hd. rewrite dict_keys_set. destruct (decide _); [done|].
  apply NoDup_app. split; [done|]. split.
  - intros x Hx Hk. apply list_elem_of_singleton in Hk. by subst.
  - apply NoDup_singleton.
Qed.

(** In a dictionary whose keys are unique, assigning to the key of an item
    replaces that item where it stands. *)
Lemma dict_set_middle (pre suf : dict V) k v v' :
  k ∉ dict_keys pre ->
  dict_set (pre ++ (k, v) :: suf) k v' = pre ++ (k, v') :: suf.
Proof.
  induction pre as [|[k0 v0] pre IH]; simpl.
  - intros _. by rewrite decide_True.
  - rewrite not_elem_of_cons. intros [Hn Hp].
    rewrite decide_False by done. by rewrite IH.
Qed.

Lemma dict_rel_refl (Q : string -> V -> V -> Prop) d :
  (forall k v, Q k v v) -> dict_rel Q d d.
Proof. intros HQ. induction d; constructor; auto. Qed.

Lemma dict_rel_trans (Q : string -> V -> V -> Prop) d1 d2 d3 :
  (forall k a b c, Q k a b -> Q k b c -> Q k a c) ->
  dict_rel Q d1 d2 -> dict_rel Q d2 d3 -> dict_rel Q d1 d3.
Proof.
  intros HQ H12. revert d3.
  induction H12 as [|x y l l' [Hk Hv] _ IH]; intros d3 H23.
  - inversion H23. constructor.
  - inversion H23 as [|? z ? l'' [Hk' Hv'] Hrest]; subst.
    constructor; [|by apply IH].
    split; [congruence|]. rewrite <- Hk in Hv'. eauto.
Qed.

Lemma dict_rel_keys (Q : string -> V -> V -> Prop) d d' :
  dict_rel Q d d' -> dict_keys d' = dict_keys d.
Proof.
  induction 1 as [|x y l l' [Hk _] _ IH]; simpl; [done|]. by rewrite Hk, IH.
Qed.

Lemma dict_rel_get (Q : string -> V -> V -> Prop) d d' k :
  dict_rel Q d d' ->
  match dict_get d k with
  | Some v => exists v', dict_get d' k = Some v' /\ Q k v v'
  | None => dict_get d' k = None
  end.
Proof.
  induction 1 as [|[k1 v1] [k2 v2] l l' [Hk Hv] _ IH]; simpl in *; [done|].
  subst k2. destruct (decide (k1 = k)) as [->|]; [eauto|done].
Qed.

(** Assigning a related value to a key that is present gives a related
    dictionary. *)
Lemma dict_rel_set (Q : string -> V -> V -> Prop) d k v v' :
  (forall k v, Q k v v) ->
  dict_get d k = Some v -> Q k v v' -> dict_rel Q d (dict_set d k v').
Proof.
  intros HQ. induction d as [|[k0 v0] d IH]; simpl; [done|].
  destruct (decide (k0 = k)) as [->|]; intros Hg Hv.
  - injection Hg as ->. constructor; [by split|]. by apply dict_rel_refl.
  - constructor; [by split|]. by apply IH.
Qed.
End DictFacts.

(** ** Sorting and slicing *)

Section SortFacts.
Context {A : Type} (key : A -> Z).

Lemma insert_desc_perm x l : Permutation (insert_desc key x l) (x :: l).
Proof.
  induction l as [|y l IH]; simpl; [done|].
  destruct (key y <=? key x); [done|].
  rewrite IH. apply perm_swap.
Qed.

Lemma sort_desc_perm l : Permutation (sort_desc key l) l.
Proof.
  induction l as [|x l IH]; simpl; [done|].
  rewrite insert_desc_perm. by constructor.
Qed.

Lemma insert_desc_sorted x l :
  StronglySorted (fun a b => key b <= key a) l ->
  StronglySorted (fun a b => key b <= key a) (insert_desc key x l).
Proof.
  induction 1 as [|y l Hl IH Hy]; simpl.
  - repeat constructor.
  - destruct (Z.leb_spec (key y) (key x)).
    + constructor; [by constructor|].
      constructor; [done|].
      eapply Forall_impl; [exact Hy|]. simpl. intros. lia.
    + constructor; [done|].
      rewrite insert_desc_perm. constructor; [lia|done].
Qed.

Lemma sort_desc_sorted l :
  StronglySorted (fun a b => key b <= key a) (sort_desc key l).
Proof.
  induction l; simpl; [constructor|]. by apply insert_desc_sorted.
Qed.

(** Stability: elements with the same key keep their order. *)
Lemma insert_desc_stable k x l :
  List.filter (fun a => key a =? k) (insert_desc key x l)
  = List.filter (fun a => key a =? k) (x :: l).
Proof.
  induction l as [|y l IH]; simpl; [done|].
  destruct (Z.leb_spec (key y) (key x)); [done|].
  simpl in *. rewrite IH.
  destruct (Z.eqb_spec (key y) k), (Z.eqb_spec (key x) k); try done. lia.
Qed.

Lemma sort_desc_stable k l :
  List.filter (fun a => key a =? k) (sort_desc key l)
  = List.filter (fun a => key a =? k) l.
Proof.
  induction l as [|x l IH]; simpl; [done|].
  rewrite insert_desc_stable. simpl. by rewrite IH.
Qed.
End SortFacts.

(** For bounds that are not negative, [l[start : start + len]] drops
    [start] elements and keeps the next [len]. *)
Lemma py_slice_nonneg {A} (l : list A) (start len : Z) :
  0 <= start -> 0 <= len ->
  py_slice l start (start + len)
  = take (Z.to_nat len) (drop (Z.to_nat start) l).
Proof.
  intros Hs Hl. unfold py_slice, slice_bound.
  destruct (Z.ltb_spec start 0); [lia|].
  destruct (Z.ltb_spec (start + len) 0); [lia|].
  destruct (Z_le_gt_dec (Z.of_nat (length l)) start) as [Hge|Hlt].
  - rewrite !drop_ge by lia. by rewrite !take_nil.
  - rewrite (Z.min_l start) by lia.
    destruct (Z_le_gt_dec (start + len) (Z.of_nat (length l))).
    + rewrite Z.min_l by lia. do 2 f_equal. lia.
    + rewrite Z.min_r by lia.
      rewrite !take_ge; [done | rewrite length_drop; lia ..].
Qed.

Lemma py_slice_lookup {A} (l : list A) (start len : Z) (i : nat) :
  0 <= start -> 0 <= len ->
  py_slice l start (start + len) !! i
  = if Z.of_nat i <? len then l !! (Z.to_nat start + i)%nat else None.
Proof.
  intros Hs Hl. rewrite py_slice_nonneg by done.
  destruct (Z.ltb_spec (Z.of_nat i) len).
  - rewrite lookup_take_lt by lia. by rewrite lookup_drop.
  - by rewrite lookup_take_ge by lia.
Qed.

(** ** Listing *)

Lemma list_nbas_keep_spec account_id enterprise_number status r :
  list_nbas_keep account_id enterprise_number status r = true
  <-> matches_filters account_id enterprise_number status r.
Proof.
  unfold list_nbas_keep, _match_identifiers, matches_filters.
  rewrite !andb_true_iff, !orb_true_iff, !bool_decide_eq_true.
  split.
  - intros [[Ha [Hacc Hent]] Hst]. split; [done|].
    split; [|split]; intros x ->.
    + by destruct Hacc.
    + by destruct Hent.
    + destruct Hst as [?|Hst]; [done|]. by injection Hst.
  - intros (Ha & Hacc & Hent & Hst). split; [split; [done|split]|].
    + destruct account_id; [right; by rewrite (Hacc _ eq_refl) | by left].
    + destruct enterprise_number; [right; by rewrite (Hent _ eq_refl) | by left].
    + destruct status; [right; by rewrite (Hst _ eq_refl) | by left].
Qed.

(** C6: [list_nbas] leaves the store alone and returns a slice of the list
    [sorted] together with the length of [sorted], where [sorted] holds
    exactly the records of the store that are active and equal every
    supplied filter, newest first.  The slice is Python's
    [sorted[offset : offset + limit]]; for an offset and a limit that are
    not negative its i-th element is the (offset + i)-th of [sorted] as long
    as i < limit.  With ten matching records, limit 3 and offset 3 the page
    is the 4th, 5th and 6th newest and the total is 10. *)
Theorem list_nbas_page_of_sorted_matches
    (s : State) (account_id enterprise_number status : option string)
    (limit offset : Z) :
  exists sorted : list NbaRecord.t,
    list_nbas account_id enterprise_number status limit offset s
    = (Return (py_slice sorted offset (offset + limit),
               Z.of_nat (length sorted)), s)
    /\ Permutation sorted
         (List.filter (list_nbas_keep account_id enterprise_number status)
                      (dict_values (_nbas s)))
    /\ (forall r, r ∈ sorted <->
          r ∈ dict_values (_nbas s)
          /\ matches_filters account_id enterprise_number status r)
    /\ StronglySorted newer_or_equal sorted
    /\ (0 <= offset -> 0 <= limit ->
        forall i : nat,
          py_slice sorted offset (offset + limit) !! i
          = if Z.of_nat i <? limit
            then sorted !! (Z.to_nat offset + i)%nat else None)
    /\ (length sorted = 10%nat -> limit = 3 -> offset = 3 ->
        exists r4 r5 r6,
          sorted !! 3%nat = Some r4 /\ sorted !! 4%nat = Some r5
          /\ sorted !! 5%nat = Some r6
          /\ list_nbas account_id enterprise_number status limit offset s
             = (Return ([r4; r5; r6], 10), s)).
Proof.
  set (keep := list_nbas_keep account_id enterprise_number status).
  set (sorted := sort_desc NbaRecord.created_at
                   (List.filter keep (dict_values (_nbas s)))).
  assert (Hrun : list_nbas account_id enterprise_number status limit offset s
    = (Return (py_slice sorted offset (offset + limit),
               Z.of_nat (length sorted)), s)) by reflexivity.
  exists sorted. split; [exact Hrun|].
  split; [apply sort_desc_perm|].
  split.
  { intros r. unfold sorted. rewrite (sort_desc_perm NbaRecord.created_at).
    rewrite !list_elem_of_In, filter_In. unfold keep.
    by rewrite list_nbas_keep_spec. }
  split; [apply sort_desc_sorted|].
  split; [intros; by apply py_slice_lookup|].
  intros Hlen -> ->. rewrite Hrun, Hlen.
  destruct sorted as [|r1 [|r2 [|r3 [|r4 [|r5 [|r6 rest]]]]]]; try discriminate.
  exists r4, r5, r6. repeat split; try reflexivity.
  unfold py_slice. rewrite Hlen. reflexivity.
Qed.

(** ** Running computations *)

Lemma bind_run {A B} (m : M A) (k : A -> M B) (s : State) :
  bind m k s
  = match m s with
    | (Return a, s') => k a s'
    | (Raise e, s') => (Raise e, s')
    end.
Proof. reflexivity. Qed.

Lemma action_status_cases st :
  st ∈ ACTION_STATUSES <-> st = NBA_STATUS_ACCEPTED \/ st = NBA_STATUS_REJECTED.
Proof.
  unfold ACTION_STATUSES. by rewrite elem_of_union, !elem_of_singleton.
Qed.

Lemma new_is_not_an_action_status : NBA_STATUS_NEW ∉ ACTION_STATUSES.
Proof. rewrite action_status_cases. by intros [?|?]. Qed.

(** ** The action service *)

Section ActionService.
Context (env : Env).
Implicit Types (s : State) (nba : NbaRecord.t).

Lemma register_action_invalid nba_id st action_at comment user s :
  st ∉ ACTION_STATUSES ->
  register_action env nba_id st action_at comment user s
  = (Raise ValidationError, s).
Proof.
  intros Hst. unfold register_action.
  by rewrite bool_decide_eq_false_2.
Qed.

Lemma register_action_not_found nba_id st action_at comment user s :
  st ∈ ACTION_STATUSES ->
  dict_get (_nbas s) nba_id = None ->
  register_action env nba_id st action_at comment user s
  = (Raise NotFoundError, s).
Proof.
  intros Hst Hget. unfold register_action.
  rewrite bool_decide_eq_true_2 by done. simpl.
  rewrite bind_run. unfold get_nba, gets. by rewrite Hget.
Qed.

(** On a record whose status is already terminal nothing is written: the
    logged action is returned if the status is the requested one and the
    log has it, and the call is a conflict otherwise. *)
Lemma register_action_terminal nba_id st action_at comment user s nba :
  st ∈ ACTION_STATUSES ->
  dict_get (_nbas s) nba_id = Some nba ->
  NbaRecord.status nba ∈ ACTION_STATUSES ->
  register_action env nba_id st action_at comment user s
  = match (if bool_decide (NbaRecord.status nba = st)
           then List.find (is_action_event nba_id st) (_events s)
           else None) with
    | Some event => (Return event, s)
    | None => (Raise ConflictError, s)
    end.
Proof.
  intros Hst Hget Hterm. unfold register_action.
  rewrite bool_decide_eq_true_2 by done. simpl.
  rewrite bind_run. unfold get_nba, gets. rewrite Hget.
  rewrite bind_run. unfold assert_nba_access, ret.
  rewrite (bool_decide_eq_true_2 _ Hterm).
  rewrite bind_run. unfold find_action_event, gets.
  destruct (bool_decide (NbaRecord.status nba = st)).
  - by destruct (List.find _ _).
  - done.
Qed.

(** On a record that is not terminal the status is written and one entry
    is appended to the log. *)
Lemma register_action_first nba_id st action_at comment user s nba :
  st ∈ ACTION_STATUSES ->
  dict_get (_nbas s) nba_id = Some nba ->
  NbaRecord.status nba ∉ ACTION_STATUSES ->
  let reads := (clock_reads s + match action_at with Some _ => 0 | None => 1 end)%nat in
  register_action env nba_id st action_at comment user s
  = (Return (logged_action env nba_id st action_at comment user s),
     mkState
       (dict_set (_nbas s) nba_id
          (NbaRecord.replace_status nba st (clock env reads)))
       (_event_to_nba_id s)
       (_events s ++ [logged_action env nba_id st action_at comment user s])
       (_processed s) (S reads) (S (uuid_draws s))).
Proof.
  intros Hst Hget Hnew reads. unfold register_action.
  rewrite bool_decide_eq_true_2 by done. simpl.
  rewrite bind_run. unfold get_nba, gets. rewrite Hget.
  rewrite bind_run. unfold assert_nba_access, ret.
  rewrite (bool_decide_eq_false_2 _ Hnew).
  unfold logged_action, logged_action_at, reads.
  unfold update_status, add, bind, gets, modify, ret, utc_now, uuid4_hex10.
  destruct action_at as [d|]; simpl; rewrite Hget; simpl.
  - rewrite Nat.add_0_r. by destruct (datetime.tzinfo d).
  - by rewrite Nat.add_1_r.
Qed.
End ActionService.

Section ActionProperties.
Context (env : Env).

Lemma find_action_event_none nba_id st (events : list NbaEventLogRecord.t) :
  (forall ev, ev ∈ events ->
     NbaEventLogRecord.nba_id ev = nba_id ->
     NbaEventLogRecord.status ev = st ->
     truthy (NbaEventLogRecord.acted_by ev) = false) ->
  List.find (is_action_event nba_id st) events = None.
Proof.
  induction events as [|ev events IH]; intros H; simpl; [done|].
  assert (is_action_event nba_id st ev = false) as ->.
  { unfold is_action_event.
    destruct (decide (NbaEventLogRecord.nba_id ev = nba_id)) as [Hn|Hn];
      [|by rewrite (bool_decide_eq_false_2 _ Hn)].
    destruct (decide (NbaEventLogRecord.status ev = st)) as [Hs|Hs];
      [|by rewrite (bool_decide_eq_false_2 _ Hs), andb_false_r].
    rewrite (H ev); [by rewrite andb_false_r | left | done | done]. }
  apply IH. intros ev' Hin. apply H. by right.
Qed.

Lemma find_app_none {A} (f : A -> bool) (l : list A) (x : A) :
  List.find f l = None -> List.find f (l ++ [x]) = if f x then Some x else None.
Proof.
  induction l as [|y l IH]; simpl; [done|].
  destruct (f y); [done|]. exact IH.
Qed.

(** C7: an action on an id the store does not hold fails with
    NotFoundError when the requested status is accepted or rejected, and
    with ValidationError when it is not (the status is checked first);
    either way nothing is written. *)
Theorem register_action_unknown_id
    (s : State) (nba_id status_value : string) (action_at : option datetime.t)
    (comment : option string) (user : UserContext.t) :
  get_nba nba_id s = (Return None, s) ->
  (status_value ∈ ACTION_STATUSES ->
   register_action env nba_id status_value action_at comment user s
   = (Raise NotFoundError, s))
  /\ (status_value ∉ ACTION_STATUSES ->
      register_action env nba_id status_value action_at comment user s
      = (Raise ValidationError, s)).
Proof.
  intros Hget. injection Hget as Hget. split; intros Hst.
  - by apply register_action_not_found.
  - by apply register_action_invalid.
Qed.

(** C9: when the record already has the requested terminal status but the
    log holds no entry for that record and status with an [acted_by], the
    call fails with ConflictError and writes nothing. *)
Theorem register_action_terminal_without_log
    (s : State) (nba_id status_value : string) (nba : NbaRecord.t)
    (action_at : option datetime.t) (comment : option string)
    (user : UserContext.t) :
  get_nba nba_id s = (Return (Some nba), s) ->
  NbaRecord.status nba = status_value ->
  status_value = NBA_STATUS_ACCEPTED \/ status_value = NBA_STATUS_REJECTED ->
  (forall ev, ev ∈ _events s ->
     NbaEventLogRecord.nba_id ev = nba_id ->
     NbaEventLogRecord.status ev = status_value ->
     NbaEventLogRecord.acted_by ev = None) ->
  register_action env nba_id status_value action_at comment user s
  = (Raise ConflictError, s).
Proof.
  intros Hget Hstatus Hterm Hlog. injection Hget as Hget.
  apply action_status_cases in Hterm.
  rewrite (register_action_terminal env _ _ _ _ _ _ nba) by (done || congruence).
  rewrite bool_decide_eq_true_2 by done.
  rewrite find_action_event_none; [done|].
  intros ev Hin Hn Hs. by rewrite (Hlog ev Hin Hn Hs).
Qed.

(** C4: once accepting has succeeded, rejecting the same NBA fails with
    ConflictError; the failing call leaves the whole state as it was, and
    the record's status is still accepted. *)
Theorem register_action_reject_after_accept
    (s : State) (nba_id : string) (ev : NbaEventLogRecord.t)
    (action_at action_at' : option datetime.t) (comment comment' : option string)
    (user user' : UserContext.t) :
  fst (register_action env nba_id NBA_STATUS_ACCEPTED action_at comment user s)
  = Return ev ->
  let s1 :=
    snd (register_action env nba_id NBA_STATUS_ACCEPTED action_at comment user s) in
  register_action env nba_id NBA_STATUS_REJECTED action_at' comment' user' s1
  = (Raise ConflictError, s1)
  /\ exists nba, dict_get (_nbas s1) nba_id = Some nba
                 /\ NbaRecord.status nba = NBA_STATUS_ACCEPTED.
Proof.
  intros Hfirst s1.
  assert (Hacc : NBA_STATUS_ACCEPTED ∈ ACTION_STATUSES)
    by (apply action_status_cases; by left).
  assert (Hrej : NBA_STATUS_REJECTED ∈ ACTION_STATUSES)
    by (apply action_status_cases; by right).
  assert (Hstill : exists nba, dict_get (_nbas s1) nba_id = Some nba
                   /\ NbaRecord.status nba = NBA_STATUS_ACCEPTED).
  { subst s1. revert Hfirst.
    destruct (dict_get (_nbas s) nba_id) as [nba|] eqn:Hget.
    - destruct (decide (NbaRecord.status nba ∈ ACTION_STATUSES)) as [Ht|Ht].
      + rewrite (register_action_terminal env _ _ _ _ _ _ nba) by done.
        destruct (decide (NbaRecord.status nba = NBA_STATUS_ACCEPTED)) as [He|He].
        * rewrite (bool_decide_eq_true_2 _ He).
          destruct (List.find _ _); [|done]. simpl. eauto.
        * by rewrite (bool_decide_eq_false_2 _ He).
      + rewrite (register_action_first env _ _ _ _ _ _ nba) by done.
        simpl. intros _. rewrite dict_get_set_eq. eauto.
    - by rewrite register_action_not_found. }
  split; [|exact Hstill].
  destruct Hstill as (nba & Hget & Hstatus).
  rewrite (register_action_terminal env _ _ _ _ _ _ nba);
    [| done | done | by rewrite Hstatus].
  rewrite bool_decide_eq_false_2; [done|]. by rewrite Hstatus.
Qed.

(** C3, as the code has it: for an NBA whose status is new and for which
    the log holds no accepted action yet, accepting it twice, the first
    time by a user whose name is not empty, returns the same log entry
    (hence the same event id) both times; the first call appends that entry
    and the second call changes nothing.  The entry is the first one of the
    log with that NBA id, that status and a non-empty [acted_by]. *)
Theorem register_action_accept_twice
    (s : State) (nba_id : string) (nba : NbaRecord.t)
    (action_at action_at' : option datetime.t) (comment comment' : option string)
    (user user' : UserContext.t) :
  get_nba nba_id s = (Return (Some nba), s) ->
  NbaRecord.status nba = NBA_STATUS_NEW ->
  UserContext.username user <> ""%string ->
  (forall ev, ev ∈ _events s ->
     NbaEventLogRecord.nba_id ev = nba_id ->
     NbaEventLogRecord.status ev = NBA_STATUS_ACCEPTED ->
     truthy (NbaEventLogRecord.acted_by ev) = false) ->
  let first :=
    register_action env nba_id NBA_STATUS_ACCEPTED action_at comment user s in
  let second :=
    register_action env nba_id NBA_STATUS_ACCEPTED action_at' comment' user'
      (snd first) in
  exists ev,
    fst first = Return ev
    /\ second = (Return ev, snd first)
    /\ _events (snd first) = _events s ++ [ev]
    /\ find_action_event nba_id NBA_STATUS_ACCEPTED (snd first)
       = (Return (Some ev), snd first).
Proof.
  intros Hget Hnew Huser Hlog first second. injection Hget as Hget.
  assert (Hacc : NBA_STATUS_ACCEPTED ∈ ACTION_STATUSES)
    by (apply action_status_cases; by left).
  assert (Hnot : NbaRecord.status nba ∉ ACTION_STATUSES)
    by (rewrite Hnew; apply new_is_not_an_action_status).
  pose proof (register_action_first env nba_id NBA_STATUS_ACCEPTED action_at
                comment user s nba Hacc Hget Hnot) as Hfirst.
  simpl in Hfirst. subst second. subst first. rewrite Hfirst. simpl.
  set (ev := logged_action env nba_id NBA_STATUS_ACCEPTED action_at comment user s).
  assert (Hfind : List.find (is_action_event nba_id NBA_STATUS_ACCEPTED)
                    (_events s ++ [ev]) = Some ev).
  { rewrite find_app_none by by apply find_action_event_none.
    assert (is_action_event nba_id NBA_STATUS_ACCEPTED ev = true) as ->; [|done].
    unfold is_action_event, ev, logged_action. simpl.
    rewrite !bool_decide_eq_true_2 by done. simpl.
    apply negb_true_iff. by apply String.eqb_neq. }
  exists ev. split; [done|]. split; [|split; [done|]].
  - match goal with |- register_action _ _ _ _ _ _ ?s1 = _ =>
      rewrite (register_action_terminal env nba_id NBA_STATUS_ACCEPTED
                 action_at' comment' user' s1
                 (NbaRecord.replace_status nba NBA_STATUS_ACCEPTED
                    (clock env (clock_reads s
                       + match action_at with Some _ => 0 | None => 1 end)%nat)))
        by (done || apply dict_get_set_eq)
    end.
    cbn [NbaRecord.status NbaRecord.replace_status _events].
    rewrite bool_decide_eq_true_2 by done. by rewrite Hfind.
  - unfold find_action_event, gets. simpl. by rewrite Hfind.
Qed.

(** C8, as the code has it: for an NBA whose status is new and a status
    that is accepted or rejected, the call returns the entry it logs.  Its
    [action_at] is the current UTC time when none was supplied, the supplied
    wall clock marked as UTC when a naive one was supplied, and the supplied
    timestamp unchanged, with the offset it came with, when an aware one was
    supplied; so it is always timezone-aware.  Its [acted_by] is the acting
    user's name, and its context carries the comment exactly when a
    non-empty comment was supplied. *)
Theorem register_action_logged_entry
    (s : State) (nba_id status_value : string) (nba : NbaRecord.t)
    (action_at : option datetime.t) (comment : option string)
    (user : UserContext.t) :
  get_nba nba_id s = (Return (Some nba), s) ->
  NbaRecord.status nba = NBA_STATUS_NEW ->
  status_value = NBA_STATUS_ACCEPTED \/ status_value = NBA_STATUS_REJECTED ->
  exists ev s',
    register_action env nba_id status_value action_at comment user s
    = (Return ev, s')
    /\ (action_at = None ->
        forall now, fst (utc_now env s) = Return now ->
        NbaEventLogRecord.action_at ev = datetime.mk now (Some datetime.utc))
    /\ (forall d, action_at = Some d -> datetime.tzinfo d = None ->
        NbaEventLogRecord.action_at ev
        = datetime.mk (datetime.wall d) (Some datetime.utc))
    /\ (forall d, action_at = Some d -> datetime.tzinfo d <> None ->
        NbaEventLogRecord.action_at ev = d)
    /\ datetime.aware (NbaEventLogRecord.action_at ev)
    /\ NbaEventLogRecord.acted_by ev = Some (UserContext.username user)
    /\ NbaEventLogRecord.context ev
       = match comment with
         | Some c => if decide (c = ""%string) then []
                     else [("comment"%string, Some c)]
         | None => []
         end.
Proof.
  intros Hget Hnew Hst. injection Hget as Hget.
  apply action_status_cases in Hst.
  assert (Hnot : NbaRecord.status nba ∉ ACTION_STATUSES)
    by (rewrite Hnew; apply new_is_not_an_action_status).
  pose proof (register_action_first env nba_id status_value action_at
                comment user s nba Hst Hget Hnot) as Hfirst.
  simpl in Hfirst. eexists _, _. split; [exact Hfirst|].
  unfold logged_action, logged_action_at, datetime.aware. simpl.
  split; [intros -> now [= <-]; done|].
  split; [by intros d -> ->|].
  split; [intros d -> Hd; by destruct (datetime.tzinfo d)|].
  split.
  { destruct action_at as [d|]; [|done].
    by destruct (datetime.tzinfo d) eqn:Hd; simpl; [rewrite Hd|]. }
  split; [done|].
  destruct comment as [c|]; [|done]. unfold truthy.
  destruct (decide (c = ""%string)) as [->|Hc]; [done|].
  apply String.eqb_neq in Hc. by rewrite Hc.
Qed.
End ActionProperties.

Lemma register_action_unknown_id_witness :
  register_action sample_env "nba_ffffffffff" "accepted" None None sample_user
    sample_state_1
  = (Raise NotFoundError, sample_state_1)
  /\ register_action sample_env "nba_ffffffffff" "postponed" None None
       sample_user sample_state_1
     = (Raise ValidationError, sample_state_1).
Proof.
  destruct (register_action_unknown_id sample_env sample_state_1
              "nba_ffffffffff" "accepted" None None sample_user eq_refl)
    as [Hfound _].
  destruct (register_action_unknown_id sample_env sample_state_1
              "nba_ffffffffff" "postponed" None None sample_user eq_refl)
    as [_ Hinvalid].
  split.
  - apply Hfound. apply action_status_cases. by left.
  - apply Hinvalid. rewrite action_status_cases. by intros [?|?].
Defined.

Lemma register_action_terminal_without_log_witness :
  register_action sample_env "nba_0a1b2c3d4e" "accepted" None None sample_user
    sample_state_out_of_band
  = (Raise ConflictError, sample_state_out_of_band).
Proof.
  apply (register_action_terminal_without_log sample_env
           sample_state_out_of_band "nba_0a1b2c3d4e" "accepted"
           (NbaRecord.replace_status sample_nba_1 "accepted" 1700000000003000)).
  - reflexivity.
  - reflexivity.
  - by left.
  - intros ev Hin _ _. apply list_elem_of_In in Hin.
    destruct Hin as [<-|[]]. reflexivity.
Defined.

Lemma register_action_reject_after_accept_witness :
  register_action sample_env "nba_0a1b2c3d4e" "rejected" None (Some "no") sample_user
    (snd (register_action sample_env "nba_0a1b2c3d4e" "accepted" None None
            sample_user sample_state_1))
  = (Raise ConflictError,
     snd (register_action sample_env "nba_0a1b2c3d4e" "accepted" None None
            sample_user sample_state_1)).
Proof.
  apply (register_action_reject_after_accept sample_env sample_state_1
           "nba_0a1b2c3d4e" sample_accept_entry None None None (Some "no")
           sample_user sample_user).
  reflexivity.
Defined.

Lemma register_action_accept_twice_witness :
  register_action sample_env "nba_0a1b2c3d4e" "accepted" None None sample_user
    (snd (register_action sample_env "nba_0a1b2c3d4e" "accepted" None None
            sample_user sample_state_1))
  = (Return sample_accept_entry,
     snd (register_action sample_env "nba_0a1b2c3d4e" "accepted" None None
            sample_user sample_state_1)).
Proof.
  destruct (register_action_accept_twice sample_env sample_state_1
              "nba_0a1b2c3d4e" sample_nba_1 None None None None
              sample_user sample_user) as (ev & Hfirst & Hsecond & _).
  - reflexivity.
  - reflexivity.
  - discriminate.
  - intros ev Hin _ _. apply list_elem_of_In in Hin.
    destruct Hin as [<-|[]]. reflexivity.
  - injection Hfirst as <-. exact Hsecond.
Defined.

(** C3 fails as stated.  With an acting user whose name is the empty
    string, the first accept of a new NBA logs an entry whose [acted_by] is
    not [None], and the second accept is a conflict all the same.  And when
    the log already holds an accepted action for the NBA, the second accept
    returns that older entry, whose event id is not the one the first call
    returned. *)
Lemma register_action_accept_twice_counterexample :
  (NbaRecord.status <$> dict_get (_nbas sample_state_1) "nba_0a1b2c3d4e"
   = Some NBA_STATUS_NEW
   /\ (exists ev,
         fst (register_action sample_env "nba_0a1b2c3d4e" "accepted" None None
                nameless_user sample_state_1) = Return ev
         /\ NbaEventLogRecord.acted_by ev <> None)
   /\ fst (register_action sample_env "nba_0a1b2c3d4e" "accepted" None None
             nameless_user
             (snd (register_action sample_env "nba_0a1b2c3d4e" "accepted" None
                     None nameless_user sample_state_1)))
      = Raise ConflictError)
  /\ (NbaRecord.status <$> dict_get (_nbas sample_state_stale) "nba_0a1b2c3d4e"
      = Some NBA_STATUS_NEW
      /\ exists ev1 ev2,
           fst (register_action sample_env "nba_0a1b2c3d4e" "accepted" None None
                  sample_user sample_state_stale) = Return ev1
           /\ fst (register_action sample_env "nba_0a1b2c3d4e" "accepted" None
                     None sample_user
                     (snd (register_action sample_env "nba_0a1b2c3d4e"
                             "accepted" None None sample_user
                             sample_state_stale)))
              = Return ev2
           /\ NbaEventLogRecord.id ev1 <> NbaEventLogRecord.id ev2).
Proof.
  split.
  - split; [reflexivity|]. split; [|reflexivity].
    eexists. split; [reflexivity|]. discriminate.
  - split; [reflexivity|]. eexists _, _.
    split; [reflexivity|]. split; [reflexivity|]. discriminate.
Qed.

Lemma register_action_logged_entry_witness :
  exists ev s',
    register_action sample_env "nba_0a1b2c3d4e" "rejected" None
      (Some "not relevant") sample_user sample_state_1 = (Return ev, s')
    /\ NbaEventLogRecord.action_at ev
       = datetime.mk 1700000000003000 (Some datetime.utc)
    /\ NbaEventLogRecord.acted_by ev = Some "system"
    /\ NbaEventLogRecord.context ev = [("comment", Some "not relevant")].
Proof.
  destruct (register_action_logged_entry sample_env sample_state_1
              "nba_0a1b2c3d4e" "rejected" sample_nba_1 None
              (Some "not relevant") sample_user)
    as (ev & s' & Hrun & Hnow & _ & _ & _ & Hby & Hctx).
  - reflexivity.
  - reflexivity.
  - by right.
  - exists ev, s'. split; [exact Hrun|].
    split; [by apply Hnow|]. split; [exact Hby|]. exact Hctx.
Defined.

(** C8 fails as stated.  A supplied timestamp that is aware but not UTC is
    logged as it came, two hours east of UTC here, so the entry's
    [action_at] is not always UTC.  And a comment that was supplied but is
    the empty string is not carried by the entry's context. *)
Lemma register_action_logged_entry_counterexample :
  (exists ev,
     fst (register_action sample_env "nba_0a1b2c3d4e" "accepted"
            (Some sample_local_time) None sample_user sample_state_1)
     = Return ev
     /\ datetime.aware sample_local_time
     /\ ~ datetime.is_utc (NbaEventLogRecord.action_at ev))
  /\ (exists ev,
        fst (register_action sample_env "nba_0a1b2c3d4e" "accepted" None
               (Some ""%string) sample_user sample_state_1)
        = Return ev
        /\ dict_get (NbaEventLogRecord.context ev) "comment" = None).
Proof.
  split.
  - eexists. split; [reflexivity|]. split; discriminate.
  - eexists. split; reflexivity.
Qed.

(** ** Computations that never raise, and what they preserve *)

Lemma returns_run {A} (m : M A) s :
  returns m -> exists a, m s = (Return a, snd (m s)).
Proof.
  intros Hm. destruct (Hm s) as [a Ha]. exists a.
  destruct (m s) as [o s']. simpl in *. by subst.
Qed.

Lemma returns_ret {A} (a : A) : returns (ret a).
Proof. intros s. by exists a. Qed.

Lemma returns_gets {A} (f : State -> A) : returns (gets f).
Proof. intros s. by eexists. Qed.

Lemma returns_modify (f : State -> State) : returns (modify f).
Proof. intros s. by eexists. Qed.

Lemma returns_bind {A B} (m : M A) (k : A -> M B) :
  returns m -> (forall a, returns (k a)) -> returns (bind m k).
Proof.
  intros Hm Hk s. unfold bind.
  destruct (returns_run m s Hm) as [a ->]. apply Hk.
Qed.

Lemma returns_for_fold {A B} (xs : list A) (acc : B) (body : B -> A -> M B) :
  (forall acc x, returns (body acc x)) -> returns (for_fold xs acc body).
Proof.
  intros Hbody. revert acc.
  induction xs as [|x xs IH]; intros acc; simpl.
  - apply returns_ret.
  - apply returns_bind; auto.
Qed.

Section Preserves.
Context (R : State -> State -> Prop) `{!PreOrder R}.

Lemma preserves_ret {A} (a : A) : preserves R (ret a).
Proof. intros s. reflexivity. Qed.

Lemma preserves_raise {A} (e : exn) : preserves R (raise (A := A) e).
Proof. intros s. reflexivity. Qed.

Lemma preserves_gets {A} (f : State -> A) : preserves R (gets f).
Proof. intros s. reflexivity. Qed.

Lemma preserves_modify (f : State -> State) :
  (forall s, R s (f s)) -> preserves R (modify f).
Proof. intros Hf s. apply Hf. Qed.

Lemma preserves_bind {A B} (m : M A) (k : A -> M B) :
  preserves R m -> (forall a, preserves R (k a)) -> preserves R (bind m k).
Proof.
  intros Hm Hk s. unfold bind. specialize (Hm s).
  destruct (m s) as [[a|e] s']; simpl in *; [|done].
  etrans; [exact Hm|]. apply Hk.
Qed.

Lemma preserves_for_fold {A B} (xs : list A) (acc : B) (body : B -> A -> M B) :
  (forall acc x, preserves R (body acc x)) -> preserves R (for_fold xs acc body).
Proof.
  intros Hbody. revert acc.
  induction xs as [|x xs IH]; intros acc; simpl.
  - apply preserves_ret.
  - apply preserves_bind; auto.
Qed.
End Preserves.

Global Instance ledger_grows_preorder : PreOrder ledger_grows.
Proof.
  split.
  - intros s. unfold ledger_grows. set_solver.
  - intros s1 s2 s3. unfold ledger_grows. set_solver.
Qed.

(** ** The processed-event ledger *)

Section Ledger.
Context (env : Env).

Lemma ledger_utc_now : preserves ledger_grows (utc_now env).
Proof. intros s. unfold ledger_grows. simpl. set_solver. Qed.

Lemma ledger_uuid4_hex10 : preserves ledger_grows (uuid4_hex10 env).
Proof. intros s. unfold ledger_grows. simpl. set_solver. Qed.

Ltac ledger_step :=
  first
    [ apply (preserves_ret ledger_grows)
    | apply (preserves_raise ledger_grows)
    | apply (preserves_gets ledger_grows)
    | apply ledger_utc_now
    | apply ledger_uuid4_hex10
    | apply (preserves_modify ledger_grows); intros ?;
      unfold ledger_grows; simpl; set_solver
    | apply (preserves_bind ledger_grows); [|intros ?]
    | apply (preserves_for_fold ledger_grows); intros ? ?
    | match goal with
      | |- preserves _ (match ?x with _ => _ end) => destruct x
      end ].
Ltac ledger := repeat ledger_step.

Lemma ledger_list_nbas a e st l o : preserves ledger_grows (list_nbas a e st l o).
Proof. unfold list_nbas. ledger. Qed.

Lemma ledger_get_nba k : preserves ledger_grows (get_nba k).
Proof. unfold get_nba. ledger. Qed.

Lemma ledger_upsert ev d e a c ctx :
  preserves ledger_grows (upsert_from_calculation_event env ev d e a c ctx).
Proof. unfold upsert_from_calculation_event. ledger. Qed.

Lemma ledger_update_status k st :
  preserves ledger_grows (update_status env k st).
Proof. unfold update_status. ledger. Qed.

Lemma ledger_deactivate_other k d e a c :
  preserves ledger_grows (deactivate_other_active_new_for_scope env k d e a c).
Proof.
  unfold deactivate_other_active_new_for_scope, deactivate_other_step. ledger.
Qed.

Lemma ledger_deactivate_by_ids ids :
  preserves ledger_grows (deactivate_nbas_by_ids env ids).
Proof. unfold deactivate_nbas_by_ids, deactivate_by_id_step. ledger. Qed.

Lemma ledger_add ev : preserves ledger_grows (add ev).
Proof. unfold add. ledger. Qed.

Lemma ledger_list_for_nba k : preserves ledger_grows (list_for_nba k).
Proof. unfold list_for_nba. ledger. Qed.

Lemma ledger_find_action_event k st :
  preserves ledger_grows (find_action_event k st).
Proof. unfold find_action_event. ledger. Qed.

Lemma ledger_is_processed ev : preserves ledger_grows (is_processed ev).
Proof. unfold is_processed. ledger. Qed.

Lemma ledger_mark_processed ev : preserves ledger_grows (mark_processed ev).
Proof. unfold mark_processed. ledger. Qed.

Lemma ledger_list_for_user u a e st l o :
  preserves ledger_grows (list_for_user u a e st l o).
Proof. unfold list_for_user, assert_query_access, list_nbas. ledger. Qed.

Lemma ledger_register_action k st at_ c u :
  preserves ledger_grows (register_action env k st at_ c u).
Proof.
  unfold register_action, get_nba, assert_nba_access, find_action_event,
    update_status, add.
  ledger.
Qed.

Lemma ledger_process p : preserves ledger_grows (process env p).
Proof.
  unfold process, is_processed, mark_processed.
  repeat first
    [ apply ledger_deactivate_by_ids
    | apply ledger_upsert
    | apply ledger_deactivate_other
    | apply ledger_add
    | ledger_step ].
Qed.

(** No call removes an id from the ledger. *)
Lemma ledger_run_call c s : ledger_grows s (run_call env c s).
Proof.
  destruct c; cbn [run_call].
  - apply (ledger_list_nbas _ _ _ _ _ s).
  - apply (ledger_get_nba _ s).
  - apply (ledger_upsert _ _ _ _ _ _ s).
  - apply (ledger_update_status _ _ s).
  - apply (ledger_deactivate_other _ _ _ _ _ s).
  - apply (ledger_deactivate_by_ids _ s).
  - apply (ledger_add _ s).
  - apply (ledger_list_for_nba _ s).
  - apply (ledger_find_action_event _ _ s).
  - apply (ledger_is_processed _ s).
  - apply (ledger_mark_processed _ s).
  - apply (ledger_list_for_user _ _ _ _ _ _ s).
  - apply (ledger_register_action _ _ _ _ _ s).
  - apply (ledger_process _ s).
Qed.

Lemma ledger_run_calls cs s : ledger_grows s (run_calls env cs s).
Proof.
  revert s. induction cs as [|c cs IH]; intros s; simpl.
  - reflexivity.
  - etrans; [apply ledger_run_call|]. apply IH.
Qed.

Lemma process_duplicate p s :
  Payload.event_id p ∈ _processed s ->
  process env p s = (Return duplicate_skipped, s).
Proof.
  intros Hin. unfold process, bind, is_processed, gets.
  by rewrite bool_decide_eq_true_2.
Qed.

(** C10: once [mark_processed] was called for an event id, whatever calls
    follow, [is_processed] returns true for it, and [process] on any payload
    bearing that id returns duplicate_skipped and leaves the whole state as
    it was. *)
Theorem ledger_is_monotone (event_id : string) (s : State) (calls : list Call) :
  let s' := run_calls env calls (snd (mark_processed event_id s)) in
  _processed (snd (mark_processed event_id s)) ⊆ _processed s'
  /\ is_processed event_id s' = (Return true, s')
  /\ forall occurred_at source nba_definition_id enterprise_number account_id
            contact_id create_nba deactivate_nba_ids context,
       process env
         (Payload.mk event_id occurred_at source nba_definition_id
            enterprise_number account_id contact_id create_nba
            deactivate_nba_ids context) s'
       = (Return duplicate_skipped, s').
Proof.
  intros s'.
  assert (Hmono : _processed (snd (mark_processed event_id s)) ⊆ _processed s')
    by apply ledger_run_calls.
  assert (Hin : event_id ∈ _processed s').
  { apply Hmono. simpl. set_solver. }
  split; [exact Hmono|]. split.
  - unfold is_processed, gets. by rewrite bool_decide_eq_true_2.
  - intros. by apply process_duplicate.
Qed.
End Ledger.

(** ** The calculation event processor, phase by phase *)

Section Phases.
Context (env : Env).

Lemma returns_utc_now : returns (utc_now env).
Proof. intros s. by eexists. Qed.

Lemma returns_deactivate_by_id_step acc k :
  returns (deactivate_by_id_step env acc k).
Proof.
  unfold deactivate_by_id_step.
  apply returns_bind; [apply returns_gets|]. intros [existing|].
  - destruct (negb _); [apply returns_ret|].
    repeat (apply returns_bind; [|intros ?]);
      auto using returns_utc_now, returns_modify, returns_ret.
  - apply returns_ret.
Qed.

Lemma returns_deactivate_nbas_by_ids ids :
  returns (deactivate_nbas_by_ids env ids).
Proof. apply returns_for_fold. apply returns_deactivate_by_id_step. Qed.

Lemma returns_deactivate_other_step keep d e a c acc item :
  returns (deactivate_other_step env keep d e a c acc item).
Proof.
  unfold deactivate_other_step. destruct item as [k existing].
  repeat (destruct (_ : bool); [apply returns_ret|]).
  repeat (apply returns_bind; [|intros ?]);
    auto using returns_utc_now, returns_modify, returns_ret.
Qed.

Lemma returns_deactivate_other keep d e a c :
  returns (deactivate_other_active_new_for_scope env keep d e a c).
Proof.
  apply returns_bind; [apply returns_gets|]. intros snapshot.
  apply returns_for_fold. apply returns_deactivate_other_step.
Qed.

Lemma upsert_run event_id d e a c ctx s :
  upsert_from_calculation_event env event_id d e a c ctx s
  = match dict_get (_event_to_nba_id s) event_id with
    | Some k => (Return (dict_get (_nbas s) k), s)
    | None =>
        let nba :=
          NbaRecord.mk
            ("nba_" +:+ String.substring 0 10 (uuid4_hex env (uuid_draws s)))
            d e a c true NBA_STATUS_NEW 0 ctx
            (clock env (clock_reads s)) (clock env (S (clock_reads s))) in
        (Return (Some nba),
         mkState (dict_set (_nbas s) (NbaRecord.id nba) nba)
           (dict_set (_event_to_nba_id s) event_id (NbaRecord.id nba))
           (_events s) (_processed s) (S (S (clock_reads s)))
           (S (uuid_draws s)))
    end.
Proof.
  unfold upsert_from_calculation_event. rewrite bind_run. unfold gets at 1.
  by destruct (dict_get (_event_to_nba_id s) event_id).
Qed.

Lemma deactivation_phase_run p s :
  match default [] (Payload.deactivate_nba_ids p) with
  | [] => ret tt
  | _ :: _ =>
      bind (deactivate_nbas_by_ids env
              (default [] (Payload.deactivate_nba_ids p)))
           (fun _ => ret tt)
  end s
  = (Return tt, after_deactivation env p s).
Proof.
  unfold after_deactivation.
  destruct (default [] (Payload.deactivate_nba_ids p)) as [|k ids]; [done|].
  rewrite bind_run.
  by destruct (returns_run _ s (returns_deactivate_nbas_by_ids (k :: ids)))
    as [n ->].
Qed.

Lemma creation_phase_run p n s :
  bind
    (bind (deactivate_other_active_new_for_scope env (NbaRecord.id n)
             (NbaRecord.nba_definition_id n) (NbaRecord.enterprise_number n)
             (NbaRecord.account_id n) (NbaRecord.contact_id n))
       (fun _ =>
          bind (uuid4_hex10 env) (fun hex =>
          bind (utc_now env) (fun action_at =>
          bind (add (NbaEventLogRecord.mk ("evt_" +:+ hex) (NbaRecord.id n)
                       NBA_STATUS_NEW
                       [("source"%string, Payload.source p);
                        ("occurred_at"%string, Payload.occurred_at p)]
                       None (datetime.mk action_at (Some datetime.utc))))
               (fun _ => ret tt)))))
    (fun _ =>
       bind (mark_processed (Payload.event_id p))
            (fun _ => ret (created (Some n)))) s
  = (Return (created (Some n)),
     after_log_and_mark env p n (after_supersession env n s)).
Proof.
  rewrite !bind_run. unfold after_supersession.
  by destruct (returns_run _ s
                 (returns_deactivate_other (NbaRecord.id n)
                    (NbaRecord.nba_definition_id n)
                    (NbaRecord.enterprise_number n) (NbaRecord.account_id n)
                    (NbaRecord.contact_id n))) as [m ->].
Qed.

(** [process] is the composition of its phases. *)
Lemma process_run p s : process env p s = process_phases env p s.
Proof.
  unfold process, process_phases.
  rewrite bind_run. unfold is_processed, gets.
  destruct (bool_decide (Payload.event_id p ∈ _processed s)); [done|].
  unfold after_insert, new_nba.
  fold (enriched env p).
  destruct (enriched env p) as [account_id enterprise_number].
  rewrite bind_run, deactivation_phase_run.
  destruct (default true (Payload.create_nba p)); simpl; [|done].
  rewrite bind_run, upsert_run.
  destruct (dict_get (_event_to_nba_id (after_deactivation env p s))
              (Payload.event_id p)) as [known|].
  - destruct (dict_get (_nbas (after_deactivation env p s)) known) as [n|];
      [|done].
    rewrite <- creation_phase_run. reflexivity.
  - cbv beta iota zeta. rewrite creation_phase_run. reflexivity.
Qed.
End Phases.

(** ** Deactivation *)

Lemma deactivated_from_refl r : deactivated_from r r.
Proof. by left. Qed.

Lemma deactivated_from_trans r1 r2 r3 :
  deactivated_from r1 r2 -> deactivated_from r2 r3 -> deactivated_from r1 r3.
Proof.
  intros [->|[Ha [t ->]]] H23; [done|].
  destruct H23 as [->|[Ha' _]].
  - right. eauto.
  - discriminate.
Qed.

Lemma deactivated_from_id r r' :
  deactivated_from r r' -> NbaRecord.id r' = NbaRecord.id r.
Proof. by intros [->|[_ [t ->]]]. Qed.

Lemma deactivated_from_scope r r' :
  deactivated_from r r' -> scope_of r' = scope_of r.
Proof. by intros [->|[_ [t ->]]]. Qed.

Lemma deactivated_from_status r r' :
  deactivated_from r r' -> NbaRecord.status r' = NbaRecord.status r.
Proof. by intros [->|[_ [t ->]]]. Qed.

(** Deactivation never makes a record active and new. *)
Lemma deactivated_from_active_new sc r r' :
  deactivated_from r r' ->
  active_new_in sc r' = true -> r' = r.
Proof.
  intros [->|[_ [t ->]]]; [done|].
  unfold active_new_in, active_new. simpl. discriminate.
Qed.

Global Instance only_deactivates_preorder : PreOrder only_deactivates.
Proof.
  split.
  - intros s. repeat split.
    apply dict_rel_refl. intros. apply deactivated_from_refl.
  - intros s1 s2 s3 (Hd & He & Hl & Hp & Hu) (Hd' & He' & Hl' & Hp' & Hu').
    repeat split; try congruence.
    eapply dict_rel_trans; [|exact Hd|exact Hd'].
    intros _. apply deactivated_from_trans.
Qed.

Section Deactivation.
Context (env : Env).

Lemma only_deactivates_utc_now : preserves only_deactivates (utc_now env).
Proof.
  intros s. repeat split. apply dict_rel_refl. intros. apply deactivated_from_refl.
Qed.

(** Switching off the record stored under [k]. *)
Lemma only_deactivates_switch_off s k r now :
  dict_get (_nbas s) k = Some r ->
  NbaRecord.active r = true ->
  only_deactivates s
    (set_nbas (dict_set (_nbas s) k (NbaRecord.replace_active r false now)) s).
Proof.
  intros Hget Hactive. repeat split. simpl.
  eapply dict_rel_set; [|exact Hget|].
  - intros. apply deactivated_from_refl.
  - right. eauto.
Qed.

Lemma only_deactivates_by_id_step acc k :
  preserves only_deactivates (deactivate_by_id_step env acc k).
Proof.
  intros s. unfold deactivate_by_id_step, bind, gets, utc_now, modify, ret.
  destruct (dict_get (_nbas s) k) as [r|] eqn:Hget; [|reflexivity].
  destruct (NbaRecord.active r) eqn:Hactive; simpl; [|reflexivity].
  repeat split. simpl.
  eapply dict_rel_set; [|exact Hget|].
  - intros. apply deactivated_from_refl.
  - right. eauto.
Qed.

Lemma only_deactivates_by_ids ids :
  preserves only_deactivates (deactivate_nbas_by_ids env ids).
Proof.
  apply (preserves_for_fold only_deactivates).
  intros. apply only_deactivates_by_id_step.
Qed.

Lemma only_deactivates_after_deactivation p s :
  only_deactivates s (after_deactivation env p s).
Proof.
  unfold after_deactivation.
  destruct (default [] (Payload.deactivate_nba_ids p)); [reflexivity|].
  apply only_deactivates_by_ids.
Qed.

(** What one turn of the loop over the listed ids does to the store. *)
Lemma by_id_step_get acc k s k' :
  dict_get (_nbas (snd (deactivate_by_id_step env acc k s))) k'
  = match dict_get (_nbas s) k' with
    | Some r =>
        if bool_decide (k' = k) && NbaRecord.active r
        then Some (NbaRecord.replace_active r false (clock env (clock_reads s)))
        else Some r
    | None => None
    end.
Proof.
  unfold deactivate_by_id_step, bind, gets, utc_now, modify, ret.
  destruct (decide (k' = k)) as [->|Hne].
  - rewrite bool_decide_eq_true_2 by done.
    destruct (dict_get (_nbas s) k) as [r|] eqn:Hget; simpl; [|done].
    destruct (NbaRecord.active r); simpl; [|done].
    by rewrite dict_get_set_eq.
  - rewrite (bool_decide_eq_false_2 _ Hne). simpl.
    destruct (dict_get (_nbas s) k) as [r|] eqn:Hget; simpl.
    + destruct (NbaRecord.active r); simpl.
      * rewrite dict_get_set_ne by done. by destruct (dict_get (_nbas s) k').
      * by destruct (dict_get (_nbas s) k').
    + by destruct (dict_get (_nbas s) k').
Qed.

(** The loop over distinct ids switches off exactly the listed records
    that are there and active. *)
Lemma by_ids_loop_get (l : list string) acc s k :
  NoDup l ->
  match dict_get (_nbas s) k with
  | None =>
      dict_get (_nbas (snd (for_fold l acc (deactivate_by_id_step env) s))) k
      = None
  | Some r =>
      if bool_decide (k ∈ l) && NbaRecord.active r
      then exists now,
             dict_get
               (_nbas (snd (for_fold l acc (deactivate_by_id_step env) s))) k
             = Some (NbaRecord.replace_active r false now)
      else dict_get
             (_nbas (snd (for_fold l acc (deactivate_by_id_step env) s))) k
           = Some r
  end.
Proof.
  intros Hl. revert acc s.
  induction Hl as [|x l Hx Hl IH]; intros acc s; simpl.
  - by destruct (dict_get (_nbas s) k).
  - rewrite bind_run.
    destruct (returns_run _ s (returns_deactivate_by_id_step env acc x))
      as [acc' Hrun].
    rewrite Hrun.
    specialize (IH acc' (snd (deactivate_by_id_step env acc x s))).
    rewrite by_id_step_get in IH.
    destruct (dict_get (_nbas s) k) as [r|]; [|exact IH].
    destruct (decide (k = x)) as [->|Hne].
    + rewrite (bool_decide_eq_true_2 (x = x)) in IH by done.
      rewrite (bool_decide_eq_true_2 (x ∈ x :: l)) by left.
      rewrite (bool_decide_eq_false_2 (x ∈ l)) in IH by done.
      destruct (NbaRecord.active r); simpl in *; eauto.
    + rewrite (bool_decide_eq_false_2 (k = x)) in IH by done.
      simpl in IH.
      destruct (decide (k ∈ l)) as [Hin|Hin].
      * rewrite (bool_decide_eq_true_2 _ Hin) in IH.
        rewrite (bool_decide_eq_true_2 (k ∈ x :: l)) by (by right).
        exact IH.
      * rewrite (bool_decide_eq_false_2 _ Hin) in IH.
        rewrite (bool_decide_eq_false_2 (k ∈ x :: l)); [exact IH|].
        rewrite elem_of_cons. tauto.
Qed.
End Deactivation.

(** ** [dict.fromkeys] keeps each id at its first occurrence *)

Lemma filter_filter_andb {A} (f g : A -> bool) (l : list A) :
  List.filter f (List.filter g l) = List.filter (fun x => g x && f x) l.
Proof.
  induction l as [|x l IH]; simpl; [done|].
  destruct (g x); simpl; [|done]. destruct (f x); by rewrite IH.
Qed.

Lemma filter_all {A} (f : A -> bool) (l : list A) :
  (forall x, f x = true) -> List.filter f l = l.
Proof.
  intros Hf. induction l as [|x l IH]; simpl; [done|]. by rewrite Hf, IH.
Qed.

Lemma NoDup_List_filter {A} (f : A -> bool) (l : list A) :
  NoDup l -> NoDup (List.filter f l).
Proof.
  induction 1 as [|x l Hx Hl IH]; simpl; [constructor|].
  destruct (f x); [|done]. constructor; [|done].
  rewrite list_elem_of_In, filter_In, <- list_elem_of_In. tauto.
Qed.

Lemma dict_keys_app {V} (d d' : dict V) :
  dict_keys (d ++ d') = dict_keys d ++ dict_keys d'.
Proof. apply List.map_app. Qed.

Lemma dict_fromkeys_fold_keys (ks : list string) (d : dict unit) :
  dict_keys (fold_left (fun d k => dict_set d k tt) ks d)
  = dict_keys d
    ++ List.filter (fun k => negb (bool_decide (k ∈ dict_keys d)))
                   (first_occurrences ks).
Proof.
  revert d. induction ks as [|x ks IH]; intros d; simpl.
  - by rewrite app_nil_r.
  - rewrite IH, filter_filter_andb.
    destruct (decide (x ∈ dict_keys d)) as [Hin|Hin].
    + rewrite (bool_decide_eq_true_2 _ Hin). simpl.
      rewrite dict_keys_set_present by done. f_equal.
      apply List.filter_ext. intros y.
      destruct (decide (y = x)) as [->|Hne].
      * rewrite (bool_decide_eq_true_2 _ Hin). simpl. by rewrite andb_false_r.
      * by rewrite (bool_decide_eq_false_2 _ Hne).
    + rewrite (bool_decide_eq_false_2 _ Hin). simpl.
      rewrite dict_set_absent by done.
      rewrite dict_keys_app, <- app_assoc. simpl. do 2 f_equal.
      apply List.filter_ext. intros y.
      destruct (decide (y = x)) as [->|Hne].
      * rewrite (bool_decide_eq_true_2 (x = x)) by done.
        rewrite bool_decide_eq_true_2; [done|].
        apply elem_of_app. right. left.
      * rewrite (bool_decide_eq_false_2 _ Hne). simpl. f_equal.
        apply bool_decide_ext. rewrite elem_of_app, list_elem_of_singleton.
        tauto.
Qed.

(** [dict.fromkeys(ks)] lists the ids of [ks], each once, in the order of
    their first occurrences. *)
Lemma dict_fromkeys_keys ks :
  dict_keys (dict_fromkeys ks) = first_occurrences ks.
Proof.
  unfold dict_fromkeys. rewrite dict_fromkeys_fold_keys. simpl.
  by apply filter_all.
Qed.

Lemma first_occurrences_elem_of k l : k ∈ first_occurrences l <-> k ∈ l.
Proof.
  induction l as [|x l IH]; simpl; [done|].
  rewrite !elem_of_cons, list_elem_of_In, filter_In, <- list_elem_of_In, IH.
  rewrite negb_true_iff, bool_decide_eq_false.
  destruct (decide (k = x)); tauto.
Qed.

Lemma first_occurrences_NoDup l : NoDup (first_occurrences l).
Proof.
  induction l as [|x l IH]; simpl; [constructor|].
  constructor.
  - rewrite list_elem_of_In, filter_In, negb_true_iff, bool_decide_eq_false.
    tauto.
  - by apply NoDup_List_filter.
Qed.

Section DeactivateByIds.
Context (env : Env).

Lemma deactivate_nbas_by_ids_get ids s k :
  deactivated_by_ids ids s (snd (deactivate_nbas_by_ids env ids s)) k.
Proof.
  unfold deactivated_by_ids, deactivate_nbas_by_ids.
  rewrite dict_fromkeys_keys.
  pose proof (by_ids_loop_get env (first_occurrences ids) 0 s k
                (first_occurrences_NoDup ids)) as H.
  destruct (dict_get (_nbas s) k) as [r|]; [|exact H].
  by rewrite (bool_decide_ext _ _ (first_occurrences_elem_of k ids)) in H.
Qed.

Lemma after_deactivation_get p s k :
  deactivated_by_ids (default [] (Payload.deactivate_nba_ids p)) s
    (after_deactivation env p s) k.
Proof.
  unfold after_deactivation.
  destruct (default [] (Payload.deactivate_nba_ids p)) as [|x ids] eqn:Hids.
  - unfold deactivated_by_ids.
    destruct (dict_get (_nbas s) k); [|done].
    rewrite bool_decide_eq_false_2; [done|]. apply not_elem_of_nil.
  - apply deactivate_nbas_by_ids_get.
Qed.

(** The count [deactivate_nbas_by_ids] returns never exceeds the number of
    distinct ids it was given. *)
Lemma for_fold_by_ids_count (l : list string) acc s n :
  fst (for_fold l acc (deactivate_by_id_step env) s) = Return n ->
  acc <= n <= acc + Z.of_nat (length l).
Proof.
  revert acc s. induction l as [|x l IH]; intros acc s; simpl.
  - intros [= <-]. lia.
  - rewrite bind_run.
    destruct (deactivate_by_id_step env acc x s) as [[acc'|e] s'] eqn:Hstep;
      [|done].
    intros Hn. apply IH in Hn.
    assert (acc <= acc' <= acc + 1); [|lia].
    revert Hstep.
    unfold deactivate_by_id_step, bind, gets, utc_now, modify, ret.
    destruct (dict_get (_nbas s) x) as [r|]; [|intros [= <- _]; lia].
    destruct (NbaRecord.active r); simpl; intros [= <- _]; lia.
Qed.
End DeactivateByIds.

(** ** Supersession *)

Section Supersession.
Context (env : Env).

(** One turn of the supersession loop, on an item the store still holds. *)
Lemma other_step_spec keep d e a c acc k r s :
  dict_get (_nbas s) k = Some r ->
  let s1 := snd (deactivate_other_step env keep d e a c acc (k, r) s) in
  only_deactivates s s1
  /\ (k <> keep ->
      exists r', dict_get (_nbas s1) k = Some r'
                 /\ active_new_in (d, e, a, c) r' = false)
  /\ (forall k', k' <> k -> dict_get (_nbas s1) k' = dict_get (_nbas s) k').
Proof.
  intros Hget. unfold deactivate_other_step.
  assert (Hsame :
            (k <> keep -> active_new_in (d, e, a, c) r = false) ->
            only_deactivates s s
            /\ (k <> keep ->
                exists r', dict_get (_nbas s) k = Some r'
                           /\ active_new_in (d, e, a, c) r' = false)
            /\ (forall k', k' <> k -> dict_get (_nbas s) k' = dict_get (_nbas s) k')).
  { intros Hr. split; [reflexivity|]. split; [eauto|done]. }
  unfold active_new_in, active_new, scope_of in *.
  destruct (decide (k = keep)) as [->|Hk].
  { rewrite bool_decide_eq_true_2 by done. by apply Hsame. }
  rewrite (bool_decide_eq_false_2 _ Hk).
  destruct (NbaRecord.active r) eqn:Hactive; simpl;
    [|by apply Hsame].
  destruct (decide (NbaRecord.status r = NBA_STATUS_NEW)) as [Hst|Hst];
    [rewrite (bool_decide_eq_false_2 (NbaRecord.status r <> _)) by tauto
    |rewrite (bool_decide_eq_true_2 (NbaRecord.status r <> _)) by done;
     apply Hsame; intros _;
     by rewrite (bool_decide_eq_false_2 _ Hst)].
  destruct (decide (NbaRecord.nba_definition_id r = d)) as [Hd|Hd];
    [rewrite (bool_decide_eq_false_2 (NbaRecord.nba_definition_id r <> _)) by tauto
    |rewrite (bool_decide_eq_true_2 (NbaRecord.nba_definition_id r <> _)) by done;
     apply Hsame; intros _;
     rewrite (bool_decide_eq_false_2 (_ = (d, e, a, c))), andb_false_r by congruence;
     done].
  destruct (decide (NbaRecord.enterprise_number r = e)) as [He|He];
    [rewrite (bool_decide_eq_false_2 (NbaRecord.enterprise_number r <> _)) by tauto
    |rewrite (bool_decide_eq_true_2 (NbaRecord.enterprise_number r <> _)) by done;
     apply Hsame; intros _;
     rewrite (bool_decide_eq_false_2 (_ = (d, e, a, c))), andb_false_r by congruence;
     done].
  destruct (decide (NbaRecord.account_id r = a)) as [Ha|Ha];
    [rewrite (bool_decide_eq_false_2 (NbaRecord.account_id r <> _)) by tauto
    |rewrite (bool_decide_eq_true_2 (NbaRecord.account_id r <> _)) by done;
     apply Hsame; intros _;
     rewrite (bool_decide_eq_false_2 (_ = (d, e, a, c))), andb_false_r by congruence;
     done].
  destruct (decide (NbaRecord.contact_id r = c)) as [Hc|Hc];
    [rewrite (bool_decide_eq_false_2 (NbaRecord.contact_id r <> _)) by tauto
    |rewrite (bool_decide_eq_true_2 (NbaRecord.contact_id r <> _)) by done;
     apply Hsame; intros _;
     rewrite (bool_decide_eq_false_2 (_ = (d, e, a, c))), andb_false_r by congruence;
     done].
  unfold bind, utc_now, modify, ret. simpl.
  split; [|split].
  - repeat split. simpl.
    eapply dict_rel_set; [|exact Hget|].
    + intros. apply deactivated_from_refl.
    + right. eauto.
  - intros _. eexists. split; [apply dict_get_set_eq|]. done.
  - intros k' Hk'. by apply dict_get_set_ne.
Qed.

(** The loop over a snapshot whose keys are distinct and whose items the
    store still holds. *)
Lemma other_loop_spec keep d e a c (items : list (string * NbaRecord.t)) acc s :
  NoDup (dict_keys items) ->
  (forall k r, (k, r) ∈ items -> dict_get (_nbas s) k = Some r) ->
  let s' := snd (for_fold items acc (deactivate_other_step env keep d e a c) s) in
  only_deactivates s s'
  /\ (forall k r, (k, r) ∈ items -> k <> keep ->
      exists r', dict_get (_nbas s') k = Some r'
                 /\ active_new_in (d, e, a, c) r' = false)
  /\ (forall k, k ∉ dict_keys items ->
      dict_get (_nbas s') k = dict_get (_nbas s) k).
Proof.
  revert acc s.
  induction items as [|[k r] items IH]; intros acc s Hnd Hheld; cbn [for_fold].
  - split; [reflexivity|]. split; [|done].
    intros k r Hin. by apply elem_of_nil in Hin.
  - simpl in Hnd. apply NoDup_cons in Hnd as [Hk Hnd].
    rewrite bind_run.
    destruct (returns_run _ s
                (returns_deactivate_other_step env keep d e a c acc (k, r)))
      as [acc' Hrun].
    rewrite Hrun.
    destruct (other_step_spec keep d e a c acc k r s) as (Hod & Hkr & Hframe).
    { apply Hheld. left. }
    set (s1 := snd (deactivate_other_step env keep d e a c acc (k, r) s)) in *.
    destruct (IH acc' s1 Hnd) as (Hod' & Hitems & Hframe').
    { intros k' r' Hin. rewrite Hframe.
      - apply Hheld. by right.
      - intros ->. apply Hk. unfold dict_keys.
        apply list_elem_of_fmap. by exists (k, r'). }
    split; [by etrans|]. split.
    + intros k' r' Hin Hne. apply elem_of_cons in Hin as [[= -> ->]|Hin].
      * rewrite Hframe' by done. by apply Hkr.
      * by apply (Hitems k' r').
    + intros k' Hk'. apply not_elem_of_cons in Hk' as [Hne Hk'].
      rewrite Hframe' by done. by apply Hframe.
Qed.

(** The loop never writes the record stored under [keep]. *)
Lemma other_loop_keep keep d e a c (items : list (string * NbaRecord.t)) acc s :
  dict_get
    (_nbas (snd (for_fold items acc (deactivate_other_step env keep d e a c) s)))
    keep
  = dict_get (_nbas s) keep.
Proof.
  revert acc s.
  induction items as [|[k r] items IH]; intros acc s; cbn [for_fold]; [done|].
  rewrite bind_run.
  destruct (returns_run _ s
              (returns_deactivate_other_step env keep d e a c acc (k, r)))
    as [acc' Hrun].
  rewrite Hrun, IH. clear Hrun IH.
  unfold deactivate_other_step.
  destruct (decide (k = keep)) as [->|Hk].
  - by rewrite bool_decide_eq_true_2.
  - rewrite (bool_decide_eq_false_2 _ Hk).
    repeat (destruct (_ : bool); [done|]).
    unfold bind, utc_now, modify, ret. simpl. by rewrite dict_get_set_ne.
Qed.

(** After supersession for [keep] and a scope, in a store whose keys are
    distinct: records were only switched off, the record under [keep] is
    untouched, and every other record is no longer an active new record of
    that scope. *)
Lemma deactivate_other_spec keep d e a c s :
  NoDup (dict_keys (_nbas s)) ->
  let s' := snd (deactivate_other_active_new_for_scope env keep d e a c s) in
  only_deactivates s s'
  /\ dict_get (_nbas s') keep = dict_get (_nbas s) keep
  /\ (forall k r', dict_get (_nbas s') k = Some r' -> k <> keep ->
      active_new_in (d, e, a, c) r' = false).
Proof.
  intros Hnd. unfold deactivate_other_active_new_for_scope.
  rewrite bind_run. unfold gets, dict_items. cbv beta iota.
  destruct (other_loop_spec keep d e a c (_nbas s) 0 s Hnd)
    as (Hod & Hitems & Hframe).
  { intros k r. by apply dict_elem_of_get. }
  split; [exact Hod|]. split; [apply other_loop_keep|].
  intros k r' Hget' Hne.
  destruct Hod as (Hrel & _).
  pose proof (dict_rel_get _ _ _ k Hrel) as Hk.
  destruct (dict_get (_nbas s) k) as [r|] eqn:Hget; [|congruence].
  destruct (Hitems k r) as (r'' & Hget'' & Hoff); [|done|congruence].
  by apply dict_get_elem_of.
Qed.
End Supersession.

(** ** Counting the active new records of a scope *)

Lemma dict_rel_deactivated_count sc (d d' : dict NbaRecord.t) :
  dict_rel (fun _ => deactivated_from) d d' ->
  (length (List.filter (active_new_in sc) (dict_values d'))
   <= length (List.filter (active_new_in sc) (dict_values d)))%nat.
Proof.
  induction 1 as [|[k r] [k' r'] d d' [_ Hfrom] _ IH]; simpl in *; [done|].
  destruct (active_new_in sc r') eqn:Hr'.
  - rewrite (deactivated_from_active_new sc r r' Hfrom Hr') in Hr'.
    rewrite Hr'. simpl. lia.
  - destruct (active_new_in sc r); simpl; lia.
Qed.

Lemma only_deactivates_count sc s s' :
  only_deactivates s s' ->
  (length (active_new_records sc s') <= length (active_new_records sc s))%nat.
Proof. intros (Hrel & _). by apply dict_rel_deactivated_count. Qed.

(** Storing a record that a test rejects does not raise the number of
    records that pass it. *)
Lemma dict_set_filter_count {V} (f : V -> bool) (d : dict V) k v :
  f v = false ->
  (length (List.filter f (dict_values (dict_set d k v)))
   <= length (List.filter f (dict_values d)))%nat.
Proof.
  intros Hv. induction d as [|[k' v'] d IH]; simpl.
  - by rewrite Hv.
  - destruct (decide (k' = k)); simpl.
    + rewrite Hv. destruct (f v'); simpl; lia.
    + destruct (f v'); simpl; lia.
Qed.

(** When only the record stored under [keep] may pass a test, the records
    that pass it are that one or none. *)
Lemma filter_only_keep {V} (f : V -> bool) (d : dict V) keep :
  NoDup (dict_keys d) ->
  (forall k v, dict_get d k = Some v -> k <> keep -> f v = false) ->
  List.filter f (dict_values d)
  = match dict_get d keep with
    | Some v => if f v then [v] else []
    | None => []
    end.
Proof.
  induction d as [|[k v] d IH]; simpl; [done|].
  intros Hnd Hothers. apply NoDup_cons in Hnd as [Hk Hnd].
  assert (Htail : forall k' v', dict_get d k' = Some v' -> k' <> keep ->
                                f v' = false).
  { intros k' v' Hget Hne. apply (Hothers k'); [|done].
    rewrite decide_False; [done|]. intros ->. apply Hk.
    apply dict_get_is_Some. by eexists. }
  specialize (IH Hnd Htail).
  destruct (decide (k = keep)) as [->|Hne].
  - rewrite IH.
    assert (dict_get d keep = None) as -> by by apply dict_get_None.
    by destruct (f v).
  - rewrite (Hothers k v); [exact IH| by rewrite decide_True | done].
Qed.

(** ** The invariant of the stores *)

Lemma consistent_initial : consistent initial_state.
Proof.
  split; simpl.
  - constructor.
  - constructor.
  - intros e k. discriminate.
  - intros sc. unfold active_new_records. simpl. lia.
Qed.

Lemma dict_rel_keys_are_ids (d d' : dict NbaRecord.t) :
  dict_rel (fun _ => deactivated_from) d d' ->
  Forall (fun kv => NbaRecord.id (snd kv) = fst kv) d ->
  Forall (fun kv => NbaRecord.id (snd kv) = fst kv) d'.
Proof.
  induction 1 as [|[k r] [k' r'] d d' [Hk Hfrom] _ IH]; [done|].
  rewrite !Forall_cons. simpl in *. intros [Hid Hd]. split; [|auto].
  rewrite (deactivated_from_id _ _ Hfrom). congruence.
Qed.

Lemma consistent_only_deactivates s s' :
  consistent s -> only_deactivates s s' -> consistent s'.
Proof.
  intros [Hnd Hids Hcr Hex] Hod.
  pose proof Hod as (Hrel & He & Hl & Hp & Hu).
  split.
  - by rewrite (dict_rel_keys _ _ _ Hrel).
  - by apply (dict_rel_keys_are_ids _ _ Hrel).
  - rewrite He, Hp. exact Hcr.
  - intros sc. etrans; [by apply only_deactivates_count|]. apply Hex.
Qed.

Lemma dict_set_Forall {V} (P : string * V -> Prop) (d : dict V) k v :
  Forall P d -> P (k, v) -> Forall P (dict_set d k v).
Proof.
  intros Hd Hv. induction Hd as [|[k' v'] d Hx Hd IH]; simpl.
  - by constructor.
  - destruct (decide (k' = k)); constructor; auto.
Qed.

(** ** Processing an event that asks for a record *)

Section Creation.
Context (env : Env).

Lemma new_nba_scope p s : scope_of (new_nba env p s) = scope_of_event env p.
Proof. reflexivity. Qed.

Lemma new_nba_active_new p s :
  active_new_in (scope_of_event env p) (new_nba env p s) = true.
Proof.
  unfold active_new_in, active_new. simpl.
  by rewrite !bool_decide_eq_true_2.
Qed.

(** An event that is new to the ledger and to the store, and asks for a
    record: what [process] does, phase by phase. *)
Lemma process_creates p s :
  NoDup (dict_keys (_nbas s)) ->
  Payload.event_id p ∉ _processed s ->
  dict_get (_event_to_nba_id s) (Payload.event_id p) = None ->
  default true (Payload.create_nba p) = true ->
  let sa := after_deactivation env p s in
  let n := new_nba env p sa in
  let sb := after_insert env p sa in
  let sc := after_supersession env n sb in
  process env p s = (Return (created (Some n)), after_log_and_mark env p n sc)
  /\ only_deactivates s sa
  /\ only_deactivates sb sc
  /\ dict_get (_nbas sc) (NbaRecord.id n) = Some n
  /\ (forall k r, dict_get (_nbas sc) k = Some r -> k <> NbaRecord.id n ->
      active_new_in (scope_of_event env p) r = false).
Proof.
  intros Hnd Hseen Htied Hcreate sa n sb sc.
  assert (Hsa : only_deactivates s sa)
    by apply only_deactivates_after_deactivation.
  pose proof Hsa as (Hrel & He & Hl & Hp & Hu).
  assert (Hndb : NoDup (dict_keys (_nbas sb))).
  { apply dict_set_NoDup. by rewrite (dict_rel_keys _ _ _ Hrel). }
  destruct (deactivate_other_spec env (NbaRecord.id n)
              (NbaRecord.nba_definition_id n) (NbaRecord.enterprise_number n)
              (NbaRecord.account_id n) (NbaRecord.contact_id n) sb Hndb)
    as (Hsc & Hkeep & Hothers).
  split.
  - rewrite process_run. unfold process_phases.
    rewrite (bool_decide_eq_false_2 _ Hseen), Hcreate. simpl.
    fold sa. by rewrite He, Htied.
  - split; [exact Hsa|]. split; [exact Hsc|]. split.
    + unfold sc, after_supersession. rewrite Hkeep. apply dict_get_set_eq.
    + exact Hothers.
Qed.

Lemma consistent_process p s : consistent s -> consistent (snd (process env p s)).
Proof.
  intros Hs.
  destruct (decide (Payload.event_id p ∈ _processed s)) as [Hin|Hout].
  { by rewrite process_duplicate. }
  pose proof (consistent_only_deactivates _ _ Hs
                (only_deactivates_after_deactivation env p s)) as Hsa.
  destruct (default true (Payload.create_nba p)) eqn:Hcreate.
  - assert (Htied : dict_get (_event_to_nba_id s) (Payload.event_id p) = None).
    { destruct (dict_get _ _) eqn:Hget; [|done].
      exfalso. apply Hout. by apply (created_are_processed s Hs _ s0). }
    destruct (process_creates p s (keys_unique s Hs) Hout Htied Hcreate)
      as (Hrun & Hod & Hod' & Hkeep & Hothers).
    rewrite Hrun. simpl.
    set (sa := after_deactivation env p s) in *.
    set (n := new_nba env p sa) in *.
    set (sb := after_insert env p sa) in *.
    set (sc := after_supersession env n sb) in *.
    pose proof Hod as (Hrel & He & Hl & Hp & Hu).
    pose proof Hod' as (Hrel' & He' & Hl' & Hp' & Hu').
    destruct Hsa as [Hnd Hids Hcr Hex].
    assert (Hndb : NoDup (dict_keys (_nbas sb))) by by apply dict_set_NoDup.
    split; simpl.
    + by rewrite (dict_rel_keys _ _ _ Hrel').
    + apply (dict_rel_keys_are_ids _ _ Hrel'). by apply dict_set_Forall.
    + rewrite He', Hp'. simpl. intros e k.
      destruct (decide (Payload.event_id p = e)) as [<-|Hne].
      * intros _. apply elem_of_union. right. by apply elem_of_singleton.
      * rewrite dict_get_set_ne by done. intros Hget.
        apply elem_of_union. left. by apply (Hcr e k).
    + intros sc0. unfold active_new_records. simpl.
      destruct (decide (sc0 = scope_of_event env p)) as [->|Hsc].
      * rewrite (filter_only_keep _ _ (NbaRecord.id n)).
        -- rewrite Hkeep. destruct (active_new_in _ _); simpl; lia.
        -- by rewrite (dict_rel_keys _ _ _ Hrel').
        -- exact Hothers.
      * etrans; [apply (dict_rel_deactivated_count sc0 _ _ Hrel')|].
        etrans; [|apply (Hex sc0)]. simpl.
        apply dict_set_filter_count.
        unfold active_new_in. rewrite (bool_decide_eq_false_2 (scope_of n = sc0)).
        -- by rewrite andb_false_r.
        -- intros Heq. apply Hsc. by rewrite <- Heq.
  - rewrite process_run. unfold process_phases.
    rewrite (bool_decide_eq_false_2 _ Hout), Hcreate. simpl.
    destruct Hsa as [Hnd Hids Hcr Hex]. split; simpl; try done.
    intros e k Hget. apply elem_of_union. left. eauto.
Qed.

Lemma consistent_process_all ps s :
  consistent s -> consistent (process_all env ps s).
Proof.
  revert s. induction ps as [|p ps IH]; intros s Hs; simpl; [done|].
  apply IH. by apply consistent_process.
Qed.
End Creation.

(** ** The calculation event processor *)

Section Processor.
Context (env : Env).

(** Whatever the payload, its event id is in the ledger afterwards. *)
Lemma process_marks p s : Payload.event_id p ∈ _processed (snd (process env p s)).
Proof.
  rewrite process_run. unfold process_phases.
  destruct (decide (Payload.event_id p ∈ _processed s)) as [Hin|Hout].
  { by rewrite bool_decide_eq_true_2. }
  rewrite (bool_decide_eq_false_2 _ Hout).
  assert (Hmark : forall X : gset string,
            Payload.event_id p ∈ X ∪ {[Payload.event_id p]}).
  { intros X. apply elem_of_union. right. by apply elem_of_singleton. }
  destruct (negb _); [apply Hmark|].
  destruct (dict_get (_event_to_nba_id _) _) as [k|].
  - destruct (dict_get (_nbas _) k); apply Hmark.
  - apply Hmark.
Qed.

(** C1: a payload with create_nba true, processed twice.  The second call
    returns duplicate_skipped and leaves the whole state as the first call
    left it.  When the store has distinct keys and has not seen the event
    id, the first call creates one record, active and new in the event's
    scope, stores it under its id and ties the event id to it; the keys of
    the store are those it had, with that id added.  And
    [upsert_from_calculation_event] on an event id that is tied to a record
    returns the record stored under the tied id and writes nothing. *)
Theorem process_twice_creates_once (s : State) (p : Payload.t) :
  default true (Payload.create_nba p) = true ->
  let first := process env p s in
  let second := process env p (snd first) in
  second = (Return duplicate_skipped, snd first)
  /\ (NoDup (dict_keys (_nbas s)) ->
      Payload.event_id p ∉ _processed s ->
      dict_get (_event_to_nba_id s) (Payload.event_id p) = None ->
      exists nba,
        fst first = Return (created (Some nba))
        /\ dict_get (_event_to_nba_id (snd first)) (Payload.event_id p)
           = Some (NbaRecord.id nba)
        /\ dict_get (_nbas (snd first)) (NbaRecord.id nba) = Some nba
        /\ NbaRecord.active nba = true
        /\ NbaRecord.status nba = NBA_STATUS_NEW
        /\ scope_of nba = scope_of_event env p
        /\ dict_keys (_nbas (snd first))
           = dict_keys (dict_set (_nbas s) (NbaRecord.id nba) nba)
        /\ (length (_nbas (snd first)) <= S (length (_nbas s)))%nat
        /\ dict_keys (_nbas (snd second)) = dict_keys (_nbas (snd first)))
  /\ (forall s0 k d e a c ctx,
        dict_get (_event_to_nba_id s0) (Payload.event_id p) = Some k ->
        upsert_from_calculation_event env (Payload.event_id p) d e a c ctx s0
        = (Return (dict_get (_nbas s0) k), s0)).
Proof.
  intros Hcreate first second.
  assert (Hsecond : second = (Return duplicate_skipped, snd first)).
  { apply process_duplicate. apply process_marks. }
  split; [exact Hsecond|]. split.
  - intros Hnd Hseen Htied.
    destruct (process_creates env p s Hnd Hseen Htied Hcreate)
      as (Hrun & Hod & Hod' & Hkeep & Hothers).
    set (sa := after_deactivation env p s) in *.
    set (n := new_nba env p sa) in *.
    set (sb := after_insert env p sa) in *.
    set (sc := after_supersession env n sb) in *.
    pose proof Hod as (Hrel & He & Hl & Hp & Hu).
    pose proof Hod' as (Hrel' & He' & Hl' & Hp' & Hu').
    assert (Hkeys : dict_keys (_nbas sc)
                    = dict_keys (dict_set (_nbas s) (NbaRecord.id n) n)).
    { rewrite (dict_rel_keys _ _ _ Hrel'). simpl.
      rewrite !dict_keys_set, (dict_rel_keys _ _ _ Hrel). done. }
    exists n. rewrite Hsecond. subst first. rewrite Hrun. simpl.
    split; [done|]. split; [rewrite He'; apply dict_get_set_eq|].
    split; [exact Hkeep|]. split; [done|]. split; [done|]. split; [done|].
    split; [exact Hkeys|]. split; [|done].
    rewrite <- (length_map fst (_nbas sc)), <- (length_map fst (_nbas s)).
    fold (dict_keys (_nbas sc)). fold (dict_keys (_nbas s)).
    rewrite Hkeys, dict_keys_set.
    destruct (decide _); [lia|]. rewrite length_app. simpl. lia.
  - intros s0 k d e a c ctx Htied. by rewrite upsert_run, Htied.
Qed.

(** C5, as the code has it: a payload with create_nba false whose event id
    the ledger does not hold yet.  [process] returns deactivated_only; every
    listed record that is there and active is switched off and every other
    record is as it was; the store has the keys it had, so no record was
    created; the log and the event ties are as they were; the ledger has
    gained the event id.  The repository visits the listed ids once each, in
    the order of their first occurrences. *)
Theorem process_deactivate_only (s : State) (p : Payload.t) (ids : list string) :
  default true (Payload.create_nba p) = false ->
  default [] (Payload.deactivate_nba_ids p) = ids ->
  Payload.event_id p ∉ _processed s ->
  let s' := snd (process env p s) in
  fst (process env p s) = Return deactivated_only
  /\ (forall k, deactivated_by_ids ids s s' k)
  /\ dict_keys (_nbas s') = dict_keys (_nbas s)
  /\ _event_to_nba_id s' = _event_to_nba_id s
  /\ _events s' = _events s
  /\ _processed s' = _processed s ∪ {[ Payload.event_id p ]}
  /\ deactivate_nbas_by_ids env ids
     = for_fold (first_occurrences ids) 0 (deactivate_by_id_step env).
Proof.
  intros Hcreate Hids Hseen s'. subst s'.
  rewrite process_run. unfold process_phases.
  rewrite (bool_decide_eq_false_2 _ Hseen), Hcreate. simpl.
  pose proof (only_deactivates_after_deactivation env p s)
    as (Hrel & He & Hl & Hp & Hu).
  split; [done|]. split.
  { intros k. rewrite <- Hids. unfold deactivated_by_ids. simpl.
    apply (after_deactivation_get env p s k). }
  split; [by rewrite (dict_rel_keys _ _ _ Hrel)|].
  split; [done|]. split; [done|]. split; [by rewrite Hp|].
  unfold deactivate_nbas_by_ids. by rewrite dict_fromkeys_keys.
Qed.
End Processor.

Section Exclusivity.
Context (env : Env).

Lemma scope_of_event_ext p1 p2 :
  Payload.nba_definition_id p1 = Payload.nba_definition_id p2 ->
  Payload.enterprise_number p1 = Payload.enterprise_number p2 ->
  Payload.account_id p1 = Payload.account_id p2 ->
  Payload.contact_id p1 = Payload.contact_id p2 ->
  scope_of_event env p1 = scope_of_event env p2.
Proof.
  intros Hd He Ha Hc. unfold scope_of_event, enriched.
  by rewrite Hd, He, Ha, Hc.
Qed.

(** In a consistent store, two new events that ask for a record in the same
    scope: the second leaves its own record as the only active new one of
    the scope, and the first one's record switched off. *)
Lemma process_two_in_scope s p1 p2 :
  consistent s ->
  default true (Payload.create_nba p1) = true ->
  default true (Payload.create_nba p2) = true ->
  scope_of_event env p1 = scope_of_event env p2 ->
  Payload.event_id p1 <> Payload.event_id p2 ->
  Payload.event_id p1 ∉ _processed s ->
  Payload.event_id p2 ∉ _processed s ->
  exists n1 n2,
    process env p1 s = (Return (created (Some n1)), snd (process env p1 s))
    /\ process env p2 (snd (process env p1 s))
       = (Return (created (Some n2)),
          snd (process env p2 (snd (process env p1 s))))
    /\ scope_of n1 = scope_of_event env p1
    /\ scope_of n2 = scope_of_event env p1
    /\ active_new_records (scope_of_event env p1)
         (snd (process env p2 (snd (process env p1 s)))) = [n2]
    /\ (NbaRecord.id n1 <> NbaRecord.id n2 ->
        exists now,
          dict_get (_nbas (snd (process env p2 (snd (process env p1 s)))))
                   (NbaRecord.id n1)
          = Some (NbaRecord.replace_active n1 false now)).
Proof.
  intros Hs Hc1 Hc2 Hscope Hne Hseen1 Hseen2.
  assert (Hunseen : forall s0 e, consistent s0 -> e ∉ _processed s0 ->
                      dict_get (_event_to_nba_id s0) e = None).
  { intros s0 e H0 He. destruct (dict_get _ e) eqn:Hget; [|done].
    exfalso. apply He. by apply (created_are_processed s0 H0 _ s1). }
  destruct (process_creates env p1 s (keys_unique s Hs) Hseen1
              (Hunseen s _ Hs Hseen1) Hc1)
    as (Hrun1 & Hod1 & Hod1' & Hkeep1 & _).
  pose proof (consistent_process env p1 s Hs) as Hs1.
  set (n1 := new_nba env p1 (after_deactivation env p1 s)) in *.
  rewrite Hrun1 in Hs1 |- *. cbn [snd] in Hs1 |- *.
  set (s1 := after_log_and_mark env p1 n1 _) in *.
  assert (Hseen2' : Payload.event_id p2 ∉ _processed s1).
  { pose proof Hod1 as (_ & _ & _ & Hp & _).
    pose proof Hod1' as (_ & _ & _ & Hp' & _).
    subst s1. simpl. rewrite Hp'. simpl. rewrite Hp.
    rewrite elem_of_union, elem_of_singleton. intros [?|?]; congruence. }
  destruct (process_creates env p2 s1 (keys_unique s1 Hs1) Hseen2'
              (Hunseen s1 _ Hs1 Hseen2') Hc2)
    as (Hrun2 & Hod2 & Hod2' & Hkeep2 & Hothers2).
  set (sa2 := after_deactivation env p2 s1) in *.
  set (n2 := new_nba env p2 sa2) in *.
  set (sb2 := after_insert env p2 sa2) in *.
  set (sc2 := after_supersession env n2 sb2) in *.
  rewrite Hrun2. cbn [snd].
  exists n1, n2. split; [done|]. split; [done|].
  split; [done|]. split; [by rewrite Hscope|].
  pose proof Hod2 as (Hrel2 & _). pose proof Hod2' as (Hrel2' & _).
  assert (Hnd2 : NoDup (dict_keys (_nbas sc2))).
  { rewrite (dict_rel_keys _ _ _ Hrel2'). apply dict_set_NoDup.
    rewrite (dict_rel_keys _ _ _ Hrel2). apply (keys_unique s1 Hs1). }
  split.
  - unfold active_new_records. cbn [after_log_and_mark _nbas].
    rewrite (filter_only_keep _ _ (NbaRecord.id n2) Hnd2).
    + pose proof (new_nba_active_new env p2 sa2) as Han. fold n2 in Han.
      by rewrite Hkeep2, Hscope, Han.
    + intros k r Hget Hk. rewrite Hscope. by apply (Hothers2 k r).
  - intros Hids. cbn [after_log_and_mark _nbas].
    pose proof (dict_rel_get _ _ _ (NbaRecord.id n1) Hrel2) as Hget.
    replace (dict_get (_nbas s1) (NbaRecord.id n1)) with (Some n1) in Hget
      by (symmetry; exact Hkeep1).
    destruct Hget as (r & Hget & Hfrom).
    pose proof (dict_rel_get _ _ _ (NbaRecord.id n1) Hrel2') as Hget'.
    replace (dict_get (_nbas sb2) (NbaRecord.id n1)) with (Some r) in Hget'.
    2:{ subst sb2. simpl. rewrite dict_get_set_ne; [done|]. by intros ?. }
    destruct Hget' as (r' & Hget' & Hfrom').
    pose proof (deactivated_from_trans _ _ _ Hfrom Hfrom') as [->|[_ [t ->]]].
    + exfalso.
      assert (active_new_in (scope_of_event env p2) n1 = false) as Hoff
        by (apply (Hothers2 (NbaRecord.id n1)); [exact Hget'|done]).
      rewrite <- Hscope in Hoff.
      pose proof (new_nba_active_new env p1 (after_deactivation env p1 s)) as Han.
      fold n1 in Han. congruence.
    + eauto.
Qed.

(** C2: after any sequence of calculation events, processed one after the
    other from the empty stores, every scope tuple has at most one record
    that is active and new.  From such a state, two events with different
    ids that the ledger does not hold yet, both with create_nba true and
    the same scope fields, are both answered with created; afterwards the
    second one's record is the only active new record of the scope, and
    the first one's record, stored under its own id, is switched off. *)
Theorem scope_exclusivity (events : list Payload.t) :
  let s := process_all env events initial_state in
  (forall sc, (length (active_new_records sc s) <= 1)%nat)
  /\ forall p1 p2,
       default true (Payload.create_nba p1) = true ->
       default true (Payload.create_nba p2) = true ->
       Payload.nba_definition_id p1 = Payload.nba_definition_id p2 ->
       Payload.enterprise_number p1 = Payload.enterprise_number p2 ->
       Payload.account_id p1 = Payload.account_id p2 ->
       Payload.contact_id p1 = Payload.contact_id p2 ->
       Payload.event_id p1 <> Payload.event_id p2 ->
       Payload.event_id p1 ∉ _processed s ->
       Payload.event_id p2 ∉ _processed s ->
       let s2 := process_all env [p1; p2] s in
       exists n1 n2,
         fst (process env p1 s) = Return (created (Some n1))
         /\ fst (process env p2 (snd (process env p1 s)))
            = Return (created (Some n2))
         /\ scope_of n1 = scope_of n2
         /\ active_new_records (scope_of n2) s2 = [n2]
         /\ (NbaRecord.id n1 <> NbaRecord.id n2 ->
             exists r1,
               dict_get (_nbas s2) (NbaRecord.id n1) = Some r1
               /\ NbaRecord.active r1 = false
               /\ scope_of r1 = scope_of n1).
Proof.
  intros s.
  assert (Hs : consistent s)
    by (apply consistent_process_all, consistent_initial).
  split; [apply (scope_exclusive s Hs)|].
  intros p1 p2 Hc1 Hc2 Hd He Ha Hc Hne Hseen1 Hseen2 s2.
  destruct (process_two_in_scope s p1 p2 Hs Hc1 Hc2
              (scope_of_event_ext p1 p2 Hd He Ha Hc) Hne Hseen1 Hseen2)
    as (n1 & n2 & Hrun1 & Hrun2 & Hsc1 & Hsc2 & Honly & Hoff).
  exists n1, n2. subst s2. cbn [process_all].
  split; [by rewrite Hrun1|]. split; [by rewrite Hrun2|].
  split; [congruence|]. split; [by rewrite Hsc2|].
  intros Hids. destruct (Hoff Hids) as [now Hget].
  eexists. split; [exact Hget|]. done.
Qed.
End Exclusivity.

(** ** The processor on the sample data *)

Lemma process_twice_creates_once_witness :
  process sample_env sample_event_1
    (snd (process sample_env sample_event_1 initial_state))
  = (Return duplicate_skipped,
     snd (process sample_env sample_event_1 initial_state))
  /\ exists nba,
       fst (process sample_env sample_event_1 initial_state)
       = Return (created (Some nba))
       /\ dict_get (_nbas (snd (process sample_env sample_event_1 initial_state)))
                   (NbaRecord.id nba) = Some nba
       /\ dict_keys (_nbas (snd (process sample_env sample_event_1 initial_state)))
          = [NbaRecord.id nba].
Proof.
  destruct (process_twice_creates_once sample_env initial_state sample_event_1
              eq_refl) as (Hsecond & Hfirst & _).
  split; [exact Hsecond|].
  destruct Hfirst as (nba & Hrun & _ & Hget & _ & _ & _ & Hkeys & _).
  - constructor.
  - apply not_elem_of_empty.
  - reflexivity.
  - exists nba. split; [exact Hrun|]. split; [exact Hget|]. exact Hkeys.
Defined.

Lemma process_deactivate_only_witness :
  fst (process sample_env sample_deactivate_event sample_state_1)
  = Return deactivated_only
  /\ (exists now,
        dict_get (_nbas sample_state_deactivated) "nba_0a1b2c3d4e"
        = Some (NbaRecord.replace_active sample_nba_1 false now))
  /\ dict_get (_nbas sample_state_deactivated) "nba_ffffffffff" = None.
Proof.
  destruct (process_deactivate_only sample_env sample_state_1
              sample_deactivate_event
              ["nba_0a1b2c3d4e"; "nba_ffffffffff"; "nba_0a1b2c3d4e"]%string
              eq_refl eq_refl) as (Hrun & Hget & _).
  - refine (bool_decide_eq_false_1 _ _). vm_compute. reflexivity.
  - split; [exact Hrun|]. split.
    + exact (Hget "nba_0a1b2c3d4e"%string).
    + exact (Hget "nba_ffffffffff"%string).
Defined.

(** C5 fails as stated.  A deactivate-only event that is delivered a second
    time is answered with duplicate_skipped, not deactivated_only.  And a
    deactivate-only payload that bears an event id the ledger already holds
    leaves the record it lists active. *)
Lemma process_deactivate_only_counterexample :
  (Payload.create_nba sample_deactivate_event = Some false
   /\ Payload.deactivate_nba_ids sample_deactivate_event
      = Some ["nba_0a1b2c3d4e"; "nba_ffffffffff"; "nba_0a1b2c3d4e"]%string
   /\ fst (process sample_env sample_deactivate_event sample_state_deactivated)
      = Return duplicate_skipped
   /\ duplicate_skipped <> deactivated_only)
  /\ (Payload.create_nba sample_reused_id_event = Some false
      /\ Payload.deactivate_nba_ids sample_reused_id_event
         = Some ["nba_0a1b2c3d4e"%string]
      /\ NbaRecord.active <$> dict_get (_nbas sample_state_1) "nba_0a1b2c3d4e"
         = Some true
      /\ process sample_env sample_reused_id_event sample_state_1
         = (Return duplicate_skipped, sample_state_1)).
Proof.
  split.
  - split; [reflexivity|]. split; [reflexivity|].
    split; [|discriminate].
    rewrite process_duplicate; [reflexivity|]. apply process_marks.
  - split; [reflexivity|]. split; [reflexivity|]. split; [reflexivity|].
    apply process_duplicate.
    exact (process_marks sample_env sample_event_1 initial_state).
Qed.

Lemma scope_exclusivity_witness :
  exists n1 n2,
    fst (process sample_env sample_event_1 initial_state)
    = Return (created (Some n1))
    /\ fst (process sample_env sample_event_2 sample_state_1)
       = Return (created (Some n2))
    /\ active_new_records (scope_of n2)
         (process_all sample_env [sample_event_1; sample_event_2] initial_state)
       = [n2]
    /\ NbaRecord.active
       <$> dict_get
             (_nbas (process_all sample_env [sample_event_1; sample_event_2]
                       initial_state))
             "nba_0a1b2c3d4e"
       = Some false.
Proof.
  destruct (scope_exclusivity sample_env []) as [_ Htwo].
  destruct (Htwo sample_event_1 sample_event_2)
    as (n1 & n2 & Hrun1 & Hrun2 & _ & Honly & _);
    try reflexivity; try discriminate; try apply not_elem_of_empty.
  exists n1, n2. split; [exact Hrun1|]. split; [exact Hrun2|].
  split; [exact Honly|]. reflexivity.
Defined.

(** ** States the services build *)

Section Services.
Context (env : Env).

Lemma dict_rel_deactivated_status (d d' : dict NbaRecord.t) k r :
  dict_rel (fun _ => deactivated_from) d d' ->
  dict_get d k = Some r ->
  exists r', dict_get d' k = Some r' /\ NbaRecord.status r' = NbaRecord.status r.
Proof.
  intros Hrel Hget. pose proof (dict_rel_get _ _ _ k Hrel) as H.
  rewrite Hget in H. destruct H as (r' & Hget' & Hfrom).
  exists r'. split; [done|]. by apply deactivated_from_status.
Qed.

Lemma actions_match_status_only_deactivates s s' :
  only_deactivates s s' -> actions_match_status s -> actions_match_status s'.
Proof.
  intros (Hrel & _ & Hl & _) Hs ev Hin Hby. rewrite Hl in Hin.
  destruct (Hs ev Hin Hby) as (r & Hget & Hst & Hact).
  destruct (dict_rel_deactivated_status _ _ _ _ Hrel Hget) as (r' & Hget' & Hst').
  exists r'. split; [done|]. split; [congruence|done].
Qed.

Lemma ids_were_drawn_only_deactivates s s' :
  only_deactivates s s' -> ids_were_drawn env s -> ids_were_drawn env s'.
Proof.
  intros (Hrel & _ & _ & _ & Hu). unfold ids_were_drawn.
  by rewrite (dict_rel_keys _ _ _ Hrel), Hu.
Qed.

Global Instance draws_grow_preorder : PreOrder draws_grow.
Proof. split; unfold draws_grow; [intros s | intros s1 s2 s3]; lia. Qed.

Lemma draws_utc_now : preserves draws_grow (utc_now env).
Proof. intros s. unfold draws_grow. simpl. lia. Qed.

Lemma draws_uuid4_hex10 : preserves draws_grow (uuid4_hex10 env).
Proof. intros s. unfold draws_grow. simpl. lia. Qed.

Ltac draws_step :=
  first
    [ apply (preserves_ret draws_grow)
    | apply (preserves_raise draws_grow)
    | apply (preserves_gets draws_grow)
    | apply draws_utc_now
    | apply draws_uuid4_hex10
    | apply (preserves_modify draws_grow); intros ?;
      unfold draws_grow; simpl; lia
    | apply (preserves_bind draws_grow); [|intros ?]
    | apply (preserves_for_fold draws_grow); intros ? ?
    | match goal with
      | |- preserves _ (match ?x with _ => _ end) => destruct x
      end ].

Lemma draws_register_action k st at_ c u :
  preserves draws_grow (register_action env k st at_ c u).
Proof.
  unfold register_action, get_nba, assert_nba_access, find_action_event,
    update_status, add.
  repeat draws_step.
Qed.

Lemma draws_process p : preserves draws_grow (process env p).
Proof.
  unfold process, is_processed, mark_processed, deactivate_nbas_by_ids,
    deactivate_by_id_step, upsert_from_calculation_event,
    deactivate_other_active_new_for_scope, deactivate_other_step, add.
  repeat draws_step.
Qed.

Lemma draws_run_calls calls s :
  Forall is_service_call calls -> draws_grow s (run_calls env calls s).
Proof.
  intros Hcalls. revert s.
  induction Hcalls as [|c calls Hc _ IH]; intros s; [reflexivity|].
  cbn [run_calls fold_left]. etrans; [|apply IH].
  destruct c; try destruct Hc; cbn [run_call].
  - reflexivity.
  - apply (draws_register_action _ _ _ _ _ s).
  - apply (draws_process _ s).
Qed.

Lemma fresh_until_le n m :
  (n <= m)%nat -> fresh_until env m -> fresh_until env n.
Proof. intros Hle Hm i j Hi Hj. apply Hm; lia. Qed.

(** A uuid that has not collided with the earlier ones gives an id the
    store does not hold. *)
Lemma drawn_id_is_new s :
  fresh_until env (S (uuid_draws s)) -> ids_were_drawn env s ->
  ("nba_" +:+ String.substring 0 10 (uuid4_hex env (uuid_draws s)))
  ∉ dict_keys (_nbas s).
Proof.
  intros Hfresh Hdrawn Hin.
  unfold ids_were_drawn in Hdrawn. rewrite Forall_forall in Hdrawn.
  destruct (Hdrawn _ Hin) as (i & Hi & Heq).
  simpl in Heq. injection Heq as Heq. apply Hfresh in Heq; lia.
Qed.

Lemma services_process p s :
  fresh_until env (uuid_draws (snd (process env p s))) ->
  consistent s /\ ids_were_drawn env s /\ actions_match_status s ->
  consistent (snd (process env p s))
  /\ ids_were_drawn env (snd (process env p s))
  /\ actions_match_status (snd (process env p s)).
Proof.
  intros Hfresh (Hs & Hdrawn & Hlog).
  split; [by apply consistent_process|].
  destruct (decide (Payload.event_id p ∈ _processed s)) as [Hin|Hout].
  { by rewrite process_duplicate. }
  pose proof (only_deactivates_after_deactivation env p s) as Hod.
  pose proof (ids_were_drawn_only_deactivates _ _ Hod Hdrawn) as Hdrawn_a.
  pose proof (actions_match_status_only_deactivates _ _ Hod Hlog) as Hlog_a.
  destruct (default true (Payload.create_nba p)) eqn:Hcreate.
  - assert (Htied : dict_get (_event_to_nba_id s) (Payload.event_id p) = None).
    { destruct (dict_get _ _) eqn:Hget; [|done].
      exfalso. apply Hout. by apply (created_are_processed s Hs _ s0). }
    destruct (process_creates env p s (keys_unique s Hs) Hout Htied Hcreate)
      as (Hrun & _ & Hod' & _ & _).
    rewrite Hrun in Hfresh |- *. cbn [snd] in Hfresh |- *.
    set (sa := after_deactivation env p s) in *.
    set (n := new_nba env p sa) in *.
    set (sb := after_insert env p sa) in *.
    set (sc := after_supersession env n sb) in *.
    assert (Hnew : ("nba_" +:+ String.substring 0 10
                                 (uuid4_hex env (uuid_draws sa)))
                   ∉ dict_keys (_nbas sa)).
    { apply drawn_id_is_new; [|done].
      eapply fresh_until_le; [|exact Hfresh].
      destruct Hod' as (_ & _ & _ & _ & Hu). simpl. rewrite Hu. simpl. lia. }
    assert (Hdrawn_b : ids_were_drawn env sb).
    { unfold ids_were_drawn, sb. simpl. rewrite dict_keys_set.
      rewrite decide_False by exact Hnew.
      apply Forall_app. split.
      - eapply Forall_impl; [exact Hdrawn_a|].
        intros k (i & Hi & ->). exists i. split; [lia|done].
      - constructor; [|constructor]. exists (uuid_draws sa). split; [lia|done]. }
    assert (Hlog_b : actions_match_status sb).
    { intros ev Hin Hby.
      destruct (Hlog_a ev Hin Hby) as (r & Hget & Hst & Hact).
      exists r. split; [|done]. unfold sb. simpl.
      rewrite dict_get_set_ne; [done|]. intros Heq. apply Hnew.
      apply dict_get_is_Some. rewrite Heq. by eexists. }
    split.
    + pose proof (ids_were_drawn_only_deactivates _ _ Hod' Hdrawn_b) as Hc.
      unfold ids_were_drawn in *. simpl.
      eapply Forall_impl; [exact Hc|].
      intros k (i & Hi & ->). exists i. split; [lia|done].
    + pose proof (actions_match_status_only_deactivates _ _ Hod' Hlog_b) as Hc.
      intros ev Hin Hby. simpl in Hin.
      apply elem_of_app in Hin as [Hin|Hin].
      * by apply Hc.
      * apply list_elem_of_singleton in Hin. subst ev. discriminate.
  - rewrite process_run. unfold process_phases.
    rewrite (bool_decide_eq_false_2 _ Hout), Hcreate. by simpl.
Qed.

Lemma services_register_action k st at_ c u s :
  consistent s /\ ids_were_drawn env s /\ actions_match_status s ->
  consistent (snd (register_action env k st at_ c u s))
  /\ ids_were_drawn env (snd (register_action env k st at_ c u s))
  /\ actions_match_status (snd (register_action env k st at_ c u s)).
Proof.
  intros (Hs & Hdrawn & Hlog).
  destruct (decide (st ∈ ACTION_STATUSES)) as [Hst|Hst];
    [|by rewrite register_action_invalid].
  destruct (dict_get (_nbas s) k) as [nba|] eqn:Hget;
    [|by rewrite register_action_not_found].
  destruct (decide (NbaRecord.status nba ∈ ACTION_STATUSES)) as [Hterm|Hnew].
  { rewrite (register_action_terminal env _ _ _ _ _ _ nba) by done.
    by destruct (if bool_decide _ then _ else _). }
  rewrite (register_action_first env _ _ _ _ _ _ nba) by done. cbn [snd].
  assert (Hin : k ∈ dict_keys (_nbas s))
    by (apply dict_get_is_Some; by eexists).
  assert (Hoff : forall sc now,
            active_new_in sc (NbaRecord.replace_status nba st now) = false).
  { intros sc now. unfold active_new_in, active_new. simpl.
    rewrite (bool_decide_eq_false_2 (st = NBA_STATUS_NEW)).
    - by rewrite andb_false_r.
    - intros ->. by apply new_is_not_an_action_status. }
  destruct Hs as [Hnd Hids Hcr Hex].
  split; [split; simpl|split].
  - by apply dict_set_NoDup.
  - apply dict_set_Forall; [done|]. simpl.
    apply dict_get_elem_of in Hget. rewrite Forall_forall in Hids.
    apply (Hids _ Hget).
  - exact Hcr.
  - intros sc. unfold active_new_records. simpl.
    etrans; [by apply dict_set_filter_count|]. apply Hex.
  - unfold ids_were_drawn in *. simpl.
    rewrite dict_keys_set_present by done.
    eapply Forall_impl; [exact Hdrawn|].
    intros k' (i & Hi & ->). exists i. split; [lia|done].
  - intros ev Hev Hby. simpl in Hev |- *.
    apply elem_of_app in Hev as [Hev|Hev].
    + destruct (Hlog ev Hev Hby) as (r & Hget' & Hstatus & Hact).
      destruct (decide (NbaEventLogRecord.nba_id ev = k)) as [Heq|Hne].
      * exfalso. apply Hnew. rewrite Heq, Hget in Hget'.
        injection Hget' as ->. by rewrite Hstatus.
      * exists r. by rewrite dict_get_set_ne.
    + apply list_elem_of_singleton in Hev. subst ev. simpl.
      eexists. split; [apply dict_get_set_eq|]. done.
Qed.

(** What every state reached from the empty stores through the services
    satisfies, as long as no generated id has collided. *)
Lemma services_invariant (calls : list Call) :
  Forall is_service_call calls ->
  fresh_until env (uuid_draws (run_calls env calls initial_state)) ->
  consistent (run_calls env calls initial_state)
  /\ ids_were_drawn env (run_calls env calls initial_state)
  /\ actions_match_status (run_calls env calls initial_state).
Proof.
  intros Hcalls.
  assert (Hinit : consistent initial_state /\ ids_were_drawn env initial_state
                  /\ actions_match_status initial_state).
  { split; [apply consistent_initial|]. split; [constructor|].
    intros ev Hin. by apply elem_of_nil in Hin. }
  revert Hinit. generalize initial_state.
  induction Hcalls as [|c calls Hc Hcalls IH]; intros s Hs Hfresh; [done|].
  cbn [run_calls fold_left] in Hfresh |- *. apply IH; [|exact Hfresh].
  assert (Hstep : fresh_until env (uuid_draws (run_call env c s))).
  { eapply fresh_until_le; [|exact Hfresh]. by apply draws_run_calls. }
  destruct c; try destruct Hc; cbn [run_call] in Hstep |- *.
  - done.
  - by apply services_register_action.
  - by apply services_process.
Qed.

(** In such a state the log holds no action of a user for a record whose
    status is still new. *)
Lemma services_no_action_on_new (calls : list Call) nba_id nba st ev :
  Forall is_service_call calls ->
  fresh_until env (uuid_draws (run_calls env calls initial_state)) ->
  dict_get (_nbas (run_calls env calls initial_state)) nba_id = Some nba ->
  NbaRecord.status nba = NBA_STATUS_NEW ->
  ev ∈ _events (run_calls env calls initial_state) ->
  NbaEventLogRecord.nba_id ev = nba_id ->
  NbaEventLogRecord.status ev = st ->
  truthy (NbaEventLogRecord.acted_by ev) = false.
Proof.
  intros Hcalls Hfresh Hget Hnew Hin Hid Hst.
  destruct (services_invariant calls Hcalls Hfresh) as (_ & _ & Hlog).
  destruct (truthy _) eqn:Hby; [|done].
  destruct (Hlog ev Hin Hby) as (r & Hget' & Hstatus & Hact).
  rewrite Hid, Hget in Hget'. injection Hget' as <-.
  exfalso. apply new_is_not_an_action_status. by rewrite <- Hnew, Hstatus.
Qed.
End Services.

(** ** What every call preserves *)

(** A preorder on states that each elementary step respects is respected
    by every call.  The steps are: reading the clock, drawing a uuid,
    storing a record, tying a new event id to a record, appending to the
    log and marking an event. *)
Section EveryCall.
Context (env : Env) (R : State -> State -> Prop) `{!PreOrder R}.
Hypothesis R_clock : forall s, R s (snd (utc_now env s)).
Hypothesis R_uuid : forall s, R s (snd (uuid4_hex10 env s)).
Hypothesis R_store : forall s k v, R s (set_nbas (dict_set (_nbas s) k v) s).
Hypothesis R_tie : forall s e k,
  dict_get (_event_to_nba_id s) e = None ->
  R s (set_event_to_nba_id (dict_set (_event_to_nba_id s) e k) s).
Hypothesis R_log : forall s ev, R s (set_events (_events s ++ [ev]) s).
Hypothesis R_mark : forall s e, R s (set_processed (_processed s ∪ {[ e ]}) s).

Ltac every_step :=
  first
    [ apply (preserves_ret R)
    | apply (preserves_raise R)
    | apply (preserves_gets R)
    | (intros ?; apply R_clock)
    | (intros ?; apply R_uuid)
    | (apply (preserves_modify R); intros ?;
       first [apply R_store | apply R_log | apply R_mark])
    | apply (preserves_bind R); [|intros ?]
    | apply (preserves_for_fold R); intros ? ?
    | match goal with
      | |- preserves _ (match ?x with _ => _ end) => destruct x
      end ].

Lemma every_upsert ev d e a c ctx :
  preserves R (upsert_from_calculation_event env ev d e a c ctx).
Proof.
  intros s. rewrite upsert_run.
  destruct (dict_get (_event_to_nba_id s) ev) eqn:Htied; [reflexivity|].
  cbv zeta. cbn [snd].
  set (nba := NbaRecord.mk _ _ _ _ _ _ _ _ _ _ _).
  set (s1 := snd (uuid4_hex10 env s)).
  set (s2 := snd (utc_now env s1)).
  set (s3 := snd (utc_now env s2)).
  set (s4 := set_nbas (dict_set (_nbas s3) (NbaRecord.id nba) nba) s3).
  transitivity s1; [apply R_uuid|]. transitivity s2; [apply R_clock|].
  transitivity s3; [apply R_clock|]. transitivity s4; [apply R_store|].
  change (R s4 (set_event_to_nba_id
                  (dict_set (_event_to_nba_id s4) ev (NbaRecord.id nba)) s4)).
  apply R_tie. exact Htied.
Qed.

Lemma every_update_status k st : preserves R (update_status env k st).
Proof. unfold update_status. repeat every_step. Qed.

Lemma every_deactivate_other k d e a c :
  preserves R (deactivate_other_active_new_for_scope env k d e a c).
Proof.
  unfold deactivate_other_active_new_for_scope, deactivate_other_step.
  repeat every_step.
Qed.

Lemma every_deactivate_by_ids ids :
  preserves R (deactivate_nbas_by_ids env ids).
Proof. unfold deactivate_nbas_by_ids, deactivate_by_id_step. repeat every_step. Qed.

Lemma every_add ev : preserves R (add ev).
Proof. unfold add. repeat every_step. Qed.

Lemma every_register_action k st at_ c u :
  preserves R (register_action env k st at_ c u).
Proof.
  unfold register_action, get_nba, assert_nba_access, find_action_event.
  repeat first [ apply every_update_status | apply every_add | every_step ].
Qed.

Lemma every_process p : preserves R (process env p).
Proof.
  unfold process, is_processed, mark_processed.
  repeat first
    [ apply every_deactivate_by_ids
    | apply every_upsert
    | apply every_deactivate_other
    | apply every_add
    | every_step ].
Qed.

Lemma every_call c s : R s (run_call env c s).
Proof.
  destruct c; cbn [run_call].
  - reflexivity.
  - reflexivity.
  - apply (every_upsert _ _ _ _ _ _ s).
  - apply (every_update_status _ _ s).
  - apply (every_deactivate_other _ _ _ _ _ s).
  - apply (every_deactivate_by_ids _ s).
  - apply (every_add _ s).
  - reflexivity.
  - reflexivity.
  - reflexivity.
  - apply R_mark.
  - reflexivity.
  - apply (every_register_action _ _ _ _ _ s).
  - apply (every_process _ s).
Qed.

Lemma every_calls cs s : R s (run_calls env cs s).
Proof.
  revert s. induction cs as [|c cs IH]; intros s; cbn [run_calls fold_left].
  - reflexivity.
  - etrans; [apply every_call|]. apply IH.
Qed.
End EveryCall.

Global Instance log_grows_preorder : PreOrder log_grows.
Proof.
  split; unfold log_grows.
  - intros s. reflexivity.
  - intros s1 s2 s3 H12 H23. by etrans.
Qed.

Global Instance keys_grow_preorder : PreOrder keys_grow.
Proof.
  split; unfold keys_grow.
  - intros s. reflexivity.
  - intros s1 s2 s3 H12 H23. by etrans.
Qed.

Global Instance ties_stay_preorder : PreOrder ties_stay.
Proof.
  split; unfold ties_stay.
  - intros s e k. done.
  - intros s1 s2 s3 H12 H23 e k Hget. eauto.
Qed.

Lemma dict_keys_set_prefix {V} (d : dict V) k v :
  dict_keys d `prefix_of` dict_keys (dict_set d k v).
Proof.
  rewrite dict_keys_set. destruct (decide _); [reflexivity|].
  by apply prefix_app_r.
Qed.

(** X1: the event log is append-only.  Whatever repository or service
    calls are made, in whatever order and whether they return or raise, the
    log afterwards starts with the log before: no entry is removed, changed
    or moved. *)
Theorem log_is_append_only (env : Env) (calls : list Call) (s : State) :
  _events s `prefix_of` _events (run_calls env calls s)
  /\ forall i ev, _events s !! i = Some ev ->
                  _events (run_calls env calls s) !! i = Some ev.
Proof.
  assert (H : log_grows s (run_calls env calls s)).
  { apply (every_calls env log_grows); unfold log_grows; intros; simpl;
      first [reflexivity | by apply prefix_app_r]. }
  split; [exact H|]. intros i ev Hi. by eapply prefix_lookup_Some.
Qed.

(** X2: records are never removed.  After any calls the store holds the
    keys it held, in the same order, followed by those of the records
    created since; so every id that could be looked up still can. *)
Theorem records_are_never_removed (env : Env) (calls : list Call) (s : State) :
  dict_keys (_nbas s) `prefix_of` dict_keys (_nbas (run_calls env calls s))
  /\ forall k, is_Some (dict_get (_nbas s) k) ->
               is_Some (dict_get (_nbas (run_calls env calls s)) k).
Proof.
  assert (H : keys_grow s (run_calls env calls s)).
  { apply (every_calls env keys_grow); unfold keys_grow; intros; simpl;
      first [reflexivity | apply dict_keys_set_prefix]. }
  split; [exact H|]. intros k. rewrite !dict_get_is_Some.
  destruct H as [more ->]. intros Hk. apply elem_of_app. by left.
Qed.

(** X3: the tie between an event id and a record is permanent.  Once an
    event id is tied to a record id, no call ties it to another id or
    unties it. *)
Theorem event_ties_are_permanent
    (env : Env) (calls : list Call) (s : State) (event_id nba_id : string) :
  dict_get (_event_to_nba_id s) event_id = Some nba_id ->
  dict_get (_event_to_nba_id (run_calls env calls s)) event_id = Some nba_id.
Proof.
  assert (H : ties_stay s (run_calls env calls s)).
  { apply (every_calls env ties_stay); unfold ties_stay; intros; simpl;
      try done.
    destruct (decide (e = e0)) as [->|Hne]; [congruence|].
    by rewrite dict_get_set_ne. }
  apply H.
Qed.

Lemma event_ties_are_permanent_witness :
  dict_get (_event_to_nba_id (run_calls sample_env sample_calls sample_state_1))
           "11111111-1111-4111-8111-111111111111"
  = Some "nba_0a1b2c3d4e"%string.
Proof.
  apply (event_ties_are_permanent sample_env sample_calls sample_state_1).
  reflexivity.
Defined.

Global Instance only_records_change_preorder : PreOrder only_records_change.
Proof.
  split.
  - intros s. by repeat split.
  - intros s1 s2 s3 (He & Hl & Hp & Hu) (He' & Hl' & Hp' & Hu').
    repeat split; congruence.
Qed.

Section ProcessOutcome.
Context (env : Env).

Lemma only_records_change_deactivate_by_ids ids :
  preserves only_records_change (deactivate_nbas_by_ids env ids).
Proof. apply (every_deactivate_by_ids env only_records_change); by intros. Qed.

Lemma only_records_change_deactivate_other k d e a c :
  preserves only_records_change
    (deactivate_other_active_new_for_scope env k d e a c).
Proof. apply (every_deactivate_other env only_records_change); by intros. Qed.

Lemma only_records_change_after_deactivation p s :
  only_records_change s (after_deactivation env p s).
Proof.
  unfold after_deactivation.
  destruct (default [] (Payload.deactivate_nba_ids p)); [reflexivity|].
  apply only_records_change_deactivate_by_ids.
Qed.


(** X5: what [process] writes to the log.  Answering duplicate_skipped or
    deactivated_only it logs nothing.  Creating the record of an event id
    that is new to the ledger and to the store, it appends exactly one
    entry: for the created record, with status new, no [acted_by], the
    payload's source and occurred_at as context and a UTC timestamp. *)
Theorem process_logs_creations_only (p : Payload.t) (s : State) :
  (Payload.event_id p ∈ _processed s
   \/ default true (Payload.create_nba p) = false ->
   _events (snd (process env p s)) = _events s)
  /\ (Payload.event_id p ∉ _processed s ->
      default true (Payload.create_nba p) = true ->
      dict_get (_event_to_nba_id s) (Payload.event_id p) = None ->
      exists nba entry,
        fst (process env p s) = Return (created (Some nba))
        /\ _events (snd (process env p s)) = _events s ++ [entry]
        /\ NbaEventLogRecord.nba_id entry = NbaRecord.id nba
        /\ NbaEventLogRecord.status entry = NBA_STATUS_NEW
        /\ NbaEventLogRecord.acted_by entry = None
        /\ NbaEventLogRecord.context entry
           = [("source"%string, Payload.source p);
              ("occurred_at"%string, Payload.occurred_at p)]
        /\ datetime.is_utc (NbaEventLogRecord.action_at entry)).
Proof.
  rewrite process_run. unfold process_phases.
  pose proof (only_records_change_after_deactivation p s) as (He & Hl & _).
  split.
  - intros [Hin|Hno].
    + by rewrite (bool_decide_eq_true_2 _ Hin).
    + destruct (bool_decide _); [done|]. by rewrite Hno.
  - intros Hout Hcreate Htied.
    rewrite (bool_decide_eq_false_2 _ Hout), Hcreate, He, Htied. cbn [negb].
    set (sa := after_deactivation env p s) in *.
    set (n := new_nba env p sa).
    pose proof (only_records_change_deactivate_other (NbaRecord.id n)
                  (NbaRecord.nba_definition_id n) (NbaRecord.enterprise_number n)
                  (NbaRecord.account_id n) (NbaRecord.contact_id n)
                  (after_insert env p sa)) as (_ & Hl' & _).
    exists n, (creation_entry env p n (after_supersession env n (after_insert env p sa))).
    split; [done|]. cbn [snd after_log_and_mark _events].
    split; [|by repeat split].
    f_equal. unfold after_supersession. rewrite Hl'. simpl. exact Hl.
Qed.
End ProcessOutcome.

Section ServicesConsistent.
Context (env : Env).

Lemma consistent_register_action k st at_ c u s :
  consistent s -> consistent (snd (register_action env k st at_ c u s)).
Proof.
  intros Hs.
  destruct (decide (st ∈ ACTION_STATUSES)) as [Hst|Hst];
    [|by rewrite register_action_invalid].
  destruct (dict_get (_nbas s) k) as [nba|] eqn:Hget;
    [|by rewrite register_action_not_found].
  destruct (decide (NbaRecord.status nba ∈ ACTION_STATUSES)) as [Hterm|Hnew].
  { rewrite (register_action_terminal env _ _ _ _ _ _ nba) by done.
    by destruct (if bool_decide _ then _ else _). }
  rewrite (register_action_first env _ _ _ _ _ _ nba) by done. cbn [snd].
  assert (Hoff : forall sc now,
            active_new_in sc (NbaRecord.replace_status nba st now) = false).
  { intros sc now. unfold active_new_in, active_new. simpl.
    rewrite (bool_decide_eq_false_2 (st = NBA_STATUS_NEW)).
    - by rewrite andb_false_r.
    - intros ->. by apply new_is_not_an_action_status. }
  destruct Hs as [Hnd Hids Hcr Hex]. split; simpl.
  - by apply dict_set_NoDup.
  - apply dict_set_Forall; [done|]. simpl.
    apply dict_get_elem_of in Hget. rewrite Forall_forall in Hids.
    apply (Hids _ Hget).
  - exact Hcr.
  - intros sc. unfold active_new_records. simpl.
    etrans; [by apply dict_set_filter_count|]. apply Hex.
Qed.

Lemma consistent_service_call c s :
  is_service_call c -> consistent s -> consistent (run_call env c s).
Proof.
  intros Hc Hs. destruct c; try destruct Hc; cbn [run_call].
  - done.
  - by apply consistent_register_action.
  - by apply consistent_process.
Qed.

(** X6: the stores stay consistent under every interleaving of the
    services.  After any sequence of processed events, registered actions
    and listings, starting from the empty stores: every scope tuple has at
    most one active new record, store keys are distinct and equal the ids
    of the records they hold, and every event tied to a record is in the
    ledger. *)
Theorem services_keep_stores_consistent (calls : list Call) :
  Forall is_service_call calls ->
  let s := run_calls env calls initial_state in
  (forall sc, (length (active_new_records sc s) <= 1)%nat)
  /\ NoDup (dict_keys (_nbas s))
  /\ (forall k r, dict_get (_nbas s) k = Some r -> NbaRecord.id r = k)
  /\ (forall e k, dict_get (_event_to_nba_id s) e = Some k -> e ∈ _processed s).
Proof.
  intros Hcalls s.
  assert (Hs : consistent s).
  { subst s. pose proof consistent_initial as Hinit. revert Hinit.
    generalize initial_state.
    induction Hcalls as [|c calls Hc _ IH]; intros s0 H0; [done|].
    cbn [run_calls fold_left]. apply IH. by apply consistent_service_call. }
  destruct Hs as [Hnd Hids Hcr Hex].
  split; [exact Hex|]. split; [exact Hnd|]. split; [|exact Hcr].
  intros k r Hget. apply dict_get_elem_of in Hget.
  rewrite Forall_forall in Hids. apply (Hids _ Hget).
Qed.
End ServicesConsistent.

Lemma services_keep_stores_consistent_witness :
  (forall sc,
     (length (active_new_records sc
                (run_calls sample_env sample_service_calls initial_state))
      <= 1)%nat)
  /\ NoDup (dict_keys (_nbas (run_calls sample_env sample_service_calls
                                initial_state))).
Proof.
  destruct (services_keep_stores_consistent sample_env sample_service_calls)
    as (Hex & Hnd & _).
  - repeat constructor.
  - split; [exact Hex|exact Hnd].
Defined.

(** ** The lifecycle of a record *)

Lemma lifecycle_step_refl r : lifecycle_step r r.
Proof. repeat split; auto. Qed.

Lemma lifecycle_step_trans r1 r2 r3 :
  lifecycle_step r1 r2 -> lifecycle_step r2 r3 -> lifecycle_step r1 r3.
Proof.
  intros (Hi & Hs & Hp & Hc & Ht & Ha & Hst) (Hi' & Hs' & Hp' & Hc' & Ht' & Ha' & Hst').
  repeat split; try congruence; [auto|].
  destruct Hst as [Hst|[Hnew Hterm]], Hst' as [Hst'|[Hnew' Hterm']].
  - left. congruence.
  - right. split; congruence.
  - right. split; [done|]. by rewrite Hst'.
  - exfalso. rewrite Hnew' in Hterm. by apply new_is_not_an_action_status.
Qed.

Lemma deactivated_from_lifecycle r r' :
  deactivated_from r r' -> lifecycle_step r r'.
Proof.
  intros [->|[Ha [t ->]]]; [apply lifecycle_step_refl|].
  repeat split; auto.
Qed.

Global Instance records_move_forward_preorder : PreOrder records_move_forward.
Proof.
  split.
  - intros s k r Hget. exists r. split; [done|apply lifecycle_step_refl].
  - intros s1 s2 s3 H12 H23 k r Hget.
    destruct (H12 k r Hget) as (r2 & Hget2 & Hstep).
    destruct (H23 k r2 Hget2) as (r3 & Hget3 & Hstep').
    exists r3. split; [done|]. by eapply lifecycle_step_trans.
Qed.

Lemma only_deactivates_moves_forward s s' :
  only_deactivates s s' -> records_move_forward s s'.
Proof.
  intros (Hrel & _) k r Hget.
  pose proof (dict_rel_get _ _ _ k Hrel) as H. rewrite Hget in H.
  destruct H as (r' & Hget' & Hfrom). exists r'.
  split; [done|]. by apply deactivated_from_lifecycle.
Qed.

Lemma only_deactivates_statuses_known s s' :
  only_deactivates s s' -> statuses_known s -> statuses_known s'.
Proof.
  intros (Hrel & _). unfold statuses_known.
  induction Hrel as [|[k r] [k' r'] d d' [_ Hfrom] _ IH]; [done|].
  rewrite !Forall_cons. simpl in *. intros [Hst Hd]. split; [|auto].
  by rewrite (deactivated_from_status _ _ Hfrom).
Qed.

Lemma known_status_cases st :
  st ∈ NBA_STATUSES -> st ∉ ACTION_STATUSES -> st = NBA_STATUS_NEW.
Proof.
  unfold NBA_STATUSES, ACTION_STATUSES.
  rewrite !elem_of_union, !elem_of_singleton. tauto.
Qed.

Section Lifecycle.
Context (env : Env).

Lemma lifecycle_process p s :
  fresh_until env (uuid_draws (snd (process env p s))) ->
  services_invariants env s ->
  services_invariants env (snd (process env p s))
  /\ records_move_forward s (snd (process env p s)).
Proof.
  intros Hfresh (Hs & Hdrawn & Hlog & Hknown).
  destruct (services_process env p s Hfresh (conj Hs (conj Hdrawn Hlog)))
    as (Hs' & Hdrawn' & Hlog').
  cut (statuses_known (snd (process env p s))
       /\ records_move_forward s (snd (process env p s))).
  { intros [? ?]. split; [|done]. unfold services_invariants. auto. }
  destruct (decide (Payload.event_id p ∈ _processed s)) as [Hin|Hout].
  { rewrite process_duplicate by done. split; [done|reflexivity]. }
  pose proof (only_deactivates_after_deactivation env p s) as Hod.
  destruct (default true (Payload.create_nba p)) eqn:Hcreate.
  - assert (Htied : dict_get (_event_to_nba_id s) (Payload.event_id p) = None).
    { destruct (dict_get _ _) eqn:Hget; [|done].
      exfalso. apply Hout. by apply (created_are_processed s Hs _ s0). }
    destruct (process_creates env p s (keys_unique s Hs) Hout Htied Hcreate)
      as (Hrun & _ & Hod' & _ & _).
    rewrite Hrun in Hfresh |- *. cbn [snd] in Hfresh |- *.
    set (sa := after_deactivation env p s) in *.
    set (n := new_nba env p sa) in *.
    set (sb := after_insert env p sa) in *.
    set (sc := after_supersession env n sb) in *.
    assert (Hnew : NbaRecord.id n ∉ dict_keys (_nbas sa)).
    { apply drawn_id_is_new.
      - eapply fresh_until_le; [|exact Hfresh].
        destruct Hod' as (_ & _ & _ & _ & Hu). simpl. rewrite Hu. simpl. lia.
      - by apply (ids_were_drawn_only_deactivates env s). }
    assert (Hknown_b : statuses_known sb).
    { apply dict_set_Forall.
      - by apply (only_deactivates_statuses_known s).
      - simpl. unfold NBA_STATUSES. rewrite !elem_of_union, !elem_of_singleton.
        tauto. }
    split.
    + by apply (only_deactivates_statuses_known sb sc).
    + transitivity sa; [by apply only_deactivates_moves_forward|].
      transitivity sb.
      * intros k r Hget. exists r. split; [|apply lifecycle_step_refl].
        unfold sb. simpl. rewrite dict_get_set_ne; [done|].
        intros Heq. apply Hnew. apply dict_get_is_Some.
        change (NbaRecord.id n) with
          ("nba_" +:+ String.substring 0 10 (uuid4_hex env (uuid_draws sa))).
        rewrite Heq. by eexists.
      * intros k r Hget.
        destruct (only_deactivates_moves_forward sb sc Hod' k r Hget)
          as (r' & Hget' & Hstep).
        exists r'. by split.
  - rewrite process_run. unfold process_phases.
    rewrite (bool_decide_eq_false_2 _ Hout), Hcreate. cbn [negb snd].
    split.
    + by apply (only_deactivates_statuses_known s (after_deactivation env p s)).
    + intros k r Hget.
      destruct (only_deactivates_moves_forward _ _ Hod k r Hget)
        as (r' & Hget' & Hstep).
      exists r'. by split.
Qed.

Lemma lifecycle_register_action k st at_ c u s :
  services_invariants env s ->
  services_invariants env (snd (register_action env k st at_ c u s))
  /\ records_move_forward s (snd (register_action env k st at_ c u s)).
Proof.
  intros (Hs & Hdrawn & Hlog & Hknown).
  destruct (services_register_action env k st at_ c u s
              (conj Hs (conj Hdrawn Hlog))) as (Hs' & Hdrawn' & Hlog').
  cut (statuses_known (snd (register_action env k st at_ c u s))
       /\ records_move_forward s (snd (register_action env k st at_ c u s))).
  { intros [? ?]. split; [|done]. unfold services_invariants. auto. }
  destruct (decide (st ∈ ACTION_STATUSES)) as [Hst|Hst];
    [|rewrite register_action_invalid by done; split; [done|reflexivity]].
  destruct (dict_get (_nbas s) k) as [nba|] eqn:Hget;
    [|rewrite register_action_not_found by done; split; [done|reflexivity]].
  destruct (decide (NbaRecord.status nba ∈ ACTION_STATUSES)) as [Hterm|Hnew].
  { rewrite (register_action_terminal env _ _ _ _ _ _ nba) by done.
    destruct (if bool_decide _ then _ else _); split; done || reflexivity. }
  rewrite (register_action_first env _ _ _ _ _ _ nba) by done. cbn [snd].
  assert (Hwas : NbaRecord.status nba = NBA_STATUS_NEW).
  { apply known_status_cases; [|done].
    unfold statuses_known in Hknown. rewrite Forall_forall in Hknown.
    apply (Hknown (k, nba)). by apply dict_get_elem_of. }
  split.
  - apply dict_set_Forall; [done|]. simpl.
    apply action_status_cases in Hst. unfold NBA_STATUSES.
    rewrite !elem_of_union, !elem_of_singleton. tauto.
  - intros k' r Hget'. simpl.
    destruct (decide (k = k')) as [<-|Hne].
    + rewrite dict_get_set_eq. rewrite Hget in Hget'. injection Hget' as <-.
      eexists. split; [done|]. repeat split; auto.
    + rewrite dict_get_set_ne by done. exists r.
      split; [done|apply lifecycle_step_refl].
Qed.

Lemma lifecycle_run_calls calls s :
  Forall is_service_call calls ->
  fresh_until env (uuid_draws (run_calls env calls s)) ->
  services_invariants env s ->
  services_invariants env (run_calls env calls s)
  /\ records_move_forward s (run_calls env calls s).
Proof.
  intros Hcalls. revert s.
  induction Hcalls as [|c calls Hc Hcalls IH]; intros s Hfresh Hs.
  { split; [done|reflexivity]. }
  cbn [run_calls fold_left] in Hfresh |- *.
  assert (Hstep : fresh_until env (uuid_draws (run_call env c s))).
  { eapply fresh_until_le; [|exact Hfresh]. by apply draws_run_calls. }
  assert (Hc' : services_invariants env (run_call env c s)
                /\ records_move_forward s (run_call env c s)).
  { destruct c; try destruct Hc; cbn [run_call] in Hstep |- *.
    - split; [done|reflexivity].
    - by apply lifecycle_register_action.
    - by apply lifecycle_process. }
  destruct Hc' as [Hinv Hfwd].
  destruct (IH _ Hfresh Hinv) as [Hinv' Hfwd'].
  split; [done|]. by transitivity (run_call env c s).
Qed.

Lemma services_invariants_initial : services_invariants env initial_state.
Proof.
  split; [apply consistent_initial|]. split; [constructor|].
  split; [|constructor]. intros ev Hin. by apply elem_of_nil in Hin.
Qed.

(** X7: the lifecycle of a record is one-way.  Take any state the services
    have built from the empty stores and any further service calls, with no
    two generated ids colliding.  Every record that was there still is, with
    the same id, scope, priority, context and creation time.  A record that
    was inactive is still inactive; a record whose status was accepted or
    rejected has that same status; and a status that changed was new and
    is now accepted or rejected. *)
Theorem lifecycle_is_one_way (before after : list Call) :
  Forall is_service_call before ->
  Forall is_service_call after ->
  let s1 := run_calls env before initial_state in
  let s2 := run_calls env after s1 in
  fresh_until env (uuid_draws s2) ->
  forall k r,
    dict_get (_nbas s1) k = Some r ->
    exists r',
      dict_get (_nbas s2) k = Some r'
      /\ NbaRecord.id r' = NbaRecord.id r
      /\ scope_of r' = scope_of r
      /\ NbaRecord.priority r' = NbaRecord.priority r
      /\ NbaRecord.context r' = NbaRecord.context r
      /\ NbaRecord.created_at r' = NbaRecord.created_at r
      /\ (NbaRecord.active r = false -> NbaRecord.active r' = false)
      /\ (NbaRecord.status r ∈ ACTION_STATUSES ->
          NbaRecord.status r' = NbaRecord.status r)
      /\ (NbaRecord.status r' <> NbaRecord.status r ->
          NbaRecord.status r = NBA_STATUS_NEW
          /\ NbaRecord.status r' ∈ ACTION_STATUSES).
Proof.
  intros Hbefore Hafter s1 s2 Hfresh k r Hget.
  assert (Hinv1 : services_invariants env s1).
  { apply lifecycle_run_calls; [done| |apply services_invariants_initial].
    eapply fresh_until_le; [|exact Hfresh]. by apply draws_run_calls. }
  destruct (lifecycle_run_calls after s1 Hafter Hfresh Hinv1) as [_ Hfwd].
  destruct (Hfwd k r Hget)
    as (r' & Hget' & Hi & Hs & Hp & Hc & Ht & Ha & Hst).
  exists r'. repeat split; try done.
  - destruct (NbaRecord.active r'); [|done]. intros Hoff.
    rewrite Ha in Hoff; done.
  - intros Hterm. destruct Hst as [?|[Hnew _]]; [done|].
    exfalso. rewrite Hnew in Hterm. by apply new_is_not_an_action_status.
  - destruct Hst as [?|[? ?]]; done.
  - destruct Hst as [?|[? ?]]; done.
Qed.

(** X8: the log and the store agree.  In every state the services build
    from the empty stores, with no two generated ids colliding, each logged
    action that bears a non-empty [acted_by] is for a record that is there,
    whose status is the one the action gave it, accepted or rejected; and
    every record's status is new, accepted or rejected. *)
Theorem logged_actions_match_records (calls : list Call) :
  Forall is_service_call calls ->
  let s := run_calls env calls initial_state in
  fresh_until env (uuid_draws s) ->
  (forall ev, ev ∈ _events s ->
     truthy (NbaEventLogRecord.acted_by ev) = true ->
     exists r, dict_get (_nbas s) (NbaEventLogRecord.nba_id ev) = Some r
               /\ NbaRecord.status r = NbaEventLogRecord.status ev
               /\ (NbaEventLogRecord.status ev = NBA_STATUS_ACCEPTED
                   \/ NbaEventLogRecord.status ev = NBA_STATUS_REJECTED))
  /\ (forall k r, dict_get (_nbas s) k = Some r ->
        NbaRecord.status r = NBA_STATUS_NEW
        \/ NbaRecord.status r = NBA_STATUS_ACCEPTED
        \/ NbaRecord.status r = NBA_STATUS_REJECTED).
Proof.
  intros Hcalls s Hfresh.
  destruct (lifecycle_run_calls calls initial_state Hcalls Hfresh
              services_invariants_initial) as [(_ & _ & Hlog & Hknown) _].
  split.
  - intros ev Hin Hby. destruct (Hlog ev Hin Hby) as (r & Hget & Hst & Hact).
    exists r. split; [done|]. split; [done|]. by apply action_status_cases.
  - intros k r Hget. unfold statuses_known in Hknown.
    rewrite Forall_forall in Hknown.
    pose proof (Hknown (k, r) (dict_get_elem_of _ _ _ Hget)) as Hst.
    simpl in Hst. unfold NBA_STATUSES in Hst.
    by rewrite !elem_of_union, !elem_of_singleton in Hst; tauto.
Qed.
End Lifecycle.

Lemma sample_env_fresh : fresh_until sample_env 6.
Proof.
  intros i j Hi Hj Heq.
  destruct i as [|[|[|[|[|[|i]]]]]]; try lia;
    destruct j as [|[|[|[|[|[|j]]]]]]; try lia;
    try reflexivity; vm_compute in Heq; discriminate.
Qed.

Lemma lifecycle_is_one_way_witness :
  let s1 := run_calls sample_env sample_calls_before initial_state in
  let s2 := run_calls sample_env sample_calls_after s1 in
  dict_get (_nbas s1) "nba_0a1b2c3d4e" = Some sample_accepted_nba
  /\ NbaRecord.status sample_accepted_nba = NBA_STATUS_ACCEPTED
  /\ exists r',
      dict_get (_nbas s2) "nba_0a1b2c3d4e" = Some r'
      /\ NbaRecord.id r' = NbaRecord.id sample_accepted_nba
      /\ scope_of r' = scope_of sample_accepted_nba
      /\ NbaRecord.priority r' = NbaRecord.priority sample_accepted_nba
      /\ NbaRecord.context r' = NbaRecord.context sample_accepted_nba
      /\ NbaRecord.created_at r' = NbaRecord.created_at sample_accepted_nba
      /\ (NbaRecord.active sample_accepted_nba = false ->
          NbaRecord.active r' = false)
      /\ (NbaRecord.status sample_accepted_nba ∈ ACTION_STATUSES ->
          NbaRecord.status r' = NbaRecord.status sample_accepted_nba)
      /\ (NbaRecord.status r' <> NbaRecord.status sample_accepted_nba ->
          NbaRecord.status sample_accepted_nba = NBA_STATUS_NEW
          /\ NbaRecord.status r' ∈ ACTION_STATUSES).
Proof.
  intros s1 s2. split; [reflexivity|]. split; [reflexivity|].
  apply (lifecycle_is_one_way sample_env sample_calls_before
           sample_calls_after).
  - repeat constructor.
  - repeat constructor.
  - apply (fresh_until_le sample_env _ 6); [vm_compute; lia|].
    apply sample_env_fresh.
  - reflexivity.
Defined.

Lemma logged_actions_match_records_witness :
  let s := run_calls sample_env sample_service_calls initial_state in
  (forall ev, ev ∈ _events s ->
     truthy (NbaEventLogRecord.acted_by ev) = true ->
     exists r, dict_get (_nbas s) (NbaEventLogRecord.nba_id ev) = Some r
               /\ NbaRecord.status r = NbaEventLogRecord.status ev
               /\ (NbaEventLogRecord.status ev = NBA_STATUS_ACCEPTED
                   \/ NbaEventLogRecord.status ev = NBA_STATUS_REJECTED))
  /\ (forall k r, dict_get (_nbas s) k = Some r ->
        NbaRecord.status r = NBA_STATUS_NEW
        \/ NbaRecord.status r = NBA_STATUS_ACCEPTED
        \/ NbaRecord.status r = NBA_STATUS_REJECTED).
Proof.
  apply (logged_actions_match_records sample_env sample_service_calls).
  - repeat constructor.
  - apply (fresh_until_le sample_env _ 6); [vm_compute; lia|].
    apply sample_env_fresh.
Defined.

(** ** What the two deactivations count *)

Lemma filter_none {A} (f : A -> bool) (l : list A) :
  (forall x, x ∈ l -> f x = false) -> List.filter f l = [].
Proof.
  induction l as [|x l IH]; intros Hf; simpl; [done|].
  rewrite (Hf x) by left. apply IH. intros y Hy. apply Hf. by right.
Qed.

Section DeactivationCounts.
Context (env : Env).

Lemma by_id_step_run acc k s :
  fst (deactivate_by_id_step env acc k s)
  = Return (acc + (if is_active_in s k then 1 else 0))
  /\ clock_reads (snd (deactivate_by_id_step env acc k s))
     = ((if is_active_in s k then 1 else 0) + clock_reads s)%nat
  /\ (is_active_in s k = false -> snd (deactivate_by_id_step env acc k s) = s).
Proof.
  unfold deactivate_by_id_step, is_active_in, bind, gets, utc_now, modify, ret.
  destruct (dict_get (_nbas s) k) as [r|]; simpl.
  - destruct (NbaRecord.active r); simpl; repeat split; (f_equal; lia) || done.
  - repeat split; f_equal; lia.
Qed.

Lemma by_id_step_others acc k s k' :
  k' <> k ->
  is_active_in (snd (deactivate_by_id_step env acc k s)) k' = is_active_in s k'.
Proof.
  intros Hne. unfold is_active_in. rewrite by_id_step_get.
  rewrite (bool_decide_eq_false_2 _ Hne). simpl.
  by destruct (dict_get (_nbas s) k').
Qed.

Lemma by_ids_loop_count (l : list string) acc s :
  NoDup l ->
  fst (for_fold l acc (deactivate_by_id_step env) s)
  = Return (acc + Z.of_nat (length (List.filter (is_active_in s) l)))
  /\ clock_reads (snd (for_fold l acc (deactivate_by_id_step env) s))
     = (length (List.filter (is_active_in s) l) + clock_reads s)%nat.
Proof.
  intros Hl. revert acc s.
  induction Hl as [|x l Hx Hl IH]; intros acc s; cbn [for_fold].
  - simpl. split; [f_equal; lia|done].
  - rewrite bind_run.
    destruct (by_id_step_run acc x s) as (Hres & Hclock & _).
    destruct (deactivate_by_id_step env acc x s) as [o s1] eqn:Hstep.
    simpl in Hres, Hclock. subst o.
    destruct (IH (acc + (if is_active_in s x then 1 else 0)) s1) as [-> ->].
    assert (Hl1 : List.filter (is_active_in s1) l
                  = List.filter (is_active_in s) l).
    { apply filter_ext_in. intros k Hk.
      replace s1 with (snd (deactivate_by_id_step env acc x s))
        by (by rewrite Hstep).
      apply by_id_step_others. intros ->. apply Hx. by apply list_elem_of_In. }
    rewrite Hl1, Hclock. cbn [List.filter].
    destruct (is_active_in s x); simpl length; (split; [f_equal; lia|lia]).
Qed.

Lemma by_ids_loop_idle (l : list string) acc s :
  (forall k, k ∈ l -> is_active_in s k = false) ->
  for_fold l acc (deactivate_by_id_step env) s = (Return acc, s).
Proof.
  revert acc. induction l as [|x l IH]; intros acc Hoff; cbn [for_fold];
    [done|].
  rewrite bind_run.
  destruct (by_id_step_run acc x s) as (Hres & _ & Hsame).
  destruct (deactivate_by_id_step env acc x s) as [o s1].
  simpl in Hres, Hsame. subst o.
  rewrite (Hoff x) in * by left. rewrite Hsame by done.
  rewrite Z.add_0_r. apply IH. intros k Hk. apply Hoff. by right.
Qed.

(** X9: what [deactivate_nbas_by_ids] counts.  It returns the number of
    distinct ids of the list that name an active record, and reads the clock
    once for each of them; ids that are repeated, unknown or already
    inactive add nothing.  Run again with the same list, straight away, it
    returns 0 and leaves the state as it is. *)
Theorem deactivate_nbas_by_ids_counts (nba_ids : list string) (s : State) :
  let n := length (List.filter (is_active_in s) (first_occurrences nba_ids)) in
  let s' := snd (deactivate_nbas_by_ids env nba_ids s) in
  fst (deactivate_nbas_by_ids env nba_ids s) = Return (Z.of_nat n)
  /\ (n <= length nba_ids)%nat
  /\ clock_reads s' = (n + clock_reads s)%nat
  /\ (forall k, k ∈ nba_ids -> is_active_in s' k = false)
  /\ deactivate_nbas_by_ids env nba_ids s' = (Return 0, s').
Proof.
  intros n s'.
  assert (Hoff : forall k, k ∈ nba_ids -> is_active_in s' k = false).
  { intros k Hk. pose proof (deactivate_nbas_by_ids_get env nba_ids s k) as H.
    unfold deactivated_by_ids in H. fold s' in H. unfold is_active_in.
    destruct (dict_get (_nbas s) k) as [r|]; [|by rewrite H].
    rewrite (bool_decide_eq_true_2 _ Hk) in H. simpl in H.
    destruct (NbaRecord.active r) eqn:Hr.
    - destruct H as [now ->]. done.
    - by rewrite H. }
  unfold s', n, deactivate_nbas_by_ids in *. rewrite dict_fromkeys_keys in *.
  destruct (by_ids_loop_count (first_occurrences nba_ids) 0 s
              (first_occurrences_NoDup nba_ids)) as [Hres Hclock].
  split; [by rewrite Hres|]. split.
  { etrans; [apply filter_length_le|].
    clear. induction nba_ids as [|x l IH]; simpl; [done|].
    pose proof (filter_length_le (fun y => negb (bool_decide (y = x)))
                  (first_occurrences l)). lia. }
  split; [done|]. split; [done|].
  apply by_ids_loop_idle. intros k Hk. apply Hoff.
  by apply first_occurrences_elem_of.
Qed.

Lemma other_step_run keep d e a c acc item s :
  fst (deactivate_other_step env keep d e a c acc item s)
  = Return (acc + (if is_superseded keep (d, e, a, c) item then 1 else 0))
  /\ clock_reads (snd (deactivate_other_step env keep d e a c acc item s))
     = ((if is_superseded keep (d, e, a, c) item then 1 else 0)
        + clock_reads s)%nat
  /\ (is_superseded keep (d, e, a, c) item = false ->
      snd (deactivate_other_step env keep d e a c acc item s) = s).
Proof.
  destruct item as [k r].
  unfold deactivate_other_step, is_superseded, active_new_in, active_new,
    scope_of.
  cbn [fst snd].
  destruct (decide (k = keep)) as [->|Hk].
  { rewrite bool_decide_eq_true_2 by done. simpl.
    repeat split; f_equal; lia. }
  rewrite (bool_decide_eq_false_2 _ Hk). cbn [negb andb].
  destruct (NbaRecord.active r); cbn [negb orb andb];
    [|simpl; repeat split; f_equal; lia].
  destruct (decide (NbaRecord.status r = NBA_STATUS_NEW)) as [Hst|Hst].
  2:{ rewrite (bool_decide_eq_true_2 (_ <> _)) by done.
      rewrite (bool_decide_eq_false_2 (_ = _)) by done.
      simpl. repeat split; f_equal; lia. }
  rewrite (bool_decide_eq_false_2 (_ <> _)) by (intros H; by apply H).
  rewrite (bool_decide_eq_true_2 (NbaRecord.status r = _)) by done.
  cbn [andb].
  destruct (decide (NbaRecord.nba_definition_id r = d)) as [Hd|Hd].
  2:{ rewrite (bool_decide_eq_true_2 (_ <> d)) by done.
      rewrite (bool_decide_eq_false_2 (_ = (d, e, a, c))) by congruence.
      simpl. repeat split; f_equal; lia. }
  rewrite (bool_decide_eq_false_2 (_ <> d)) by (intros H; by apply H).
  destruct (decide (NbaRecord.enterprise_number r = e)) as [He|He].
  2:{ rewrite (bool_decide_eq_true_2 (_ <> e)) by done.
      rewrite (bool_decide_eq_false_2 (_ = (d, e, a, c))) by congruence.
      simpl. repeat split; f_equal; lia. }
  rewrite (bool_decide_eq_false_2 (_ <> e)) by (intros H; by apply H).
  destruct (decide (NbaRecord.account_id r = a)) as [Ha|Ha].
  2:{ rewrite (bool_decide_eq_true_2 (_ <> a)) by done.
      rewrite (bool_decide_eq_false_2 (_ = (d, e, a, c))) by congruence.
      simpl. repeat split; f_equal; lia. }
  rewrite (bool_decide_eq_false_2 (_ <> a)) by (intros H; by apply H).
  destruct (decide (NbaRecord.contact_id r = c)) as [Hc|Hc].
  2:{ rewrite (bool_decide_eq_true_2 (_ <> c)) by done.
      rewrite (bool_decide_eq_false_2 (_ = (d, e, a, c))) by congruence.
      simpl. repeat split; f_equal; lia. }
  rewrite (bool_decide_eq_false_2 (_ <> c)) by (intros H; by apply H).
  rewrite (bool_decide_eq_true_2 (_ = (d, e, a, c))) by congruence.
  unfold bind, utc_now, modify, ret. simpl.
  repeat split; (f_equal; lia) || done.
Qed.

Lemma other_loop_count keep d e a c (items : list (string * NbaRecord.t)) acc s :
  fst (for_fold items acc (deactivate_other_step env keep d e a c) s)
  = Return (acc + Z.of_nat (length (List.filter
                                      (is_superseded keep (d, e, a, c)) items)))
  /\ clock_reads
       (snd (for_fold items acc (deactivate_other_step env keep d e a c) s))
     = (length (List.filter (is_superseded keep (d, e, a, c)) items)
        + clock_reads s)%nat
  /\ (List.filter (is_superseded keep (d, e, a, c)) items = [] ->
      snd (for_fold items acc (deactivate_other_step env keep d e a c) s) = s).
Proof.
  revert acc s. induction items as [|item items IH]; intros acc s;
    cbn [for_fold].
  - simpl. repeat split. f_equal. lia.
  - rewrite bind_run.
    destruct (other_step_run keep d e a c acc item s) as (Hres & Hclock & Hsame).
    destruct (deactivate_other_step env keep d e a c acc item s) as [o s1].
    simpl in Hres, Hclock, Hsame. subst o.
    destruct (IH (acc + (if is_superseded keep (d, e, a, c) item
                         then 1 else 0)) s1) as (-> & -> & Hidle).
    rewrite Hclock. cbn [List.filter].
    destruct (is_superseded keep (d, e, a, c) item); simpl length.
    + split; [f_equal; lia|]. split; [lia|done].
    + split; [f_equal; lia|]. split; [lia|].
      intros Hnone. rewrite Hidle by done. by apply Hsame.
Qed.

(** X10: what [deactivate_other_active_new_for_scope] counts.  It returns
    the number of entries of the store, other than the kept id, that are
    active, new and in the scope, and reads the clock once for each of
    them.  In a store whose keys are distinct, running it again straight
    away returns 0 and leaves the state as it is. *)
Theorem deactivate_other_counts keep d e a c (s : State) :
  let n := length (List.filter (is_superseded keep (d, e, a, c)) (_nbas s)) in
  let s' := snd (deactivate_other_active_new_for_scope env keep d e a c s) in
  fst (deactivate_other_active_new_for_scope env keep d e a c s)
  = Return (Z.of_nat n)
  /\ clock_reads s' = (n + clock_reads s)%nat
  /\ (NoDup (dict_keys (_nbas s)) ->
      deactivate_other_active_new_for_scope env keep d e a c s'
      = (Return 0, s')).
Proof.
  intros n s'.
  pose proof (deactivate_other_spec env keep d e a c s) as Hspec.
  unfold s', n in *. clear s' n.
  unfold deactivate_other_active_new_for_scope in *.
  rewrite !bind_run in *. unfold gets, dict_items in *. cbv beta iota in *.
  destruct (other_loop_count keep d e a c (_nbas s) 0 s) as (Hres & Hclock & _).
  split; [by rewrite Hres|]. split; [done|].
  intros Hnd. destruct (Hspec Hnd) as ((Hrel & _) & _ & Hoff).
  set (s' := snd (for_fold (_nbas s) 0
                    (deactivate_other_step env keep d e a c) s)) in *.
  assert (Hnd' : NoDup (dict_keys (_nbas s')))
    by (by rewrite (dict_rel_keys _ _ _ Hrel)).
  assert (Hnone : List.filter (is_superseded keep (d, e, a, c)) (_nbas s') = []).
  { apply filter_none. intros [k r] Hin.
    unfold is_superseded. cbn [fst snd].
    destruct (decide (k = keep)) as [->|Hk];
      [by rewrite bool_decide_eq_true_2|].
    rewrite (bool_decide_eq_false_2 _ Hk). cbn [negb andb].
    apply (Hoff k r); [|done].
    by apply dict_elem_of_get. }
  destruct (other_loop_count keep d e a c (_nbas s') 0 s')
    as (Hres' & _ & Hidle).
  rewrite Hnone in Hres'. simpl in Hres'.
  specialize (Hidle Hnone).
  destruct (for_fold (_nbas s') 0 (deactivate_other_step env keep d e a c) s')
    as [o s'']. simpl in *. by subst.
Qed.
End DeactivationCounts.

(** ** The outcomes of [register_action] *)

Section ActionOutcomes.
Context (env : Env).

(** The three ways [register_action] ends: with an error and the state as
    it was, with the logged action it found and the state as it was, or
    with a new log entry and the record's status changed. *)
Lemma register_action_cases nba_id st action_at comment user s :
  (exists e,
     register_action env nba_id st action_at comment user s = (Raise e, s)
     /\ ((e = ValidationError /\ st ∉ ACTION_STATUSES)
         \/ (e = NotFoundError /\ st ∈ ACTION_STATUSES
             /\ dict_get (_nbas s) nba_id = None)
         \/ (e = ConflictError /\ st ∈ ACTION_STATUSES
             /\ exists nba, dict_get (_nbas s) nba_id = Some nba
                            /\ NbaRecord.status nba ∈ ACTION_STATUSES)))
  \/ (exists ev nba,
        register_action env nba_id st action_at comment user s = (Return ev, s)
        /\ st ∈ ACTION_STATUSES
        /\ dict_get (_nbas s) nba_id = Some nba
        /\ NbaRecord.status nba = st
        /\ ev ∈ _events s
        /\ is_action_event nba_id st ev = true)
  \/ (exists nba s',
        register_action env nba_id st action_at comment user s
        = (Return (logged_action env nba_id st action_at comment user s), s')
        /\ st ∈ ACTION_STATUSES
        /\ dict_get (_nbas s) nba_id = Some nba
        /\ (NbaRecord.status nba ∉ ACTION_STATUSES)
        /\ (exists now, _nbas s'
                        = dict_set (_nbas s) nba_id
                            (NbaRecord.replace_status nba st now))
        /\ _events s'
           = _events s ++ [logged_action env nba_id st action_at comment user s]
        /\ _event_to_nba_id s' = _event_to_nba_id s
        /\ _processed s' = _processed s).
Proof.
  destruct (decide (st ∈ ACTION_STATUSES)) as [Hst|Hst].
  2:{ left. exists ValidationError.
      split; [by apply register_action_invalid|]. by left. }
  destruct (dict_get (_nbas s) nba_id) as [nba|] eqn:Hget.
  2:{ left. exists NotFoundError.
      split; [by apply register_action_not_found|]. right. by left. }
  destruct (decide (NbaRecord.status nba ∈ ACTION_STATUSES)) as [Hterm|Hnew].
  - rewrite (register_action_terminal env _ _ _ _ _ _ nba) by done.
    destruct (decide (NbaRecord.status nba = st)) as [Heq|Hne].
    + rewrite (bool_decide_eq_true_2 _ Heq).
      destruct (List.find _ _) as [ev|] eqn:Hfind.
      * right. left. exists ev, nba. apply find_some in Hfind as [Hin Hact].
        repeat split; try done. by apply list_elem_of_In.
      * left. exists ConflictError. split; [done|]. right. right. eauto.
    + rewrite (bool_decide_eq_false_2 _ Hne).
      left. exists ConflictError. split; [done|]. right. right. eauto.
  - right. right. exists nba. eexists.
    split; [by apply (register_action_first env _ _ _ _ _ _ nba)|].
    simpl. repeat split; try done. by eexists.
Qed.

(** X11: [register_action] fails cleanly.  Whenever it raises, the stores,
    the clock and the id generator are exactly as they were, and the error
    is one of three: 400 for a status other than accepted or rejected, 404
    for an id the store does not hold, 409 for a record that is already
    accepted or rejected; it never raises the [KeyError] of
    [update_status].  Whenever it returns, the entry it returns is for the
    requested id and status and is in the log afterwards. *)
Theorem register_action_fails_cleanly nba_id st action_at comment user s :
  match register_action env nba_id st action_at comment user s with
  | (Raise e, s') =>
      s' = s
      /\ ((e = ValidationError /\ st ∉ ACTION_STATUSES)
          \/ (e = NotFoundError /\ st ∈ ACTION_STATUSES
              /\ dict_get (_nbas s) nba_id = None)
          \/ (e = ConflictError /\ st ∈ ACTION_STATUSES
              /\ exists nba, dict_get (_nbas s) nba_id = Some nba
                             /\ NbaRecord.status nba ∈ ACTION_STATUSES))
  | (Return ev, s') =>
      st ∈ ACTION_STATUSES
      /\ NbaEventLogRecord.nba_id ev = nba_id
      /\ NbaEventLogRecord.status ev = st
      /\ ev ∈ _events s'
      /\ exists r, dict_get (_nbas s') nba_id = Some r /\ NbaRecord.status r = st
  end.
Proof.
  destruct (register_action_cases nba_id st action_at comment user s)
    as [(e & -> & He)|[(ev & nba & -> & Hst & Hget & Hsame & Hin & Hact)
                      |(nba & s' & -> & Hst & Hget & Hnew & [now Hn] & Hl & _)]].
  - by split.
  - unfold is_action_event in Hact.
    apply andb_true_iff in Hact as [Hact _].
    apply andb_true_iff in Hact as [Hid Hstat].
    apply bool_decide_eq_true in Hid, Hstat.
    repeat split; try done. by exists nba.
  - repeat split; try done.
    + rewrite Hl. apply elem_of_app. right. by left.
    + rewrite Hn, dict_get_set_eq. by eexists.
Qed.
End ActionOutcomes.

(** ** Pages of the listing *)

Lemma list_nbas_run a e st limit offset s :
  list_nbas a e st limit offset s
  = (Return (py_slice (listing a e st s) offset (offset + limit),
             Z.of_nat (length (listing a e st s))), s).
Proof. reflexivity. Qed.

Lemma list_for_user_run u a e st limit offset s :
  list_for_user u a e st limit offset s
  = (Return (py_slice (listing a e st s) offset (offset + limit),
             Z.of_nat (length (listing a e st s))), s).
Proof. reflexivity. Qed.

Lemma listing_elem_of a e st s r :
  r ∈ listing a e st s
  <-> r ∈ dict_values (_nbas s) /\ list_nbas_keep a e st r = true.
Proof.
  unfold listing. rewrite (sort_desc_perm NbaRecord.created_at).
  by rewrite list_elem_of_In, filter_In, <- list_elem_of_In.
Qed.

Lemma py_slice_page_length {A} (l : list A) (offset limit : Z) :
  0 <= offset -> 0 <= limit ->
  Z.of_nat (length (py_slice l offset (offset + limit)))
  = Z.min limit (Z.max 0 (Z.of_nat (length l) - offset)).
Proof.
  intros Ho Hl. rewrite py_slice_nonneg by done.
  rewrite length_take, length_drop. lia.
Qed.

(** X12: the pages of [list_nbas] tile the listing.  For an offset and
    limits that are not negative, every page reports the same total, the
    length of the whole listing; a page holds min(limit, total - offset)
    records, none when the offset is at or past the total; the page at
    [offset] of size [limit] followed by the page at [offset + limit] of
    size [limit'] is the page at [offset] of size [limit + limit']; and the
    page at offset 0 whose limit is at least the total is the whole
    listing.  The store is not changed. *)
Theorem list_nbas_pages_tile a e st (limit limit' offset : Z) (s : State) :
  0 <= offset -> 0 <= limit -> 0 <= limit' ->
  exists page page' both total,
    list_nbas a e st limit offset s = (Return (page, total), s)
    /\ list_nbas a e st limit' (offset + limit) s = (Return (page', total), s)
    /\ list_nbas a e st (limit + limit') offset s = (Return (both, total), s)
    /\ total = Z.of_nat (length (listing a e st s))
    /\ Z.of_nat (length page) = Z.min limit (Z.max 0 (total - offset))
    /\ both = page ++ page'
    /\ (offset = 0 -> total <= limit -> page = listing a e st s).
Proof.
  intros Ho Hl Hl'. rewrite !list_nbas_run. do 4 eexists.
  split; [done|]. split; [done|]. split; [done|]. split; [done|].
  split; [by apply py_slice_page_length|]. split.
  - rewrite !py_slice_nonneg by lia.
    rewrite Z2Nat.inj_add by lia.
    rewrite <- (take_drop (Z.to_nat limit)
                  (take (Z.to_nat limit + Z.to_nat limit')
                     (drop (Z.to_nat offset) (listing a e st s)))).
    rewrite take_take, Nat.min_l by lia.
    rewrite <- take_drop_commute, drop_drop.
    by rewrite (Z2Nat.inj_add offset limit) by lia.
  - intros -> Htot. rewrite py_slice_nonneg by lia.
    simpl. apply take_ge. lia.
Qed.

Lemma list_nbas_pages_tile_witness :
  exists page page' both total,
    list_nbas None (Some "BE0123"%string) None 1 0
      (run_calls sample_env sample_service_calls initial_state)
    = (Return (page, total),
       run_calls sample_env sample_service_calls initial_state)
    /\ list_nbas None (Some "BE0123"%string) None 5 (0 + 1)
         (run_calls sample_env sample_service_calls initial_state)
       = (Return (page', total),
          run_calls sample_env sample_service_calls initial_state)
    /\ list_nbas None (Some "BE0123"%string) None (1 + 5) 0
         (run_calls sample_env sample_service_calls initial_state)
       = (Return (both, total),
          run_calls sample_env sample_service_calls initial_state)
    /\ total = Z.of_nat (length (listing None (Some "BE0123"%string) None
                 (run_calls sample_env sample_service_calls initial_state)))
    /\ Z.of_nat (length page) = Z.min 1 (Z.max 0 (total - 0))
    /\ both = page ++ page'
    /\ (0 = 0 -> total <= 1 -> page
        = listing None (Some "BE0123"%string) None
            (run_calls sample_env sample_service_calls initial_state)).
Proof.
  apply (list_nbas_pages_tile None (Some "BE0123"%string) None 1 5 0
           (run_calls sample_env sample_service_calls initial_state)); lia.
Defined.

(** ** The routes *)

Lemma mapM_all_Some {A B} (f : A -> option B) (g : A -> B) (l : list A) :
  (forall x, x ∈ l -> f x = Some (g x)) -> mapM f l = Some (map g l).
Proof.
  induction l as [|x l IH]; intros Hf; [done|].
  cbn. rewrite (Hf x) by left. cbn. rewrite IH; [done|].
  intros y Hy. apply Hf. by right.
Qed.

Lemma statuses_known_values s r :
  statuses_known s -> r ∈ dict_values (_nbas s) ->
  NbaRecord.status r ∈ NBA_STATUSES.
Proof.
  unfold statuses_known, dict_values. rewrite Forall_forall.
  intros Hknown Hin. apply list_elem_of_In, in_map_iff in Hin as [[k r'] [<- Hin]].
  apply (Hknown (k, r')). by apply list_elem_of_In.
Qed.

Lemma status_literal_known st :
  st ∈ NbaItemResponse.status_literal <-> st ∈ NBA_STATUSES.
Proof.
  unfold NbaItemResponse.status_literal, NBA_STATUSES.
  rewrite !elem_of_cons, elem_of_nil, !elem_of_union, !elem_of_singleton.
  unfold NBA_STATUS_NEW, NBA_STATUS_ACCEPTED, NBA_STATUS_REJECTED. tauto.
Qed.

Lemma py_slice_subseteq {A} (l : list A) (start stop : Z) x :
  x ∈ py_slice l start stop -> x ∈ l.
Proof.
  unfold py_slice. intros Hin.
  apply list_elem_of_lookup in Hin as [i Hi].
  apply lookup_take_Some in Hi as [Hi _]. rewrite lookup_drop in Hi.
  by eapply list_elem_of_lookup_2.
Qed.

(** A request the route lets through is answered with the page of the
    listing. *)
Lemma list_route_passes a e status_filter (limit offset : Z) user s :
  statuses_known s -> 1 <= limit <= 200 -> 0 <= offset ->
  truthy status_filter && not_in_statuses status_filter = false ->
  routes.list_nbas a e status_filter limit offset user s
  = (inl (NbaListResponse.mk
            (map item_response
                 (py_slice (listing a e status_filter s)
                           offset (offset + limit)))
            (Z.of_nat (length (listing a e status_filter s)))
            limit offset), s).
Proof.
  intros Hknown Hlimit Hoffset Hpass. unfold routes.list_nbas.
  rewrite Hpass, list_for_user_run.
  rewrite (mapM_all_Some _ item_response).
  - unfold NbaListResponse.validated. cbn [NbaListResponse.total
      NbaListResponse.limit NbaListResponse.offset].
    repeat (rewrite (proj2 (Z.leb_le _ _)) by lia). done.
  - intros r Hr. unfold NbaItemResponse.validated.
    rewrite bool_decide_eq_true_2; [done|].
    apply status_literal_known. simpl.
    apply (statuses_known_values s); [done|].
    apply py_slice_subseteq, listing_elem_of in Hr. tauto.
Qed.

(** X13: GET /api/v1/nba on a store whose records all have a known status
    (as the services keep it), with the limit and offset FastAPI admits.
    The route never changes the state.  A status filter that is not empty
    and not new, accepted or rejected is answered with 400, code
    bad_request.  Every other request is answered with the page of the
    listing, item by item, the total, and the limit and offset echoed;
    the response model never fails to build.  An empty status filter is not
    rejected and not ignored: it selects nothing, total 0. *)
Theorem list_route_answers a e status_filter (limit offset : Z) user s :
  statuses_known s -> 1 <= limit <= 200 -> 0 <= offset ->
  snd (routes.list_nbas a e status_filter limit offset user s) = s
  /\ (truthy status_filter && not_in_statuses status_filter = true ->
      answer (fst (routes.list_nbas a e status_filter limit offset user s))
      = ErrorAnswer (JSONResponse.mk 400 "bad_request" "invalid status filter"))
  /\ (truthy status_filter && not_in_statuses status_filter = false ->
      fst (routes.list_nbas a e status_filter limit offset user s)
      = inl (NbaListResponse.mk
               (map item_response
                    (py_slice (listing a e status_filter s)
                              offset (offset + limit)))
               (Z.of_nat (length (listing a e status_filter s)))
               limit offset))
  /\ (status_filter = Some ""%string ->
      fst (routes.list_nbas a e status_filter limit offset user s)
      = inl (NbaListResponse.mk [] 0 limit offset)).
Proof.
  intros Hknown Hlimit Hoffset.
  pose proof (list_route_passes a e status_filter limit offset user s
                Hknown Hlimit Hoffset) as Hok.
  split; [|split; [|split]].
  - destruct (truthy status_filter && not_in_statuses status_filter) eqn:Hf.
    + unfold routes.list_nbas. by rewrite Hf.
    + by rewrite Hok.
  - intros Hf. unfold routes.list_nbas. by rewrite Hf.
  - intros Hf. by rewrite Hok.
  - intros ->. rewrite Hok by done. cbn [fst].
    assert (Hnone : listing a e (Some ""%string) s = []).
    { destruct (listing a e (Some ""%string) s) as [|r l] eqn:Hl; [done|].
      assert (Hr : r ∈ listing a e (Some ""%string) s) by (rewrite Hl; left).
      apply listing_elem_of in Hr as [Hin Hkeep].
      apply list_nbas_keep_spec in Hkeep as (_ & _ & _ & Hst).
      pose proof (statuses_known_values s r Hknown Hin) as Hk.
      rewrite (Hst _ eq_refl) in Hk. exfalso. revert Hk.
      unfold NBA_STATUSES.
      rewrite !elem_of_union, !elem_of_singleton.
      unfold NBA_STATUS_NEW, NBA_STATUS_ACCEPTED, NBA_STATUS_REJECTED.
      intros [[?|?]|?]; discriminate. }
    rewrite Hnone. unfold py_slice. by rewrite drop_nil, take_nil.
Qed.

Lemma list_route_answers_witness :
  let route := routes.list_nbas None (Some "BE0123"%string) (Some ""%string)
                 50 0 get_user_context sample_state_served in
  snd route = sample_state_served
  /\ fst route = inl (NbaListResponse.mk [] 0 50 0).
Proof.
  assert (Hknown : statuses_known sample_state_served).
  { apply (bool_decide_unpack _). vm_compute. exact I. }
  destruct (list_route_answers None (Some "BE0123"%string) (Some ""%string)
              50 0 get_user_context sample_state_served Hknown)
    as (Hsame & _ & _ & Hempty); [lia|lia|].
  split; [exact Hsame|]. by apply Hempty.
Defined.

Lemma or_else_truthy a b :
  (b <> ""%string -> or_else a b <> ""%string)
  /\ (truthy a = true -> Some (or_else a b) = a).
Proof.
  unfold or_else, truthy. destruct a as [a|]; [|by split].
  destruct (String.eqb_spec a ""); split; done.
Qed.

Section SubmitAction.
Context (env : Env).

(** X14: POST /api/v1/nba/{nba_id}/actions.  A response is always for the
    requested id and status, which is accepted or rejected, it names whoever
    acted first, never an empty name for a user who has one, and its entry
    is in the log; the response model never fails to build.  Every failure
    leaves the state as it was and is answered by the handler with 400
    bad_request, 404 not_found or 409 conflict, never with a bare 500. *)
Theorem submit_action_answers nba_id (payload : NbaActionRequest.t) user s :
  match routes.submit_action env nba_id payload user s with
  | (inl response, s') =>
      NbaActionResponse.nba_id response = nba_id
      /\ NbaActionResponse.status response = NbaActionRequest.status payload
      /\ (NbaActionRequest.status payload = NBA_STATUS_ACCEPTED
          \/ NbaActionRequest.status payload = NBA_STATUS_REJECTED)
      /\ (UserContext.username user <> ""%string ->
          NbaActionResponse.acted_by response <> ""%string)
      /\ exists event,
           event ∈ _events s'
           /\ NbaEventLogRecord.id event = NbaActionResponse.event_id response
           /\ NbaEventLogRecord.action_at event
              = NbaActionResponse.action_at response
           /\ (truthy (NbaEventLogRecord.acted_by event) = true ->
               NbaEventLogRecord.acted_by event
               = Some (NbaActionResponse.acted_by response))
  | (inr err, s') =>
      s' = s
      /\ exists detail,
           answer (A := NbaActionResponse.t) (inr err)
           = ErrorAnswer (JSONResponse.mk 400 "bad_request" detail)
           \/ answer (A := NbaActionResponse.t) (inr err)
              = ErrorAnswer (JSONResponse.mk 404 "not_found" detail)
           \/ answer (A := NbaActionResponse.t) (inr err)
              = ErrorAnswer (JSONResponse.mk 409 "conflict" detail)
  end.
Proof.
  unfold routes.submit_action.
  destruct (register_action_cases env nba_id
              (NbaActionRequest.status payload)
              (NbaActionRequest.action_at payload)
              (NbaActionRequest.comment payload) user s)
    as [(e & -> & He)|[(ev & nba & -> & Hst & Hget & Hsame & Hin & Hact)
                      |(nba & s' & -> & Hst & Hget & Hnew & _ & Hl & _)]].
  - split; [done|].
    destruct He as [[-> _]|[[-> _]|[-> _]]]; eexists; cbn; eauto.
  - unfold is_action_event in Hact.
    apply andb_true_iff in Hact as [Hact Hby].
    apply andb_true_iff in Hact as [Hid Hstat].
    apply bool_decide_eq_true in Hid, Hstat.
    unfold NbaActionResponse.validated. cbn [NbaActionResponse.status].
    rewrite bool_decide_eq_true_2.
    2:{ rewrite Hstat. apply action_status_cases in Hst as [->| ->];
          unfold NbaActionResponse.status_literal; set_solver. }
    cbn -[or_else]. split; [done|]. split; [done|].
    split; [by apply action_status_cases|].
    split; [apply or_else_truthy|].
    exists ev. split; [done|]. split; [done|]. split; [done|].
    intros _. symmetry. by apply or_else_truthy.
  - unfold NbaActionResponse.validated. cbn [NbaActionResponse.status].
    rewrite bool_decide_eq_true_2.
    2:{ cbn. apply action_status_cases in Hst as [->| ->];
          unfold NbaActionResponse.status_literal; set_solver. }
    cbn -[or_else]. split; [done|]. split; [done|].
    split; [by apply action_status_cases|].
    split; [apply or_else_truthy|].
    eexists. split; [rewrite Hl; apply elem_of_app; right; by left|].
    split; [done|]. split; [done|].
    intros Hby. symmetry. by apply or_else_truthy.
Qed.
End SubmitAction.

(** ** The writes of the record store, one by one *)

Section RecordStore.
Context (env : Env).

(** X15: [update_status] checks nothing but the key.  For an id the store
    does not hold it raises [KeyError] and changes nothing.  For an id it
    holds it accepts any status, whatever the current one, also on an
    inactive record: the record under that id becomes the old one with the
    new status and the clock's time as [updated_at], and is what the call
    returns; every other record, the order of the keys, the event ties,
    the log and the ledger are as before. *)
Theorem update_status_checks_only_the_key nba_id st s :
  match dict_get (_nbas s) nba_id with
  | None => update_status env nba_id st s = (Raise (KeyError nba_id), s)
  | Some existing =>
      let updated :=
        NbaRecord.replace_status existing st (clock env (clock_reads s)) in
      let s' := snd (update_status env nba_id st s) in
      fst (update_status env nba_id st s) = Return updated
      /\ dict_get (_nbas s') nba_id = Some updated
      /\ NbaRecord.status updated = st
      /\ NbaRecord.active updated = NbaRecord.active existing
      /\ (forall k, k <> nba_id ->
            dict_get (_nbas s') k = dict_get (_nbas s) k)
      /\ dict_keys (_nbas s') = dict_keys (_nbas s)
      /\ _event_to_nba_id s' = _event_to_nba_id s
      /\ _events s' = _events s
      /\ _processed s' = _processed s
  end.
Proof.
  unfold update_status, bind, gets, utc_now, modify, ret, raise.
  destruct (dict_get (_nbas s) nba_id) as [existing|] eqn:Hget; [|done].
  cbn. split; [done|]. split; [apply dict_get_set_eq|].
  split; [done|]. split; [done|].
  split; [intros k Hk; by apply dict_get_set_ne|].
  split; [|done].
  apply dict_keys_set_present, dict_get_is_Some. by eexists.
Qed.

(** X16: an event id is tied to one record for good.  Whatever the stores
    hold, after [upsert_from_calculation_event] for an event id, a second
    call for the same event id, with any definition, identifiers and
    context, returns what the first returned and changes nothing: no second
    record, no id drawn, no clock read. *)
Theorem upsert_replays_the_first_answer
    event_id d e a c ctx d' e' a' c' ctx' s :
  let first := upsert_from_calculation_event env event_id d e a c ctx s in
  upsert_from_calculation_event env event_id d' e' a' c' ctx' (snd first)
  = (fst first, snd first).
Proof.
  cbv zeta. rewrite (upsert_run env event_id d e a c ctx s).
  destruct (dict_get (_event_to_nba_id s) event_id) as [k|] eqn:Htied.
  - cbn [fst snd]. rewrite upsert_run. by rewrite Htied.
  - cbv zeta. cbn [fst snd]. rewrite upsert_run.
    cbn [_event_to_nba_id _nbas set_nbas set_event_to_nba_id].
    by rewrite !dict_get_set_eq.
Qed.
End RecordStore.

(** ** Replaying events *)

Section Replay.
Context (env : Env).

Lemma process_all_app l l' s :
  process_all env (l ++ l') s = process_all env l' (process_all env l s).
Proof. revert s. induction l as [|p l IH]; intros s; simpl; [done|apply IH]. Qed.

Lemma ledger_process_all l s : ledger_grows s (process_all env l s).
Proof.
  revert s. induction l as [|p l IH]; intros s; simpl; [reflexivity|].
  etrans; [apply (ledger_process env p s)|apply IH].
Qed.

Lemma process_all_marks l s p :
  p ∈ l -> Payload.event_id p ∈ _processed (process_all env l s).
Proof.
  revert s. induction l as [|q l IH]; intros s Hin; simpl.
  - by apply elem_of_nil in Hin.
  - apply elem_of_cons in Hin as [->|Hin]; [|by apply IH].
    apply (ledger_process_all l). apply process_marks.
Qed.

Lemma process_all_duplicates l s :
  (forall p, p ∈ l -> Payload.event_id p ∈ _processed s) ->
  process_all env l s = s
  /\ Forall (fun p => process env p s = (Return duplicate_skipped, s)) l.
Proof.
  induction l as [|p l IH]; intros Hseen; simpl; [done|].
  assert (Hp : process env p s = (Return duplicate_skipped, s))
    by (apply process_duplicate, Hseen; left).
  rewrite Hp. simpl.
  destruct IH as [IH1 IH2]; [intros q Hq; apply Hseen; by right|].
  split; [done|]. by constructor.
Qed.

(** X17: the worker can be sent a batch again.  Once a list of events was
    processed, processing any further events that bear event ids of that
    list, in any order, any number of times and with any content, changes
    nothing at all, and each of them is answered duplicate_skipped. *)
Theorem replayed_events_change_nothing (events again : list Payload.t) s :
  (forall p, p ∈ again ->
     exists q, q ∈ events /\ Payload.event_id q = Payload.event_id p) ->
  let s' := process_all env events s in
  process_all env (events ++ again) s = s'
  /\ Forall (fun p => process env p s' = (Return duplicate_skipped, s')) again.
Proof.
  intros Hagain s'. rewrite process_all_app. fold s'.
  apply process_all_duplicates. intros p Hp.
  destruct (Hagain p Hp) as (q & Hq & <-). by apply process_all_marks.
Qed.
End Replay.

Lemma replayed_events_change_nothing_witness :
  let s' := process_all sample_env [sample_event_1; sample_event_2]
              initial_state in
  process_all sample_env
    ([sample_event_1; sample_event_2] ++ sample_resent_events) initial_state
  = s'
  /\ Forall (fun p => process sample_env p s' = (Return duplicate_skipped, s'))
            sample_resent_events.
Proof.
  apply (replayed_events_change_nothing sample_env
           [sample_event_1; sample_event_2] sample_resent_events initial_state).
  intros p Hp. unfold sample_resent_events in Hp.
  apply elem_of_cons in Hp as [->|Hp].
  - exists sample_event_2. split; [|reflexivity]. right. left.
  - apply list_elem_of_singleton in Hp as ->.
    exists sample_event_1. split; [left|reflexivity].
Defined.

(** ** Validating a calculation event request *)

(** X18: what [validate_targets] lets through.  It rejects a request exactly
    when none of enterprise_number, account_id and contact_id is a
    non-empty string.  A request it accepts comes back with every field as
    it was, except that an [occurred_at] without time zone is read as UTC,
    same wall clock; so the result always has a time zone, a request that
    had one comes back unchanged, and validating the result again changes
    nothing. *)
Theorem validate_targets_lets_through (r : CalculationEventRequest.t) :
  let targeted :=
    truthy (CalculationEventRequest.enterprise_number r)
    || truthy (CalculationEventRequest.account_id r)
    || truthy (CalculationEventRequest.contact_id r) in
  match CalculationEventRequest.validate_targets r with
  | None => targeted = false
  | Some r' =>
      targeted = true
      /\ r' = CalculationEventRequest.set_occurred_at r
                (CalculationEventRequest.occurred_at r')
      /\ datetime.wall (CalculationEventRequest.occurred_at r')
         = datetime.wall (CalculationEventRequest.occurred_at r)
      /\ datetime.aware (CalculationEventRequest.occurred_at r')
      /\ (datetime.tzinfo (CalculationEventRequest.occurred_at r) = None ->
          datetime.is_utc (CalculationEventRequest.occurred_at r'))
      /\ (datetime.aware (CalculationEventRequest.occurred_at r) -> r' = r)
      /\ CalculationEventRequest.validate_targets r' = Some r'
  end.
Proof.
  unfold CalculationEventRequest.validate_targets.
  destruct r as [ev [wall tz] src d e a c cr ids ctx]. cbn.
  destruct (truthy e || truthy a || truthy c) eqn:Ht; cbn; [|done].
  destruct tz as [tz|]; cbn; rewrite ?Ht; cbn;
    unfold datetime.aware, datetime.is_utc; cbn; repeat split; done.
Qed.

(** ** The calculator's pager against the list route *)

Section Fetch.
Context (s : State) (nba_definition_id : string)
        (account_id enterprise_number : option string) (page_limit : Z).
Hypothesis known : statuses_known s.
Hypothesis page_limit_ok : 1 <= page_limit <= 200.

Lemma backend_page (offset : nat) :
  backend s (if_truthy account_id) (if_truthy enterprise_number) "new"
          page_limit (Z.of_nat offset)
  = Some (take (Z.to_nat page_limit)
               (drop offset (listed_items account_id enterprise_number s)),
          Z.of_nat (length (listed_items account_id enterprise_number s))).
Proof.
  unfold backend.
  rewrite !(proj2 (Z.leb_le _ _)) by lia. cbn [andb].
  rewrite list_route_passes; [|done|done|lia|].
  2:{ apply andb_false_iff. right. cbn.
      rewrite bool_decide_eq_true_2; [done|].
      unfold NBA_STATUSES, NBA_STATUS_NEW. set_solver. }
  cbn [fst NbaListResponse.items NbaListResponse.total].
  rewrite py_slice_nonneg by lia.
  unfold listed_items. rewrite length_map, <- fmap_drop, <- fmap_take.
  by rewrite Nat2Z.id.
Qed.

Lemma fetch_pages_run (fuel offset : nat) matched :
  (offset <= length (listed_items account_id enterprise_number s))%nat ->
  (length (listed_items account_id enterprise_number s) - offset < fuel)%nat ->
  fetch_pages (backend s) nba_definition_id account_id enterprise_number
              page_limit fuel (Z.of_nat offset) matched
  = Fetched
      (matched
       ++ List.filter (is_wanted nba_definition_id)
            (drop offset (listed_items account_id enterprise_number s))).
Proof.
  revert offset matched.
  induction fuel as [|fuel IH]; intros offset matched Hle Hfuel; [lia|].
  cbn [fetch_pages]. rewrite backend_page.
  set (page := take (Z.to_nat page_limit)
                    (drop offset (listed_items account_id enterprise_number s))).
  assert (Hlen : length page
                 = Nat.min (Z.to_nat page_limit)
                     (length (listed_items account_id enterprise_number s)
                      - offset)).
  { unfold page. by rewrite length_take, length_drop. }
  destruct (Z.leb_spec
              (Z.of_nat (length (listed_items account_id enterprise_number s)))
              (Z.of_nat offset + Z.of_nat (length page))) as [Hend|Hmore].
  - cbn [orb]. do 3 f_equal. unfold page. apply take_ge.
    rewrite length_drop. lia.
  - destruct (decide (page = [])) as [Hnil|Hsome].
    + rewrite Hnil in Hlen. simpl in Hlen. lia.
    + rewrite (bool_decide_eq_false_2 _ Hsome). cbn [orb].
      assert (0 < length page)%nat by (destruct page; [done|simpl; lia]).
      rewrite <- Nat2Z.inj_add, IH by lia.
      rewrite <- app_assoc, <- List.filter_app. do 3 f_equal.
      rewrite <- drop_drop.
      rewrite Hlen, Nat.min_l by lia. unfold page.
      by rewrite take_drop.
Qed.
End Fetch.

Lemma is_wanted_items nba_definition_id (l : list NbaRecord.t) :
  (forall r, r ∈ l -> NbaRecord.status r = "new"%string) ->
  List.filter (is_wanted nba_definition_id) (map item_response l)
  = map item_response
      (List.filter
         (fun r => bool_decide (NbaRecord.nba_definition_id r = nba_definition_id))
         l).
Proof.
  induction l as [|r l IH]; intros Hnew; [done|].
  cbn [map List.filter]. unfold is_wanted at 1. cbn.
  rewrite (bool_decide_eq_true_2 (NbaRecord.status r = _))
    by (apply Hnew; left).
  cbn [andb].
  rewrite IH by (intros r' Hr'; apply Hnew; by right).
  by destruct (bool_decide _).
Qed.

(** X19: the calculator's pager gets the whole listing.  Against a backend
    whose stores do not change meanwhile and whose records all have a
    known status, [fetch_active_nbas_for_definition] never sends a limit or
    offset the route refuses, whatever [limit] it was given; it stops within
    one request more than there are records to list; and it returns, newest
    first, exactly the active new records of the definition that equal the
    account and the enterprise number it was given, an empty or missing one
    not filtering at all. *)
Theorem fetch_gets_the_whole_listing
    (s : State) nba_definition_id account_id enterprise_number
    (limit : Z) (fuel : nat) :
  statuses_known s ->
  let wanted :=
    List.filter
      (fun r => bool_decide (NbaRecord.nba_definition_id r = nba_definition_id))
      (listing (if_truthy account_id) (if_truthy enterprise_number)
               (Some "new"%string) s) in
  (length (listing (if_truthy account_id) (if_truthy enterprise_number)
                   (Some "new"%string) s) < fuel)%nat ->
  fetch_active_nbas_for_definition (backend s) nba_definition_id
    account_id enterprise_number limit fuel
  = Fetched (map item_response wanted)
  /\ forall r, r ∈ wanted <->
       r ∈ dict_values (_nbas s)
       /\ NbaRecord.active r = true
       /\ NbaRecord.status r = NBA_STATUS_NEW
       /\ NbaRecord.nba_definition_id r = nba_definition_id
       /\ (truthy account_id = true -> NbaRecord.account_id r = account_id)
       /\ (truthy enterprise_number = true ->
           NbaRecord.enterprise_number r = enterprise_number).
Proof.
  intros Hknown wanted Hfuel. split.
  - unfold fetch_active_nbas_for_definition.
    pose proof (fetch_pages_run s nba_definition_id account_id
                  enterprise_number (Z.max 1 (Z.min limit 200)) Hknown
                  ltac:(lia) fuel 0%nat []) as Hrun.
    etrans; [apply Hrun; [lia|unfold listed_items; rewrite length_map; lia]|].
    rewrite drop_0, app_nil_l. f_equal. unfold wanted.
    assert (Hnew : forall r,
              r ∈ listing (if_truthy account_id) (if_truthy enterprise_number)
                    (Some "new"%string) s ->
              NbaRecord.status r = "new"%string).
    { intros r Hr. apply listing_elem_of in Hr as [_ Hkeep].
      apply list_nbas_keep_spec in Hkeep as (_ & _ & _ & Hst).
      by apply Hst. }
    by apply is_wanted_items.
  - intros r. unfold wanted.
    rewrite list_elem_of_In, filter_In, <- list_elem_of_In, listing_elem_of.
    rewrite list_nbas_keep_spec, bool_decide_eq_true.
    unfold matches_filters, if_truthy.
    split.
    + intros [[Hin (Hact & Ha & He & Hst)] Hd].
      repeat split; try done.
      * by apply Hst.
      * intros Ht. rewrite Ht in Ha. destruct account_id; [|done].
        by apply Ha.
      * intros Ht. rewrite Ht in He. destruct enterprise_number; [|done].
        by apply He.
    + intros (Hin & Hact & Hst & Hd & Ha & He).
      split; [|done]. split; [done|]. split; [done|].
      split; [|split].
      * intros x Hx. destruct (truthy account_id); [|done].
        rewrite Ha by done. done.
      * intros x Hx. destruct (truthy enterprise_number); [|done].
        rewrite He by done. done.
      * intros x [= <-]. done.
Qed.

Lemma fetch_gets_the_whole_listing_witness :
  let wanted :=
    List.filter
      (fun r => bool_decide (NbaRecord.nba_definition_id r = "upsell"%string))
      (listing (if_truthy (Some ""%string)) (if_truthy (Some "BE0123"%string))
               (Some "new"%string) sample_state_served) in
  fetch_active_nbas_for_definition (backend sample_state_served) "upsell"
    (Some ""%string) (Some "BE0123"%string) 0 5
  = Fetched (map item_response wanted)
  /\ forall r, r ∈ wanted <->
       r ∈ dict_values (_nbas sample_state_served)
       /\ NbaRecord.active r = true
       /\ NbaRecord.status r = NBA_STATUS_NEW
       /\ NbaRecord.nba_definition_id r = "upsell"%string
       /\ (truthy (Some ""%string) = true ->
           NbaRecord.account_id r = Some ""%string)
       /\ (truthy (Some "BE0123"%string) = true ->
           NbaRecord.enterprise_number r = Some "BE0123"%string).
Proof.
  apply (fetch_gets_the_whole_listing sample_state_served "upsell"
           (Some ""%string) (Some "BE0123"%string) 0 5).
  - apply (bool_decide_unpack _). vm_compute. exact I.
  - vm_compute. lia.
Defined.

(** ** The audit trail *)

Lemma log_of_app_other s s' event k :
  _events s' = _events s ++ [event] ->
  NbaEventLogRecord.nba_id event <> k ->
  log_of s' k = log_of s k.
Proof.
  intros Hl Hne. unfold log_of. rewrite Hl, List.filter_app. simpl.
  rewrite (bool_decide_eq_false_2 _ Hne). apply app_nil_r.
Qed.

Lemma log_of_app_same s s' event :
  _events s' = _events s ++ [event] ->
  log_of s' (NbaEventLogRecord.nba_id event)
  = log_of s (NbaEventLogRecord.nba_id event) ++ [event].
Proof.
  intros Hl. unfold log_of. rewrite Hl, List.filter_app. simpl.
  by rewrite bool_decide_eq_true_2.
Qed.

Lemma log_of_unknown s k :
  (forall event, event ∈ _events s ->
     NbaEventLogRecord.nba_id event ∈ dict_keys (_nbas s)) ->
  k ∉ dict_keys (_nbas s) -> log_of s k = [].
Proof.
  intros Hev Hk. apply filter_none. intros event Hin.
  apply bool_decide_eq_false_2. intros <-. apply Hk. by apply Hev.
Qed.

Lemma audited_only_deactivates s s' :
  only_deactivates s s' -> audited s -> audited s'.
Proof.
  intros (Hrel & _ & Hl & _) [Htrail Hev]. split.
  - intros k r' Hget'. pose proof (dict_rel_get _ _ _ k Hrel) as H.
    destruct (dict_get (_nbas s) k) as [r|] eqn:Hget; [|congruence].
    destruct H as (r2 & Hget2 & Hfrom).
    assert (r2 = r') as -> by congruence.
    rewrite (deactivated_from_status _ _ Hfrom).
    unfold log_of. rewrite Hl. by apply Htrail.
  - intros event. rewrite Hl, (dict_rel_keys _ _ _ Hrel). apply Hev.
Qed.

Section AuditTrail.
Context (env : Env).

Lemma audited_register_action k st at_ c u s :
  audited s -> audited (snd (register_action env k st at_ c u s)).
Proof.
  intros [Htrail Hev].
  destruct (register_action_cases env k st at_ c u s)
    as [(e & -> & _)|[(ev & nba & -> & _)
                     |(nba & s' & -> & Hst & Hget & Hnew & [now Hn] & Hl & _)]];
    [done|done|].
  cbn [snd].
  set (action := logged_action env k st at_ c u s) in *.
  assert (Hid : NbaEventLogRecord.nba_id action = k) by done.
  split.
  - intros k' r' Hget'. rewrite Hn in Hget'.
    destruct (decide (k = k')) as [<-|Hne].
    + rewrite dict_get_set_eq in Hget'. injection Hget' as <-.
      destruct (Htrail k nba Hget) as (creation & Hc1 & Hc2 & Hcase).
      destruct Hcase as [[Hwas Hlog]|(a & w & Hterm & _)]; [|done].
      exists creation. split; [done|]. split; [done|]. right.
      exists action, (UserContext.username u).
      split; [done|]. split; [|done].
      rewrite <- Hid at 1. rewrite (log_of_app_same s s' action Hl).
      rewrite Hid. by rewrite Hlog.
    + rewrite dict_get_set_ne in Hget' by done.
      rewrite (log_of_app_other s s' action k' Hl) by (by rewrite Hid).
      by apply Htrail.
  - intros event. rewrite Hl, Hn, elem_of_app, list_elem_of_singleton.
    rewrite dict_keys_set_present
      by (apply dict_get_is_Some; by eexists).
    intros [Hin| ->]; [by apply Hev|].
    rewrite Hid. apply dict_get_is_Some. by eexists.
Qed.

Lemma audited_process p s :
  fresh_until env (uuid_draws (snd (process env p s))) ->
  services_invariants env s -> audited s ->
  audited (snd (process env p s)).
Proof.
  intros Hfresh (Hs & Hdrawn & _ & _) Haud.
  destruct (decide (Payload.event_id p ∈ _processed s)) as [Hin|Hout].
  { by rewrite process_duplicate. }
  pose proof (only_deactivates_after_deactivation env p s) as Hod.
  pose proof (audited_only_deactivates _ _ Hod Haud) as Haud_a.
  destruct (default true (Payload.create_nba p)) eqn:Hcreate.
  2:{ rewrite process_run. unfold process_phases.
      rewrite (bool_decide_eq_false_2 _ Hout), Hcreate. cbn [negb snd].
      exact Haud_a. }
  assert (Htied : dict_get (_event_to_nba_id s) (Payload.event_id p) = None).
  { destruct (dict_get _ _) eqn:Hget; [|done].
    exfalso. apply Hout. by apply (created_are_processed s Hs _ s0). }
  destruct (process_creates env p s (keys_unique s Hs) Hout Htied Hcreate)
    as (Hrun & _ & Hod' & Hn & _).
  rewrite Hrun in Hfresh |- *. cbn [snd] in Hfresh |- *.
  set (sa := after_deactivation env p s) in *.
  set (n := new_nba env p sa) in *.
  set (sb := after_insert env p sa) in *.
  set (sc := after_supersession env n sb) in *.
  assert (Hnew : NbaRecord.id n ∉ dict_keys (_nbas sa)).
  { apply drawn_id_is_new.
    - eapply fresh_until_le; [|exact Hfresh].
      destruct Hod' as (_ & _ & _ & _ & Hu). simpl. rewrite Hu. simpl. lia.
    - by apply (ids_were_drawn_only_deactivates env s). }
  destruct Haud_a as [Htrail_a Hev_a].
  pose proof Hod' as (Hrel' & _ & Hl' & _).
  set (entry := creation_entry env p n sc).
  assert (Hl : _events (after_log_and_mark env p n sc)
               = _events sa ++ [entry]) by (simpl; by rewrite Hl').
  assert (Hlog : forall k,
            log_of (after_log_and_mark env p n sc) k
            = if decide (k = NbaRecord.id n) then [entry] else log_of sa k).
  { intros k. destruct (decide (k = NbaRecord.id n)) as [->|Hne].
    - change (NbaRecord.id n) with (NbaEventLogRecord.nba_id entry) at 1.
      rewrite (log_of_app_same sa _ entry Hl).
      change (NbaEventLogRecord.nba_id entry) with (NbaRecord.id n).
      by rewrite (log_of_unknown sa (NbaRecord.id n)).
    - apply (log_of_app_other sa _ entry k Hl). by intros <-. }
  split.
  - intros k r Hget. cbn [_nbas after_log_and_mark] in Hget.
    rewrite Hlog. destruct (decide (k = NbaRecord.id n)) as [->|Hne].
    + rewrite Hn in Hget. injection Hget as <-.
      exists entry. split; [done|]. split; [done|]. by left.
    + pose proof (dict_rel_get _ _ _ k Hrel') as H.
      destruct (dict_get (_nbas sb) k) as [rb|] eqn:Hget_b; [|congruence].
      destruct H as (r2 & Hget2 & Hfrom).
      assert (r2 = r) as -> by congruence.
      rewrite (deactivated_from_status _ _ Hfrom).
      apply Htrail_a. rewrite <- Hget_b. unfold sb. simpl.
      symmetry. apply dict_get_set_ne. by intros <-.
  - intros event. rewrite Hl, elem_of_app, list_elem_of_singleton.
    cbn [_nbas after_log_and_mark].
    rewrite (dict_rel_keys _ _ _ Hrel').
    unfold sb. cbn [_nbas after_insert]. fold n.
    rewrite dict_keys_set, decide_False by done.
    rewrite elem_of_app, list_elem_of_singleton.
    intros [Hin| ->]; [left; by apply Hev_a|by right].
Qed.

Lemma audited_run_calls calls s :
  Forall is_service_call calls ->
  fresh_until env (uuid_draws (run_calls env calls s)) ->
  services_invariants env s -> audited s ->
  audited (run_calls env calls s).
Proof.
  intros Hcalls. revert s.
  induction Hcalls as [|c calls Hc Hcalls IH]; intros s Hfresh Hs Haud;
    [done|].
  cbn [run_calls fold_left] in Hfresh |- *.
  assert (Hstep : fresh_until env (uuid_draws (run_call env c s))).
  { eapply fresh_until_le; [|exact Hfresh]. by apply draws_run_calls. }
  apply IH; [done| |].
  - destruct c; try destruct Hc; cbn [run_call] in Hstep |- *.
    + done.
    + by apply lifecycle_register_action.
    + by apply lifecycle_process.
  - destruct c; try destruct Hc; cbn [run_call] in Hstep |- *.
    + done.
    + by apply audited_register_action.
    + by apply audited_process.
Qed.

(** X20: the audit trail.  In every state the services build from the
    empty stores, with no two generated ids colliding, [list_for_nba]
    returns for a record whose status is new exactly one entry, the one of
    its creation (status new, no [acted_by]); for a record that is accepted
    or rejected exactly two, that entry followed by the one action that
    gave the record its status, with its actor; and for an id the store
    does not hold, nothing. *)
Theorem every_record_has_its_trail (calls : list Call) :
  Forall is_service_call calls ->
  let s := run_calls env calls initial_state in
  fresh_until env (uuid_draws s) ->
  forall k,
    match dict_get (_nbas s) k with
    | None => fst (list_for_nba k s) = Return []
    | Some r =>
        exists creation,
          NbaEventLogRecord.status creation = NBA_STATUS_NEW
          /\ NbaEventLogRecord.acted_by creation = None
          /\ ((NbaRecord.status r = NBA_STATUS_NEW
               /\ fst (list_for_nba k s) = Return [creation])
              \/ (exists action who,
                    NbaRecord.status r ∈ ACTION_STATUSES
                    /\ fst (list_for_nba k s) = Return [creation; action]
                    /\ NbaEventLogRecord.status action = NbaRecord.status r
                    /\ NbaEventLogRecord.acted_by action = Some who))
    end.
Proof.
  intros Hcalls s Hfresh k.
  destruct (audited_run_calls calls initial_state Hcalls Hfresh
              (services_invariants_initial env)) as [Htrail Hev].
  { split; [intros ? ? H; discriminate H|].
    intros event Hin. by apply elem_of_nil in Hin. }
  fold s in Htrail, Hev.
  change (fst (list_for_nba k s)) with (Return (log_of s k)).
  destruct (dict_get (_nbas s) k) as [r|] eqn:Hget.
  - destruct (Htrail k r Hget) as (creation & Hc1 & Hc2 & Hcase).
    exists creation. split; [done|]. split; [done|].
    destruct Hcase as [[Hst ->]|(a & w & Hterm & -> & Ha1 & Ha2)];
      [by left|right; by exists a, w].
  - f_equal. apply log_of_unknown; [done|]. by apply dict_get_None.
Qed.
End AuditTrail.

Lemma every_record_has_its_trail_witness :
  match dict_get (_nbas sample_state_served) "nba_0a1b2c3d4e" with
  | None => fst (list_for_nba "nba_0a1b2c3d4e" sample_state_served) = Return []
  | Some r =>
      exists creation,
        NbaEventLogRecord.status creation = NBA_STATUS_NEW
        /\ NbaEventLogRecord.acted_by creation = None
        /\ ((NbaRecord.status r = NBA_STATUS_NEW
             /\ fst (list_for_nba "nba_0a1b2c3d4e" sample_state_served)
                = Return [creation])
            \/ (exists action who,
                  NbaRecord.status r ∈ ACTION_STATUSES
                  /\ fst (list_for_nba "nba_0a1b2c3d4e" sample_state_served)
                     = Return [creation; action]
                  /\ NbaEventLogRecord.status action = NbaRecord.status r
                  /\ NbaEventLogRecord.acted_by action = Some who))
  end.
Proof.
  apply (every_record_has_its_trail sample_env sample_service_calls).
  - repeat constructor.
  - apply (fresh_until_le sample_env _ 6); [vm_compute; lia|].
    apply sample_env_fresh.
Defined.
